(** * aegis/database.py: a shallow embedding and its specification

    The module is a dual-backend (psycopg2 / MySQLdb) database access layer:
    a per-thread connection registry ([db]), two connection classes
    ([PostgresConnection], [MysqlConnection]), a dict-with-attributes [Row]
    carrying a mini-ORM ([kva_split], [insert_columns], [update_columns]) and
    the migration ledger [SqlDiff].

    Python objects that are mutated and shared (connection objects, the
    registries) live in an explicit store; everything outside the module (the
    clock, the two drivers, the database server) is an oracle that answers as
    a function of the history of external calls made so far.  What the server
    makes of the ledger's SELECT statements is a condition on that oracle,
    stated from the text of the statement ([Sql]).

    Conventions: clock readings are integers (seconds); [*parameters] is a
    list and [**kwargs] the optional values of the keywords a method reads;
    the store is seen from one thread, whose identifier keys the per-thread
    dicts; [__del__] (finalisation by the garbage collector) is left out. *)

From Stdlib Require Import ZArith List String Ascii Bool Lia Permutation Sorted.
Import ListNotations.
Local Open Scope string_scope.
Local Open Scope Z_scope.

(* ===================================================================== *)
(** ** Python values *)

(** A [str] object: a plain [str], or an instance of the subclass
    [class Literal(str)]. *)
Inductive pystr : Type :=
| Str (s : string)
| Literal (s : string).

Definition text (p : pystr) : string :=
  match p with Str s | Literal s => s end.

(** Column values and SQL parameters. *)
Inductive value : Type :=
| VNone
| VInt (z : Z)
| VStr (p : pystr).

(** [isinstance(value, Literal)] *)
Definition isinstance_Literal (v : value) : bool :=
  match v with VStr (Literal _) => true | _ => false end.

(** Python truthiness of a value: [not v]. *)
Definition falsy (v : value) : bool :=
  match v with
  | VNone => true
  | VInt z => Z.eqb z 0
  | VStr p => String.eqb (text p) EmptyString
  end.

(** [a == b] as dict keys compare: a [Literal] equals the [str] of the same
    text (and hashes alike). *)
Definition value_eqb (a b : value) : bool :=
  match a, b with
  | VNone, VNone => true
  | VInt x, VInt y => Z.eqb x y
  | VStr p, VStr q => String.eqb (text p) (text q)
  | _, _ => false
  end.

(** The double-quote character *)
Definition dquote : string := String (ascii_of_nat 34) EmptyString.

(** [sep.join(l)] on a list of [str] objects *)
Definition str_join (sep : string) (l : list pystr) : string :=
  String.concat sep (map text l).

(** [c] is the one character of [s]. *)
Definition is_char (c : ascii) (s : string) : bool :=
  String.eqb (String c EmptyString) s.

(** [ch in s], for a one-character [ch] *)
Fixpoint has_char (ch : string) (s : string) : bool :=
  match s with
  | EmptyString => false
  | String c rest => is_char c ch || has_char ch rest
  end.

(** [s.split(sep)], for a one-character [sep] *)
Fixpoint split_from (word : string) (sep : string) (s : string) : list string :=
  match s with
  | EmptyString => [word]
  | String c rest =>
      if is_char c sep then word :: split_from EmptyString sep rest
      else split_from (word ++ String c EmptyString) sep rest
  end.

Definition split (sep : string) (s : string) : list string :=
  split_from EmptyString sep s.

(** The value of a decimal digit. *)
Definition digit (c : ascii) : option nat :=
  let n := nat_of_ascii c in
  if (Nat.leb 48 n && Nat.leb n 57)%bool then Some (n - 48)%nat else None.

Fixpoint number_from (acc : nat) (s : string) : option nat :=
  match s with
  | EmptyString => Some acc
  | String c rest =>
      match digit c with
      | Some d => number_from (10 * acc + d) rest
      | None => None
      end
  end.

(** An unsigned decimal literal: one digit or more, and nothing else. *)
Definition number (s : string) : option nat :=
  match s with
  | EmptyString => None
  | _ => number_from 0 s
  end.

(* ===================================================================== *)
(** ** Python dicts: insertion-ordered, keys unique *)

Module Dict.
Section Dict.
Context {K V : Type} (K_eqb : K -> K -> bool).

Definition t : Type := list (K * V).

(** [d[k]], [None] standing for the missing key *)
Fixpoint get (d : t) (k : K) : option V :=
  match d with
  | [] => None
  | (k', v) :: d' => if K_eqb k k' then Some v else get d' k
  end.

(** [k in d] *)
Definition mem (d : t) (k : K) : bool :=
  match get d k with Some _ => true | None => false end.

(** [d[k] = v]: an existing key keeps its position *)
Fixpoint set (d : t) (k : K) (v : V) : t :=
  match d with
  | [] => [(k, v)]
  | (k', v') :: d' =>
      if K_eqb k k' then (k', v) :: d' else (k', v') :: set d' k v
  end.

(** [dict(pairs)] *)
Definition of_pairs (l : list (K * V)) : t :=
  fold_left (fun d kv => set d (fst kv) (snd kv)) l [].

End Dict.

(** [d.keys()], [d.items()], [len(d)] *)
Definition keys {K V : Type} (d : list (K * V)) : list K := map fst d.
Definition items {K V : Type} (d : list (K * V)) : list (K * V) := d.
Definition len {K V : Type} (d : list (K * V)) : nat := List.length d.
End Dict.

(** A dict with [str] keys. *)
Definition sdict (V : Type) : Type := list (string * V).
Definition sget {V} (d : sdict V) (k : string) := Dict.get String.eqb d k.
Definition smem {V} (d : sdict V) (k : string) := Dict.mem String.eqb d k.
Definition sset {V} (d : sdict V) (k : string) (v : V) := Dict.set String.eqb d k v.

(** A dict keyed by thread identifiers. *)
Definition tdict (V : Type) : Type := list (nat * V).
Definition tget {V} (d : tdict V) (k : nat) := Dict.get Nat.eqb d k.
Definition tset {V} (d : tdict V) (k : nat) (v : V) := Dict.set Nat.eqb d k v.

(* ===================================================================== *)
(** ** Exceptions, the outside world, the store *)

Inductive exn : Type :=
| OperationalError            (* psycopg2 / MySQLdb OperationalError *)
| DatabaseError               (* any other psycopg2.Error / MySQLdb error *)
| KeyError (k : option string)
| AttributeError (name : string)
| TypeError
| IndexError
| ValueError
| PyException (msg : string). (* raise Exception(msg) *)

(** [except pgsql_OperationalError] and [except pgsql_DatabaseError], the
    latter being bound to [psycopg2.Error], the root of the driver's
    hierarchy. *)
Definition is_OperationalError (e : exn) : bool :=
  match e with OperationalError => true | _ => false end.
Definition is_psycopg2_Error (e : exn) : bool :=
  match e with OperationalError | DatabaseError => true | _ => false end.

Inductive backend : Type := Postgres | Mysql.

(** What a DB-API cursor holds after [cursor.execute]. *)
Record cursor_state : Type := {
  rowcount : Z;
  lastrowid : value;
  description : option (list string);   (* column names; None: no result set *)
  result_rows : list (list value)
}.

Definition fresh_cursor_state : cursor_state :=
  {| rowcount := -1; lastrowid := VNone; description := None; result_rows := [] |}.

(** A cursor object: the driver handle it was opened on and its state.  A
    cursor never outlives the method that opened it, so it is passed by
    value. *)
Record Cursor : Type := {
  cur_handle : nat;
  cur_state : cursor_state
}.

Inductive log_level : Type := LDebug | LWarning | LError.

(** External calls, newest first in the trace. *)
Inductive event : Type :=
| EvTime                                            (* time.time() *)
| EvConnect (k : backend)                           (* driver connect(...) *)
| EvClose (h : nat)                                 (* handle.close() *)
| EvCursor (h : nat)                                (* handle.cursor() *)
| EvExecute (h : nat) (sql : string) (params : list value)
| EvCommit (h : nat)
| EvRollback (h : nat)
| EvCursorClose (h : nat)
| EvLog (l : log_level) (msg : string).

Inductive exec_outcome : Type :=
| ExecOk (st : cursor_state)
| ExecRaise (e : exn).

(** [tornado.options.options] as far as the module reads it. *)
Record Options : Type := {
  pg_database : string;
  pg_hostname : option string;
  pg_username : option string;
  pg_password : option string;
  pg_port : Z;
  mysql_host : string;
  mysql_schema : string;
  mysql_user : option string;
  mysql_password : option string
}.

(** The environment of the module: import-time flags, options, and the
    answers of clock, drivers and server, each a function of the history. *)
Record Env : Type := {
  pgsql_available : bool;
  mysql_available : bool;
  options : Options;
  env_time : list event -> Z;
  env_connect : list event -> backend -> option exn;   (* None: connected *)
  env_execute : list event -> nat -> string -> list value -> exec_outcome;
  env_commit : list event -> nat -> option exn
}.

(** A connection object ([self]) of either class. *)
Record Connection : Type := {
  c_backend : backend;               (* type(self) *)
  c_host : option string;            (* self.hostname / self.host *)
  c_database : string;
  c_max_idle_time : Z;
  c_db : option nat;                 (* self._db: the live driver handle *)
  c_last_use_time : Z                (* self._last_use_time *)
}.

Definition with_db (c : Connection) (h : option nat) : Connection :=
  {| c_backend := c_backend c; c_host := c_host c; c_database := c_database c;
     c_max_idle_time := c_max_idle_time c; c_db := h;
     c_last_use_time := c_last_use_time c |}.

Definition with_last_use_time (c : Connection) (t : Z) : Connection :=
  {| c_backend := c_backend c; c_host := c_host c; c_database := c_database c;
     c_max_idle_time := c_max_idle_time c; c_db := c_db c;
     c_last_use_time := t |}.

Definition with_database (c : Connection) (d : string) : Connection :=
  {| c_backend := c_backend c; c_host := c_host c; c_database := d;
     c_max_idle_time := c_max_idle_time c; c_db := c_db c;
     c_last_use_time := c_last_use_time c |}.

(** The store.  Connection objects are referred to by their address in
    [w_heap]; the registries hold addresses, so every holder of a connection
    sees its mutations. *)
Record World : Type := {
  w_trace : list event;
  w_heap : list Connection;
  w_ident : nat;                          (* threading.current_thread().ident *)
  w_dbconns : tdict (sdict nat);          (* dbconns.databases, per thread *)
  w_pg_threads : tdict (sdict nat);       (* PostgresConnection.threads *)
  w_my_threads : tdict (sdict nat)        (* MysqlConnection.threads *)
}.

Definition with_trace (w : World) (t : list event) : World :=
  {| w_trace := t; w_heap := w_heap w; w_ident := w_ident w;
     w_dbconns := w_dbconns w; w_pg_threads := w_pg_threads w;
     w_my_threads := w_my_threads w |}.

Definition with_heap (w : World) (h : list Connection) : World :=
  {| w_trace := w_trace w; w_heap := h; w_ident := w_ident w;
     w_dbconns := w_dbconns w; w_pg_threads := w_pg_threads w;
     w_my_threads := w_my_threads w |}.

Definition with_dbconns (w : World) (d : tdict (sdict nat)) : World :=
  {| w_trace := w_trace w; w_heap := w_heap w; w_ident := w_ident w;
     w_dbconns := d; w_pg_threads := w_pg_threads w;
     w_my_threads := w_my_threads w |}.

Definition with_pg_threads (w : World) (d : tdict (sdict nat)) : World :=
  {| w_trace := w_trace w; w_heap := w_heap w; w_ident := w_ident w;
     w_dbconns := w_dbconns w; w_pg_threads := d;
     w_my_threads := w_my_threads w |}.

Definition with_my_threads (w : World) (d : tdict (sdict nat)) : World :=
  {| w_trace := w_trace w; w_heap := w_heap w; w_ident := w_ident w;
     w_dbconns := w_dbconns w; w_pg_threads := w_pg_threads w;
     w_my_threads := d |}.

Definition emit (ev : event) (w : World) : World :=
  with_trace w (ev :: w_trace w).

Fixpoint list_update {A} (l : list A) (n : nat) (x : A) : list A :=
  match l, n with
  | [], _ => []
  | _ :: l', O => x :: l'
  | y :: l', S n' => y :: list_update l' n' x
  end.

(* ===================================================================== *)
(** ** The monad of method bodies: state, exceptions, and getting stuck *)

Inductive stuck : Type :=
| OutOfFuel          (* recursion deeper than the fuel given *)
| Dangling           (* an address outside the heap *)
| Unmodelled.        (* a Python feature the embedding leaves out *)

Inductive res (A : Type) : Type :=
| Ok (a : A)
| Raise (e : exn)
| Stuck (s : stuck).
Arguments Ok {A} a.
Arguments Raise {A} e.
Arguments Stuck {A} s.

Definition M (A : Type) : Type := World -> res A * World.

Definition ret {A} (a : A) : M A := fun w => (Ok a, w).
Definition raise {A} (e : exn) : M A := fun w => (Raise e, w).
Definition stuck_with {A} (s : stuck) : M A := fun w => (Stuck s, w).

Definition bind {A B} (m : M A) (k : A -> M B) : M B :=
  fun w =>
    match m w with
    | (Ok a, w') => k a w'
    | (Raise e, w') => (Raise e, w')
    | (Stuck s, w') => (Stuck s, w')
    end.

Declare Scope py_scope.
Delimit Scope py_scope with py.
Notation "x <- m ;; k" := (bind m (fun x => k))
  (at level 61, m at next level, right associativity) : py_scope.
Notation "m ;; k" := (bind m (fun _ => k))
  (at level 61, right associativity) : py_scope.
Local Open Scope py_scope.

(** [try: body except <any exception the guard accepts> as e: handler e]. *)
Definition try_except {A} (body : M A) (guard : exn -> bool) (handler : exn -> M A) : M A :=
  fun w =>
    match body w with
    | (Raise e, w') => if guard e then handler e w' else (Raise e, w')
    | r => r
    end.

(** [try: body finally: fin]; the finaliser runs on return and on raise, and
    what it raises itself wins. *)
Definition try_finally {A} (body : M A) (fin : M unit) : M A :=
  fun w =>
    match body w with
    | (Stuck s, w') => (Stuck s, w')
    | (r, w') =>
        match fin w' with
        | (Ok _, w'') => (r, w'')
        | (Raise e, w'') => (Raise e, w'')
        | (Stuck s, w'') => (Stuck s, w'')
        end
    end.

(** A step that does not touch the store. *)
Definition lift {A} (r : res A) : M A := fun w => (r, w).

Definition get_world : M World := fun w => (Ok w, w).
Definition modify (f : World -> World) : M unit := fun w => (Ok tt, f w).

(** Reading and writing the fields of the object at address [self]. *)
Definition load (self : nat) : M Connection :=
  fun w =>
    match nth_error (w_heap w) self with
    | Some c => (Ok c, w)
    | None => (Stuck Dangling, w)
    end.

Definition store (self : nat) (f : Connection -> Connection) : M unit :=
  c <- load self ;;
  modify (fun w => with_heap w (list_update (w_heap w) self (f c))).

(** Allocation of a new object. *)
Definition alloc (c : Connection) : M nat :=
  fun w => (Ok (List.length (w_heap w)), with_heap w (w_heap w ++ [c])).

Definition logging (l : log_level) (msg : string) : M unit :=
  modify (emit (EvLog l msg)).

(* ===================================================================== *)
(** ** [int(s)] on a [str] *)

(** A character no decimal literal contains: not a digit, and none of what
    [int] accepts around or between digits (a sign, an underscore, white
    space, a character outside ASCII). *)
Definition foreign_to_int (c : ascii) : bool :=
  let n := nat_of_ascii c in
  match digit c with
  | Some _ => false
  | None =>
      negb (is_char c "+" || is_char c "-" || is_char c "_"
            || (Nat.leb 9 n && Nat.leb n 13) || (Nat.leb 28 n && Nat.leb n 32)
            || Nat.leb 128 n)
  end.

Fixpoint has_foreign_to_int (s : string) : bool :=
  match s with
  | EmptyString => false
  | String c rest => foreign_to_int c || has_foreign_to_int rest
  end.

(** Digits alone give their value; the empty string and a string with a
    character foreign to literals raise ValueError.  Left out: the literals
    with signs, underscores, surrounding white space or digits outside
    ASCII, and those longer than the 4300 digits CPython converts by
    default. *)
Definition int_of_str (s : string) : res Z :=
  match s with
  | EmptyString => Raise ValueError
  | _ =>
      match number s with
      | Some n =>
          if Nat.leb (String.length s) 4300 then Ok (Z.of_nat n)
          else Stuck Unmodelled
      | None => if has_foreign_to_int s then Raise ValueError else Stuck Unmodelled
      end
  end.

(* ===================================================================== *)
(** ** The drivers *)

Section Drivers.
Variable env : Env.

(** [time.time()] *)
Definition time_time : M Z :=
  fun w => (Ok (env_time env (w_trace w)), emit EvTime w).

(** [psycopg2.connect(...)] / [MySQLdb.connect(...)]: a new handle, named by
    the length of the history at the call, or the driver's exception. *)
Definition driver_connect (k : backend) : M nat :=
  fun w =>
    match env_connect env (w_trace w) k with
    | None => (Ok (List.length (w_trace w)), emit (EvConnect k) w)
    | Some e => (Raise e, emit (EvConnect k) w)
    end.

Definition handle_close (h : nat) : M unit := modify (emit (EvClose h)).
Definition handle_rollback (h : nat) : M unit := modify (emit (EvRollback h)).

Definition handle_commit (h : nat) : M unit :=
  fun w =>
    match env_commit env (w_trace w) h with
    | None => (Ok tt, emit (EvCommit h) w)
    | Some e => (Raise e, emit (EvCommit h) w)
    end.

(** [handle.cursor()] *)
Definition handle_cursor (h : nat) : M Cursor :=
  fun w => (Ok {| cur_handle := h; cur_state := fresh_cursor_state |},
            emit (EvCursor h) w).

(** [cursor.execute(query, parameters)] *)
Definition cursor_execute (cur : Cursor) (query : string) (parameters : list value) : M Cursor :=
  fun w =>
    match env_execute env (w_trace w) (cur_handle cur) query parameters with
    | ExecOk st =>
        (Ok {| cur_handle := cur_handle cur; cur_state := st |},
         emit (EvExecute (cur_handle cur) query parameters) w)
    | ExecRaise e =>
        (Raise e, emit (EvExecute (cur_handle cur) query parameters) w)
    end.

Definition cursor_close (cur : Cursor) : M unit :=
  modify (emit (EvCursorClose (cur_handle cur))).

(** [cursor.fetchone()[0]]: the first column of the next row; an empty row
    has no column 0; with no row left [fetchone()] is None, or raises in the
    driver when the statement produced no result set at all. *)
Definition fetchone_0 (cur : Cursor) : M value :=
  match result_rows (cur_state cur) with
  | (v :: _) :: _ => ret v
  | [] :: _ => raise IndexError
  | [] =>
      match description (cur_state cur) with
      | Some _ => raise TypeError
      | None => raise DatabaseError
      end
  end.

End Drivers.

(* ===================================================================== *)
(** ** Rows *)

(** An instance of [Row] or of a subclass: a dict plus its class. *)
Record Row : Type := {
  r_class : string;
  r_items : sdict value
}.

(** [cls(zip(column_names, row))] *)
Definition make_row (cls : string) (column_names : list string) (row : list value) : Row :=
  {| r_class := cls;
     r_items := Dict.of_pairs String.eqb (combine column_names row) |}.

(** The tail shared by both [query] methods:
    [column_names = [d[0] for d in cursor.description]] and the list
    comprehension over the cursor, [cls] being [kwargs.get('cls')]. *)
Definition rows_of_cursor (cur : Cursor) (cls : option string) : M (list Row) :=
  match description (cur_state cur) with
  | None => raise TypeError
  | Some column_names =>
      let c := match cls with Some c => c | None => "Row" end in
      ret (map (make_row c column_names) (result_rows (cur_state cur)))
  end.

(* ===================================================================== *)
(** ** class PostgresConnection *)

Module Pg.
Section WithEnv.
Variable env : Env.

Definition close (self : nat) : M unit :=
  c <- load self ;;
  match c_db c with
  | Some h => handle_close h ;; store self (fun c => with_db c None)
  | None => ret tt
  end.

Definition reconnect (self : nat) : M unit :=
  close self ;;
  h <- driver_connect env Postgres ;;
  store self (fun c => with_db c (Some h)).

Definition default_max_idle_time : Z := 7 * 3600.

(** [__init__] on a freshly allocated object; returns its address. *)
Definition init (hostname : option string) (port : Z) (database : string)
    (username password : option string) (max_idle_time : Z) : M nat :=
  t <- time_time env ;;
  self <- alloc {| c_backend := Postgres; c_host := hostname;
                   c_database := database; c_max_idle_time := max_idle_time;
                   c_db := None; c_last_use_time := t |} ;;
  try_except (reconnect self) (fun _ => true)
    (fun _ => logging LError "Cannot connect to PostgreSQL: %s") ;;
  ret self.

(** [connect(cls, **kwargs)]; [kw] carries the pg_* keywords when 'pg_database' is
    among them. *)
Definition connect
    (kw : option (string * option string * option string * option string * option Z))
    (force : bool) : M nat :=
  let '(database, hostname, username, password, port) :=
    match kw with
    | Some (d, h, u, p, port) =>
        (d, h, u, p, match port with Some n => n | None => 5432 end)
    | None =>
        let o := options env in
        (pg_database o, pg_hostname o, pg_username o, pg_password o, pg_port o)
    end in
  if force then init hostname port database username password default_max_idle_time
  else
    w <- get_world ;;
    let ident := w_ident w in
    (* connections = cls.threads.setdefault(ident, {}) *)
    connections <-
      match tget (w_pg_threads w) ident with
      | Some d => ret d
      | None => modify (fun w => with_pg_threads w (tset (w_pg_threads w) ident [])) ;; ret []
      end ;;
    if negb (smem connections database) then
      conn <- init hostname port database username password default_max_idle_time ;;
      store conn (fun c => with_database c database) ;;
      modify (fun w =>
        with_pg_threads w
          (tset (w_pg_threads w) ident
             (sset (match tget (w_pg_threads w) ident with Some d => d | None => [] end)
                   database conn))) ;;
      ret conn
    else
      match sget connections database with
      | Some conn => ret conn
      | None => raise (KeyError (Some database))
      end.

Definition _ensure_connected (self : nat) : M unit :=
  c <- load self ;;
  idle <-
    match c_db c with
    | None => ret true
    | Some _ => now <- time_time env ;; ret (now - c_last_use_time c >? c_max_idle_time c)
    end ;;
  (if idle then reconnect self else ret tt) ;;
  now <- time_time env ;;
  store self (fun c => with_last_use_time c now).

Definition _cursor (self : nat) : M Cursor :=
  _ensure_connected self ;;
  c <- load self ;;
  match c_db c with
  | Some h => handle_cursor h
  | None => raise (AttributeError "cursor")
  end.

Definition rollback (self : nat) : M unit :=
  c <- load self ;;
  match c_db c with
  | Some h => handle_rollback h
  | None => ret tt
  end.

(** One [try] with two [except] clauses, tried in order.  Returns the cursor
    as [cursor.execute] left it. *)
Definition _execute (self : nat) (cursor : Cursor) (query : string)
    (parameters : list value) : M Cursor :=
  try_except
    (cur <- cursor_execute env cursor query parameters ;;
     c <- load self ;;
     match c_db c with
     | Some h => handle_commit env h ;; ret cur
     | None => raise (AttributeError "commit")
     end)
    is_psycopg2_Error
    (fun e =>
       if is_OperationalError e then
         logging LError "Error connecting to PostgreSQL" ;;
         close self ;; raise e
       else
         logging LError "General Error at PostgreSQL - rollback transaction and carry on!" ;;
         rollback self ;; raise e).

Definition query (self : nat) (query : string) (parameters : list value)
    (cls : option string) : M (list Row) :=
  cursor <- _cursor self ;;
  try_finally
    (cur <- _execute self cursor query parameters ;;
     rows_of_cursor cur cls)
    (cursor_close cursor).

Definition get (self : nat) (q : string) (parameters : list value)
    (cls : option string) : M (option Row) :=
  rows <- query self q parameters cls ;;
  match rows with
  | [] => ret None
  | [row] => ret (Some row)
  | _ :: _ :: _ => raise (PyException "Multiple rows returned for Database.get() query")
  end.

Definition execute_lastrowid (self : nat) (query : string) (parameters : list value) : M value :=
  cursor <- _cursor self ;;
  try_finally
    (cur <- _execute self cursor query parameters ;;
     if rowcount (cur_state cur) >? 0 then fetchone_0 cur
     else ret VNone)
    (cursor_close cursor).

Definition execute_rowcount (self : nat) (query : string) (parameters : list value) : M value :=
  cursor <- _cursor self ;;
  try_finally
    (cur <- _execute self cursor query parameters ;;
     ret (VInt (rowcount (cur_state cur))))
    (cursor_close cursor).

Definition execute (self : nat) (query : string) (parameters : list value) : M value :=
  if String.prefix "INSERT" query then execute_lastrowid self query parameters
  else execute_rowcount self query parameters.

End WithEnv.
End Pg.

(* ===================================================================== *)
(** ** class MysqlConnection *)

Module My.
Section WithEnv.
Variable env : Env.

Definition close (self : nat) : M unit :=
  c <- load self ;;
  match c_db c with
  | Some h => handle_close h ;; store self (fun c => with_db c None)
  | None => ret tt
  end.

Definition _db_init_command : string :=
  "SET time_zone = " ++ dquote ++ "+0:00" ++ dquote.

Definition _execute (self : nat) (cursor : Cursor) (query : string)
    (parameters : list value) : M Cursor :=
  try_except
    (cursor_execute env cursor query parameters)
    is_OperationalError
    (fun e => logging LError "Error connecting to MySQL on %s" ;;
              close self ;; raise e).

(** [reconnect] runs [execute], which goes through [_cursor] back to
    [_ensure_connected]: the methods on that cycle are first written over the
    [_ensure_connected] they call, and the knot is tied below. *)
Section Cycle.
Variable ensure_connected : nat -> M unit.

Definition _cursor_in (self : nat) : M Cursor :=
  ensure_connected self ;;
  c <- load self ;;
  match c_db c with
  | Some h => handle_cursor h
  | None => raise (AttributeError "cursor")
  end.

Definition execute_lastrowid_in (self : nat) (query : string) (parameters : list value) : M value :=
  cursor <- _cursor_in self ;;
  try_finally
    (cur <- _execute self cursor query parameters ;;
     ret (lastrowid (cur_state cur)))
    (cursor_close cursor).

Definition execute_in (self : nat) (query : string) (parameters : list value) : M value :=
  execute_lastrowid_in self query parameters.

Definition reconnect_in (self : nat) : M unit :=
  close self ;;
  h <- driver_connect env Mysql ;;
  store self (fun c => with_db c (Some h)) ;;
  execute_in self _db_init_command [] ;;
  ret tt.

End Cycle.

(** [fuel] bounds how deep reconnections may nest. *)
Fixpoint _ensure_connected (fuel : nat) (self : nat) : M unit :=
  match fuel with
  | O => stuck_with OutOfFuel
  | S fuel' =>
      c <- load self ;;
      idle <-
        match c_db c with
        | None => ret true
        | Some _ => now <- time_time env ;; ret (now - c_last_use_time c >? c_max_idle_time c)
        end ;;
      if idle then
        now <- time_time env ;;
        store self (fun c => with_last_use_time c now) ;;
        reconnect_in (_ensure_connected fuel') self
      else ret tt
  end.

Definition reconnect (fuel : nat) (self : nat) : M unit :=
  reconnect_in (_ensure_connected fuel) self.

Definition _cursor (fuel : nat) (self : nat) : M Cursor :=
  _cursor_in (_ensure_connected fuel) self.

Definition execute_lastrowid (fuel : nat) (self : nat) (query : string)
    (parameters : list value) : M value :=
  execute_lastrowid_in (_ensure_connected fuel) self query parameters.

Definition execute (fuel : nat) (self : nat) (query : string)
    (parameters : list value) : M value :=
  execute_in (_ensure_connected fuel) self query parameters.

Definition execute_rowcount (fuel : nat) (self : nat) (query : string)
    (parameters : list value) : M value :=
  cursor <- _cursor fuel self ;;
  try_finally
    (cur <- _execute self cursor query parameters ;;
     ret (VInt (rowcount (cur_state cur))))
    (cursor_close cursor).

Definition default_max_idle_time : Z := 7 * 3600.

(** What [__init__] makes of [host]: a path to a socket file, or the host
    and port to connect to.  [int(pair[1])] stands outside the [try]: a port
    that is no number ends the constructor with ValueError. *)
Inductive address : Type :=
| UnixSocket (path : string)
| HostPort (host : string) (port : Z).

Definition address_of (host : string) : res address :=
  if has_char "/" host then Ok (UnixSocket host)
  else
    match split ":" host with
    | [h; p] =>
        match int_of_str p with
        | Ok port => Ok (HostPort h port)
        | Raise e => Raise e
        | Stuck x => Stuck x
        end
    | _ => Ok (HostPort host 3306)
    end.

(** [__init__]; returns the address of the new object, which is put on the
    heap once the arguments of the driver are complete (an object whose
    constructor raised is never seen). *)
Definition init (fuel : nat) (host database : string) (user password : option string)
    (max_idle_time : Z) : M nat :=
  lift (address_of host) ;;
  t <- time_time env ;;
  self <- alloc {| c_backend := Mysql; c_host := Some host;
                   c_database := database; c_max_idle_time := max_idle_time;
                   c_db := None; c_last_use_time := t |} ;;
  try_except (reconnect fuel self) (fun _ => true)
    (fun _ => logging LError "Cannot connect to MySQL on %s") ;;
  ret self.

(** [connect(cls, **kwargs)]; [kw] carries the mysql_* keywords when
    'mysql_schema' is among them.  [conn.schema = schema] sets an attribute
    that nothing in the module reads. *)
Definition connect (fuel : nat)
    (kw : option (string * string * option string * option string))
    (force : bool) : M nat :=
  let '(host, schema, user, passwd) :=
    match kw with
    | Some a => a
    | None =>
        let o := options env in
        (mysql_host o, mysql_schema o, mysql_user o, mysql_password o)
    end in
  if force then init fuel host schema user passwd default_max_idle_time
  else
    w <- get_world ;;
    let ident := w_ident w in
    let target := schema ++ "@" ++ host in
    connections <-
      match tget (w_my_threads w) ident with
      | Some d => ret d
      | None => modify (fun w => with_my_threads w (tset (w_my_threads w) ident [])) ;; ret []
      end ;;
    if negb (smem connections target) then
      conn <- init fuel host schema user passwd default_max_idle_time ;;
      execute fuel conn "SET NAMES utf8mb4 COLLATE utf8mb4_unicode_ci" [] ;;
      modify (fun w =>
        with_my_threads w
          (tset (w_my_threads w) ident
             (sset (match tget (w_my_threads w) ident with Some d => d | None => [] end)
                   target conn))) ;;
      ret conn
    else
      match sget connections target with
      | Some conn => ret conn
      | None => raise (KeyError (Some target))
      end.

Definition query (fuel : nat) (self : nat) (query : string) (parameters : list value)
    (cls : option string) : M (list Row) :=
  cursor <- _cursor fuel self ;;
  try_finally
    (cur <- _execute self cursor query parameters ;;
     rows_of_cursor cur cls)
    (cursor_close cursor).

(** [self.query] is called without the keywords; a non-empty single row is
    rebuilt as [kwargs['cls'](row)]. *)
Definition get (fuel : nat) (self : nat) (q : string) (parameters : list value)
    (cls : option string) : M (option Row) :=
  rows <- query fuel self q parameters None ;;
  match rows with
  | [] => ret None
  | [row] =>
      match r_items row, cls with
      | _ :: _, Some c => ret (Some {| r_class := c; r_items := r_items row |})
      | _, _ => ret (Some row)
      end
  | _ :: _ :: _ => raise (PyException "Multiple rows returned for Database.get() query")
  end.

End WithEnv.
End My.

(* ===================================================================== *)
(** ** The registry: [db] *)

Section Registry.
Variable env : Env.

(** [dbconns.databases] of the calling thread. *)
Definition databases : M (sdict nat) :=
  w <- get_world ;;
  match tget (w_dbconns w) (w_ident w) with
  | Some d => ret d
  | None => raise (AttributeError "databases")
  end.

(** [dbconns.databases[k] = conn] *)
Definition databases_set (k : string) (conn : nat) : M unit :=
  d <- databases ;;
  modify (fun w => with_dbconns w (tset (w_dbconns w) (w_ident w) (sset d k conn))).

(** [not use_schema], for [None] or a [str] *)
Definition not_schema (use_schema : option string) : bool :=
  match use_schema with
  | None => true
  | Some s => String.eqb s EmptyString
  end.

(** [db] is four statements in a row; each gets a name.

    [if not hasattr(dbconns, 'databases'): dbconns.databases = {}] *)
Definition db_init : M unit :=
  w <- get_world ;;
  match tget (w_dbconns w) (w_ident w) with
  | Some _ => ret tt
  | None => modify (fun w => with_dbconns w (tset (w_dbconns w) (w_ident w) []))
  end.

(** [if pgsql_available and options.pg_database not in dbconns.databases: ...]
    returns the new value of [use_schema]. *)
Definition db_postgres (use_schema : option string) : M (option string) :=
  d <- databases ;;
  if pgsql_available env && negb (smem d (pg_database (options env))) then
    conn <- Pg.connect env None false ;;
    databases_set (pg_database (options env)) conn ;;
    ret (Some (pg_database (options env)))
  else ret use_schema.

(** [if mysql_available and options.mysql_schema not in dbconns.databases: ...] *)
Definition db_mysql (fuel : nat) (use_schema : option string) : M (option string) :=
  d <- databases ;;
  if mysql_available env && negb (smem d (mysql_schema (options env))) then
    conn <- My.connect env fuel None false ;;
    databases_set (mysql_schema (options env)) conn ;;
    ret (Some (mysql_schema (options env)))
  else ret use_schema.

(** The "Default situation" statement: the new value of [use_schema]. *)
Definition default_schema (use_schema : option string) (d : sdict nat) : option string :=
  if not_schema use_schema && Nat.eqb (Dict.len d) 1 then
    match Dict.keys d with
    | k :: _ => Some k
    | [] => use_schema
    end
  else use_schema.

(** [return dbconns.databases[use_schema]] after the default was applied *)
Definition db_lookup (use_schema : option string) : M nat :=
  d <- databases ;;
  match default_schema use_schema d with
  | None => raise (KeyError None)
  | Some k =>
      match sget d k with
      | Some conn => ret conn
      | None => raise (KeyError (Some k))
      end
  end.

Definition db (fuel : nat) (use_schema : option string) : M nat :=
  db_init ;;
  use_schema <- db_postgres use_schema ;;
  use_schema <- db_mysql fuel use_schema ;;
  db_lookup use_schema.

(** Method calls on whatever [db()] returned dispatch on the object's class. *)
Definition conn_execute (fuel : nat) (conn : nat) (query : string)
    (parameters : list value) : M value :=
  c <- load conn ;;
  match c_backend c with
  | Postgres => Pg.execute env conn query parameters
  | Mysql => My.execute env fuel conn query parameters
  end.

Definition conn_execute_rowcount (fuel : nat) (conn : nat) (query : string)
    (parameters : list value) : M value :=
  c <- load conn ;;
  match c_backend c with
  | Postgres => Pg.execute_rowcount env conn query parameters
  | Mysql => My.execute_rowcount env fuel conn query parameters
  end.

Definition conn_query (fuel : nat) (conn : nat) (query : string)
    (parameters : list value) (cls : option string) : M (list Row) :=
  c <- load conn ;;
  match c_backend c with
  | Postgres => Pg.query env conn query parameters cls
  | Mysql => My.query env fuel conn query parameters cls
  end.

Definition conn_get (fuel : nat) (conn : nat) (query : string)
    (parameters : list value) (cls : option string) : M (option Row) :=
  c <- load conn ;;
  match c_backend c with
  | Postgres => Pg.get env conn query parameters cls
  | Mysql => My.get env fuel conn query parameters cls
  end.

Definition dbnow (fuel : nat) (use_schema : option string) : M (option Row) :=
  conn <- db fuel use_schema ;;
  conn_get fuel conn "SELECT NOW()" [] None.

End Registry.

(* ===================================================================== *)
(** ** %-formatting with a mapping: [template % {...}] *)

(** Only [%(name)s] and [%%] are interpreted; another conversion is
    [Unmodelled].  A name runs to the parenthesis that closes the one after
    the [%], parentheses inside it being counted.  A template that ends
    inside a conversion raises ValueError, a name missing from the mapping
    KeyError. *)
Inductive fmt_state : Type :=
| Plain
| AfterPercent
| InKey (depth : nat) (acc : string)
| AfterKey (k : string).

Definition res_app (s : string) (r : res string) : res string :=
  match r with
  | Ok t => Ok (s ++ t)
  | Raise e => Raise e
  | Stuck x => Stuck x
  end.

Fixpoint format_from (st : fmt_state) (template : string) (d : sdict string) : res string :=
  match template with
  | EmptyString =>
      match st with
      | Plain => Ok EmptyString
      | _ => Raise ValueError
      end
  | String c rest =>
      match st with
      | Plain =>
          if is_char c "%" then format_from AfterPercent rest d
          else res_app (String c EmptyString) (format_from Plain rest d)
      | AfterPercent =>
          if is_char c "%" then res_app "%" (format_from Plain rest d)
          else if is_char c "(" then format_from (InKey 0 EmptyString) rest d
          else Stuck Unmodelled
      | InKey depth acc =>
          if is_char c ")" then
            match depth with
            | O => format_from (AfterKey acc) rest d
            | S depth' => format_from (InKey depth' (acc ++ String c EmptyString)) rest d
            end
          else if is_char c "(" then
            format_from (InKey (S depth) (acc ++ String c EmptyString)) rest d
          else format_from (InKey depth (acc ++ String c EmptyString)) rest d
      | AfterKey k =>
          if is_char c "s" then
            match sget d k with
            | Some v => res_app v (format_from Plain rest d)
            | None => Raise (KeyError (Some k))
            end
          else Stuck Unmodelled
      end
  end.

Definition format_named (template : string) (d : sdict string) : res string :=
  format_from Plain template d.

(** [int(v)]: an int is itself, None is a TypeError, a [str] is parsed. *)
Definition py_int (v : value) : res Z :=
  match v with
  | VInt z => Ok z
  | VNone => Raise TypeError
  | VStr p => int_of_str (text p)
  end.

(* ===================================================================== *)
(** ** class Row(dict) and the mini-ORM *)

(** A subclass of [Row] that defines the class attributes the ORM reads. *)
Record RowClass : Type := {
  class_name : string;
  table_name : string;
  id_column : string
}.

(** What [row.name] can evaluate to: a column's value through
    [__getattr__], or an attribute found on the class by normal lookup. *)
Inductive attr : Type :=
| Column (v : value)
| ClassAttribute (name : string).

Module Row.

(** [self[name]] *)
Definition getitem (self : Row) (name : string) : res value :=
  match sget (r_items self) name with
  | Some v => Ok v
  | None => Raise (KeyError (Some name))
  end.

Definition __getattr__ (self : Row) (name : string) : res value :=
  match getitem self name with
  | Raise (KeyError _) => Raise (AttributeError name)
  | r => r
  end.

(** The names the class statement of [Row] puts in the class: those of its
    body, and the ones every class statement adds. *)
Definition body_attributes : list string :=
  ["__module__"; "__doc__"; "__dict__"; "__weakref__";
   "__getattr__"; "logw"; "scan_id"; "map_items"; "map_id"; "get_id";
   "kva_split"; "insert_columns"; "update_columns"].

(** The names of the bases, [dict] and [object].  They are the
    interpreter's: this is the list of CPython 3.11. *)
Definition dict_attributes : list string :=
  ["__class_getitem__"; "__contains__"; "__delitem__"; "__getitem__"; "__ior__";
   "__iter__"; "__len__"; "__or__"; "__reversed__"; "__ror__"; "__setitem__";
   "clear"; "copy"; "fromkeys"; "get"; "items"; "keys"; "pop"; "popitem";
   "setdefault"; "update"; "values"].

Definition object_attributes : list string :=
  ["__class__"; "__delattr__"; "__dir__"; "__eq__"; "__format__"; "__ge__";
   "__getattribute__"; "__getstate__"; "__gt__"; "__hash__"; "__init__";
   "__init_subclass__"; "__le__"; "__lt__"; "__ne__"; "__new__"; "__reduce__";
   "__reduce_ex__"; "__repr__"; "__setattr__"; "__sizeof__"; "__str__";
   "__subclasshook__"].

(** The names normal lookup finds on an instance of [Row]. *)
Definition attributes : list string :=
  (body_attributes ++ dict_attributes ++ object_attributes)%list.

(** [self.name]: Python calls [__getattr__] only after normal lookup, here
    the names [class_attrs] found on the class and its bases, has failed. *)
Definition getattr (class_attrs : list string) (self : Row) (name : string) : res attr :=
  if existsb (String.eqb name) class_attrs then Ok (ClassAttribute name)
  else
    match __getattr__ self name with
    | Ok v => Ok (Column v)
    | Raise e => Raise e
    | Stuck x => Stuck x
    end.

(** One iteration of the loop of [kva_split]. *)
Definition kva_step (acc : list string * list pystr * list value)
    (item : string * value) : list string * list pystr * list value :=
  let '(keys, values, args) := acc in
  let '(key, value) := item in
  match value with
  | VStr (Literal l) => ((keys ++ [key])%list, (values ++ [Literal l])%list, args)
  | _ => ((keys ++ [key])%list, (values ++ [Str "%s"])%list, (args ++ [value])%list)
  end.

Definition kva_split (columns : sdict value) : list string * list pystr * list value :=
  fold_left kva_step (Dict.items columns) ([], [], []).

(** [[(item[key], item) for item in items]]: the first item without the key
    raises KeyError. *)
Fixpoint keyed (items : list Row) (key : string) : res (list (value * Row)) :=
  match items with
  | [] => Ok []
  | item :: rest =>
      match getitem item key with
      | Ok k =>
          match keyed rest key with
          | Ok l => Ok ((k, item) :: l)
          | Raise e => Raise e
          | Stuck x => Stuck x
          end
      | Raise e => Raise e
      | Stuck x => Stuck x
      end
  end.

(** [map_items(cls, items, key)]: the dict [cls(pairs)], from a column's
    value to the row. *)
Definition map_items (items : list Row) (key : string) : res (list (value * Row)) :=
  match keyed items key with
  | Ok pairs => Ok (Dict.of_pairs value_eqb pairs)
  | Raise e => Raise e
  | Stuck x => Stuck x
  end.

(** ['SELECT * FROM %s WHERE %s=%%s' % (table, column)] *)
Definition select_where (table column : string) : string :=
  "SELECT * FROM " ++ table ++ " WHERE " ++ column ++ "=%s".

Definition default_sql_txt : string :=
  "INSERT INTO %(db_table)s (%(keys)s) VALUES (%(values)s)".

(** ['%s=%s' % (key, value) for key, value in zip(keys, values)] *)
Definition assignments (keys : list string) (values : list pystr) : list string :=
  map (fun kv => fst kv ++ "=" ++ text (snd kv)) (combine keys values).

Section WithEnv.
Variable env : Env.

(** [aegis.stdlib.logw(use_db, "USE DB")]: the helper lies outside the
    module; it is taken to log and return. *)
Definition stdlib_logw (msg : string) : M unit := logging LWarning msg.

Definition insert_columns (fuel : nat) (cls : RowClass) (sql_txt : string)
    (columns : sdict value) : M value :=
  let db_table := table_name cls in
  let '(keys, values, args) := kva_split columns in
  use_db <- db env fuel None ;;
  stdlib_logw "USE DB" ;;
  c <- load use_db ;;
  let sql_txt :=
    match c_backend c with
    | Postgres => sql_txt ++ " RETURNING " ++ id_column cls
    | Mysql => sql_txt
    end in
  sql <- lift (format_named sql_txt
                 [("db_table", db_table);
                  ("keys", String.concat ", " keys);
                  ("values", str_join ", " values)]) ;;
  conn_execute env fuel use_db sql args.

Definition update_columns (fuel : nat) (cls : RowClass)
    (columns where_ : sdict value) : M value :=
  match columns with
  | [] => logging LDebug "Nothing to update. Skipping query" ;; ret VNone
  | _ :: _ =>
      let db_table := table_name cls in
      (* SET clause *)
      let '(keys, values, args) := kva_split columns in
      let set_clause := String.concat ", " (assignments keys values) in
      (* WHERE clause *)
      let '(keys, values, args2) := kva_split where_ in
      let args := (args ++ args2)%list in
      let where_clause := String.concat " AND " (assignments keys values) in
      (* SQL statement *)
      let sql := "UPDATE " ++ db_table ++ " SET " ++ set_clause ++ " WHERE " ++ where_clause in
      use_db <- db env fuel None ;;
      conn_execute_rowcount env fuel use_db sql args
  end.

(** [logging.warning("%s: %s %s", msg, value, row_id)] *)
Definition logw (msg : string) : M unit := logging LWarning msg.

Definition scan_id (fuel : nat) (cls : RowClass) (column : string) (row_id : value)
    : M (list Row) :=
  let sql := select_where (table_name cls) column in
  use_db <- db env fuel None ;;
  conn_query env fuel use_db sql [row_id] (Some (class_name cls)).

(** With [debug] the scan runs a second time, for the log. *)
Definition map_id (fuel : nat) (cls : RowClass) (row_id : value)
    (where_col key_col : string) (debug : bool) : M (list (value * Row)) :=
  rows <- scan_id fuel cls where_col row_id ;;
  items <- lift (map_items rows key_col) ;;
  (if debug then
     logw "WHERE" ;;
     logging LWarning EmptyString ;;
     scan_id fuel cls where_col row_id ;;
     logw "SCAN" ;;
     logging LWarning EmptyString ;;
     logw "ITEMS"
   else ret tt) ;;
  ret items.

Definition get_id (fuel : nat) (cls : RowClass) (column_id_val member_id : value)
    : M (option Row) :=
  if falsy column_id_val then ret None
  else
    id <- lift (py_int column_id_val) ;;
    member <-
      (if falsy member_id then ret None
       else m <- lift (py_int member_id) ;; ret (Some m)) ;;
    let sql :=
      match member with
      | Some _ => select_where (table_name cls) (id_column cls) ++ " AND member_id=%s"
      | None => select_where (table_name cls) (id_column cls)
      end in
    let args :=
      match member with
      | Some m => [VInt id; VInt m]
      | None => [VInt id]
      end in
    use_db <- db env fuel None ;;
    conn_get env fuel use_db sql args (Some (class_name cls)).

End WithEnv.
End Row.

(* ===================================================================== *)
(** ** class SqlDiff(Row): the migration ledger *)

Module SqlDiff.

Definition cls : RowClass :=
  {| class_name := "SqlDiff"; table_name := "sql_diff"; id_column := "sql_diff_id" |}.

Definition scan_unapplied_sql : string :=
  "SELECT * FROM sql_diff WHERE applied_dttm IS NULL ORDER BY SUBSTRING(sql_diff_name from 5 for 3) ASC".

Definition scan_unapplied (env : Env) (fuel : nat) : M (list Row) :=
  use_db <- db env fuel None ;;
  conn_query env fuel use_db scan_unapplied_sql [] (Some (class_name cls)).

Definition newline : string := String (ascii_of_nat 10) EmptyString.

Definition sql_diff_table : string :=
  newline ++
  "            CREATE TABLE IF NOT EXISTS" ++ newline ++
  "            sql_diff (" ++ newline ++
  "              sql_diff_id SERIAL NOT NULL," ++ newline ++
  "              sql_diff_name VARCHAR(80) NOT NULL," ++ newline ++
  "              create_dttm TIMESTAMP NOT NULL DEFAULT CURRENT_TIMESTAMP," ++ newline ++
  "              applied_dttm TIMESTAMP DEFAULT NULL," ++ newline ++
  "              PRIMARY KEY (sql_diff_name)" ++ newline ++
  "            )".

Definition create_table (env : Env) (fuel : nat) : M value :=
  use_db <- db env fuel None ;;
  conn_execute env fuel use_db sql_diff_table [].

Definition insert_sql : string :=
  "INSERT INTO sql_diff (sql_diff_name) VALUES (%s) RETURNING sql_diff_id".

Definition insert (env : Env) (fuel : nat) (sql_diff_name : string) : M value :=
  use_db <- db env fuel None ;;
  conn_execute env fuel use_db insert_sql [VStr (Str sql_diff_name)].

Definition scan (env : Env) (fuel : nat) : M (list Row) :=
  use_db <- db env fuel None ;;
  conn_query env fuel use_db "SELECT * FROM sql_diff" [] (Some (class_name cls)).

Definition mark_applied_sql : string :=
  "UPDATE sql_diff SET applied_dttm=NOW() WHERE sql_diff_name=%s".

Definition mark_applied (env : Env) (fuel : nat) (sql_diff_name : string) : M value :=
  use_db <- db env fuel None ;;
  conn_execute env fuel use_db mark_applied_sql [VStr (Str sql_diff_name)].

(** [row.sql_diff_name] of a fetched row *)
Definition name_of (r : Row) : option string :=
  match sget (r_items r) "sql_diff_name" with
  | Some (VStr p) => Some (text p)
  | _ => None
  end.

End SqlDiff.

(* ===================================================================== *)
(** ** The server's side: the SQL of the ledger listings

    [scan] and [scan_unapplied] hand a text to the driver and return the rows
    in the order the cursor yields them; which rows, and in which order, the
    server decides from that text.  This section gives the meaning of the
    statements of the form

      SELECT * FROM t [WHERE c IS NULL]
                      [ORDER BY SUBSTRING(c from n for m) [ASC|DESC]]

    on the table [create_table] declares.  A statement outside this form, on
    another table or on a column the reading below does not resolve, is left
    open.  A [string] holds the UTF-8 encoding of a text (MysqlConnection
    asks for utf8mb4; psycopg2 encodes in the client encoding), and the
    order of texts is the server's collation, a parameter: the MySQL
    connection selects utf8mb4_unicode_ci, PostgreSQL takes the database's. *)

Module Sql.

(** *** Reading the statement *)

Inductive direction : Type := Asc | Desc.

Record select : Type := {
  from_table : string;
  where_null : option string;                       (* WHERE c IS NULL *)
  order_by : option (string * nat * nat * direction)
    (* ORDER BY SUBSTRING(c from n for m) ASC|DESC *)
}.

Definition is_space (c : ascii) : bool :=
  let n := nat_of_ascii c in
  (Nat.eqb n 32 || Nat.eqb n 9 || Nat.eqb n 10 || Nat.eqb n 13)%bool.

Definition flush (word : string) : list string :=
  match word with
  | EmptyString => []
  | _ => [word]
  end.

(** Words are separated by white space; a parenthesis is a word of its own. *)
Fixpoint tokens_from (word : string) (s : string) : list string :=
  match s with
  | EmptyString => flush word
  | String c rest =>
      if is_space c then (flush word ++ tokens_from EmptyString rest)%list
      else if (is_char c "(" || is_char c ")")%bool then
        (flush word ++ String c EmptyString :: tokens_from EmptyString rest)%list
      else tokens_from (word ++ String c EmptyString) rest
  end.

Definition tokens (s : string) : list string := tokens_from EmptyString s.

Definition upper_ascii (c : ascii) : ascii :=
  let n := nat_of_ascii c in
  if (Nat.leb 97 n && Nat.leb n 122)%bool then ascii_of_nat (n - 32) else c.

Fixpoint upper (s : string) : string :=
  match s with
  | EmptyString => EmptyString
  | String c rest => String (upper_ascii c) (upper rest)
  end.

(** Key words are recognised in either case. *)
Definition kw (word keyword : string) : bool := String.eqb (upper word) keyword.

Definition parse_direction (ts : list string) : option direction :=
  match ts with
  | [] => Some Asc
  | [d] => if kw d "ASC" then Some Asc else if kw d "DESC" then Some Desc else None
  | _ => None
  end.

Definition parse_order (ts : list string)
    : option (option (string * nat * nat * direction)) :=
  match ts with
  | [] => Some None
  | o :: b :: s :: lp :: c :: f :: n :: fo :: m :: rp :: rest =>
      if (kw o "ORDER" && kw b "BY" && kw s "SUBSTRING" && String.eqb lp "("
          && kw f "FROM" && kw fo "FOR" && String.eqb rp ")")%bool then
        match number n, number m, parse_direction rest with
        | Some n, Some m, Some d =>
            (* a start before the first character is read differently by the
               two servers *)
            if Nat.leb 1 n then Some (Some (c, n, m, d)) else None
        | _, _, _ => None
        end
      else None
  | _ => None
  end.

Definition parse (q : string) : option select :=
  match tokens q with
  | s :: star :: f :: t :: rest =>
      if (kw s "SELECT" && String.eqb star "*" && kw f "FROM")%bool then
        let '(wn, rest) :=
          match rest with
          | w :: c :: i :: n :: rest' =>
              if (kw w "WHERE" && kw i "IS" && kw n "NULL")%bool
              then (Some c, rest') else (None, rest)
          | _ => (None, rest)
          end in
        match parse_order rest with
        | Some ob => Some {| from_table := t; where_null := wn; order_by := ob |}
        | None => None
        end
      else None
  | _ => None
  end.

(** *** The table [sql_diff], as [SqlDiff.sql_diff_table] declares it *)

Record entry : Type := {
  sql_diff_id : Z;
  sql_diff_name : string;
  create_dttm : Z;
  applied_dttm : option Z              (* DEFAULT NULL *)
}.

Definition columns : list string :=
  ["sql_diff_id"; "sql_diff_name"; "create_dttm"; "applied_dttm"].

(** A row of [SELECT *], as the driver hands it over. *)
Definition row (e : entry) : list value :=
  [VInt (sql_diff_id e); VStr (Str (sql_diff_name e)); VInt (create_dttm e);
   match applied_dttm e with Some t => VInt t | None => VNone end].

(** [c IS NULL]; the columns declared NOT NULL never are. *)
Definition is_null (c : string) : option (entry -> bool) :=
  if String.eqb c "applied_dttm" then
    Some (fun e => match applied_dttm e with None => true | Some _ => false end)
  else if existsb (String.eqb c) ["sql_diff_id"; "sql_diff_name"; "create_dttm"] then
    Some (fun _ => false)
  else None.

(** The text columns. *)
Definition text_column (c : string) : option (entry -> string) :=
  if String.eqb c "sql_diff_name" then Some sql_diff_name else None.

(** *** Characters *)

(** A byte [10xxxxxx] continues the character before it. *)
Definition is_continuation (c : ascii) : bool :=
  let n := nat_of_ascii c in (Nat.leb 128 n && Nat.ltb n 192)%bool.

(** The characters of a text, each with its bytes. *)
Fixpoint chars (s : string) : list string :=
  match s with
  | EmptyString => []
  | String c rest =>
      let l := chars rest in
      match rest with
      | String c' _ =>
          if is_continuation c' then
            match l with
            | h :: t => String c h :: t
            | [] => [String c EmptyString]
            end
          else String c EmptyString :: l
      | EmptyString => String c EmptyString :: l
      end
  end.

(** [SUBSTRING(s from n for m)], [n >= 1]: the characters at positions
    [n .. n+m-1], counted from 1, as far as [s] has them. *)
Definition substring_from_for (n m : nat) (s : string) : string :=
  String.concat EmptyString (firstn m (skipn (n - 1) (chars s))).

(** *** What the server may answer *)

Section Collation.
(** [collate a b]: [a] sorts before [b], or with it. *)
Variable collate : string -> string -> bool.

Definition in_direction (d : direction) (a b : string) : bool :=
  match d with
  | Asc => collate a b
  | Desc => collate b a
  end.

(** The rows a statement keeps, and the order it asks for. *)
Record plan : Type := {
  keep : entry -> bool;
  sort_le : option (entry -> entry -> bool)
}.

Definition plan_of (sel : select) : option plan :=
  if String.eqb (from_table sel) "sql_diff" then
    match
      match where_null sel with
      | None => Some (fun _ : entry => true)
      | Some c => is_null c
      end
    with
    | None => None
    | Some kept =>
        match order_by sel with
        | None => Some {| keep := kept; sort_le := None |}
        | Some (c, n, m, d) =>
            match text_column c with
            | None => None
            | Some f =>
                Some {| keep := kept;
                        sort_le := Some (fun a b =>
                          in_direction d (substring_from_for n m (f a))
                                         (substring_from_for n m (f b))) |}
            end
        end
    end
  else None.



(** *** A server *)

Fixpoint insert_sorted {A} (le : A -> A -> bool) (x : A) (l : list A) : list A :=
  match l with
  | [] => [x]
  | y :: l' => if le x y then x :: l else y :: insert_sorted le x l'
  end.

Definition sort {A} (le : A -> A -> bool) (l : list A) : list A :=
  fold_right (insert_sorted le) [] l.

Definition listing (table : list entry) (p : plan) : list entry :=
  let kept := filter (keep p) table in
  match sort_le p with
  | Some le => sort le kept
  | None => kept
  end.

(** One server among those [serves] admits: it sorts stably, and refuses
    what it cannot read. *)
Definition run (table : list entry) (q : string) : exec_outcome :=
  match parse q with
  | Some sel =>
      match plan_of sel with
      | Some p =>
          let l := listing table p in
          ExecOk {| rowcount := Z.of_nat (List.length l);
                    lastrowid := VInt 0;
                    description := Some columns;
                    result_rows := map row l |}
      | None => ExecRaise DatabaseError
      end
  | None => ExecRaise DatabaseError
  end.

End Collation.



End Sql.

(* ===================================================================== *)
(** ** Vocabulary of the specification *)

(** The fragment a value contributes, and whether it is bound. *)
Definition fragment_of (v : value) : pystr :=
  match v with
  | VStr (Literal l) => Literal l
  | _ => Str "%s"
  end.

Definition is_bound (v : value) : bool := negb (isinstance_Literal v).

(** A fragment that came from the placeholder branch: the plain [str] '%s'
    (a [Literal] keeps its class in the list). *)
Definition is_placeholder (p : pystr) : bool :=
  match p with
  | Str s => String.eqb s "%s"
  | Literal _ => false
  end.



(** The statement [q] ran on connection [conn]: the cursor was acquired and
    [_execute] returned, leaving the cursor as [cur]. *)
Definition statement_ran (env : Env) (fuel : nat) (conn : nat) (q : string)
    (params : list value) (w : World) (cursor cur : Cursor) (w' : World) : Prop :=
  exists c w1,
    nth_error (w_heap w) conn = Some c /\
    match c_backend c with
    | Postgres =>
        Pg._cursor env conn w = (Ok cursor, w1) /\
        Pg._execute env conn cursor q params w1 = (Ok cur, w')
    | Mysql =>
        My._cursor env fuel conn w = (Ok cursor, w1) /\
        My._execute env conn cursor q params w1 = (Ok cur, w')
    end.


(** No [%] in the string. *)
Fixpoint percent_free (s : string) : bool :=
  match s with
  | EmptyString => true
  | String c rest => negb (is_char c "%") && percent_free rest
  end.

(** The statement [insert_columns] composes from its default template,
    before any RETURNING clause. *)
Definition insert_statement (cls : RowClass) (columns : sdict value) : string :=
  let '(keys, values, _) := Row.kva_split columns in
  "INSERT INTO " ++ table_name cls ++ " (" ++ String.concat ", " keys
    ++ ") VALUES (" ++ str_join ", " values ++ ")".

(** The values [insert_columns] binds. *)
Definition insert_arguments (columns : sdict value) : list value :=
  snd (Row.kva_split columns).

(** The clause added for a connection of class [k]. *)
Definition returning_clause (k : backend) (cls : RowClass) : string :=
  match k with
  | Postgres => " RETURNING " ++ id_column cls
  | Mysql => EmptyString
  end.

(** What both [get] methods raise on more than one row. *)
Definition multiple_rows : exn :=
  PyException "Multiple rows returned for Database.get() query".

(* ===================================================================== *)
(** ** Concrete scenarios *)

Module Scenario.

Definition opts : Options :=
  {| pg_database := "alpha"; pg_hostname := Some "localhost";
     pg_username := None; pg_password := None; pg_port := 5432;
     mysql_host := "localhost"; mysql_schema := "beta";
     mysql_user := None; mysql_password := None |}.

(** Both drivers imported; the clock stands at [t]; connecting and committing
    succeed; the server answers every statement with [st]. *)
Definition steady (t : Z) (st : cursor_state) : Env :=
  {| pgsql_available := true; mysql_available := true; options := opts;
     env_time := fun _ => t;
     env_connect := fun _ _ => None;
     env_execute := fun _ _ _ _ => ExecOk st;
     env_commit := fun _ _ => None |}.

(** The same with only the drivers [pg], [my] imported. *)
Definition steady_with (pg my : bool) (t : Z) (st : cursor_state) : Env :=
  {| pgsql_available := pg; mysql_available := my; options := opts;
     env_time := fun _ => t;
     env_connect := fun _ _ => None;
     env_execute := fun _ _ _ _ => ExecOk st;
     env_commit := fun _ _ => None |}.

(** Like [steady], but the server refuses every statement with [e]. *)
Definition refusing (e : exn) : Env :=
  {| pgsql_available := true; mysql_available := true; options := opts;
     env_time := fun _ => 100;
     env_connect := fun _ _ => None;
     env_execute := fun _ _ _ _ => ExecRaise e;
     env_commit := fun _ _ => None |}.

(** Like [steady], but the driver cannot connect. *)
Definition unreachable : Env :=
  {| pgsql_available := true; mysql_available := true; options := opts;
     env_time := fun _ => 100;
     env_connect := fun _ _ => Some OperationalError;
     env_execute := fun _ _ _ _ => ExecRaise OperationalError;
     env_commit := fun _ _ => None |}.

(** A thread that has not touched the registry yet. *)
Definition blank : World :=
  {| w_trace := []; w_heap := []; w_ident := 1%nat;
     w_dbconns := []; w_pg_threads := []; w_my_threads := [] |}.

(** One connection object of class [k] at address 0, connected on handle 0,
    last used at [last_use], with the default idle timeout. *)
Definition connected (k : backend) (last_use : Z) : World :=
  {| w_trace := [];
     w_heap := [{| c_backend := k; c_host := Some "localhost";
                   c_database := "alpha"; c_max_idle_time := 7 * 3600;
                   c_db := Some 0%nat; c_last_use_time := last_use |}];
     w_ident := 1%nat;
     w_dbconns := []; w_pg_threads := []; w_my_threads := [] |}.

(** The thread's state after its first [db()] in [env]. *)
Definition after_first_db (env : Env) : World := snd (db env 3 None blank).

(** An INSERT ... RETURNING that produced identifier 42. *)
Definition inserted_42 : cursor_state :=
  {| rowcount := 1; lastrowid := VInt 0;
     description := Some ["sql_diff_id"]; result_rows := [[VInt 42]] |}.

(** A statement that affected no row. *)
Definition nothing_affected : cursor_state :=
  {| rowcount := 0; lastrowid := VInt 0; description := None; result_rows := [] |}.

(** An UPDATE that changed three rows (no identifier generated). *)
Definition updated_3 : cursor_state :=
  {| rowcount := 3; lastrowid := VInt 0; description := None; result_rows := [] |}.

(** A MySQL INSERT whose generated identifier is 17. *)
Definition my_inserted_17 : cursor_state :=
  {| rowcount := 1; lastrowid := VInt 17; description := None; result_rows := [] |}.

(** A SELECT that found [n] rows of one column. *)
Definition selected (n : nat) : cursor_state :=
  {| rowcount := Z.of_nat n; lastrowid := VInt 0;
     description := Some ["sql_diff_name"];
     result_rows := repeat [VStr (Str "diff001_init")] n |}.

Definition insert_sql : string :=
  "INSERT INTO sql_diff (sql_diff_name) VALUES (%s) RETURNING sql_diff_id".
Definition update_sql : string :=
  "UPDATE sql_diff SET applied_dttm=NOW() WHERE sql_diff_name=%s".
Definition select_sql : string :=
  "SELECT * FROM sql_diff WHERE sql_diff_name=%s".
Definition a_name : list value := [VStr (Str "diff001_init")].

(** A changeset with one bound value and one raw literal. *)
Definition a_changeset : sdict value :=
  [("sql_diff_name", VStr (Str "diff001_init"));
   ("create_dttm", VStr (Literal "NOW()"))].

(** An unapplied ledger entry called [name]. *)
Definition unapplied (id : Z) (name : string) : Sql.entry :=
  {| Sql.sql_diff_id := id; Sql.sql_diff_name := name;
     Sql.create_dttm := 0; Sql.applied_dttm := None |}.


(** A ledger named the way the substring expects: [diffNNN_...]. *)
Definition diff_ledger : list Sql.entry :=
  [unapplied 1 "diff010_a";
   {| Sql.sql_diff_id := 2; Sql.sql_diff_name := "diff001_x";
      Sql.create_dttm := 0; Sql.applied_dttm := Some 5 |};
   unapplied 3 "diff005_b"; unapplied 4 "diff020_c"].

(** Only psycopg2 imported; the server holds [table], collates by code
    point and answers as [Sql.run]. *)
Definition ledger_env (table : list Sql.entry) : Env :=
  {| pgsql_available := true; mysql_available := false; options := opts;
     env_time := fun _ => 100;
     env_connect := fun _ _ => None;
     env_execute := fun _ _ q _ => Sql.run String.leb table q;
     env_commit := fun _ _ => None |}.

End Scenario.

(* ===================================================================== *)
(** ** What a step of the module may change *)

(** From [w] to [w'] by the code of a connection: the thread and its
    [dbconns] are as before, the history is extended, objects stay where they
    are and keep their class, and the class-level [threads] dicts change for
    the calling thread only. *)
Record conn_step (w w' : World) : Prop := {
  cs_ident : w_ident w' = w_ident w;
  cs_dbconns : w_dbconns w' = w_dbconns w;
  cs_trace : exists l, w_trace w' = (l ++ w_trace w)%list;
  cs_len : (List.length (w_heap w) <= List.length (w_heap w'))%nat;
  cs_heap : forall a c,
      nth_error (w_heap w) a = Some c ->
      exists c', nth_error (w_heap w') a = Some c' /\ c_backend c' = c_backend c;
  cs_pg_others : forall i,
      i <> w_ident w -> tget (w_pg_threads w') i = tget (w_pg_threads w) i;
  cs_my_others : forall i,
      i <> w_ident w -> tget (w_my_threads w') i = tget (w_my_threads w) i
}.

(** The same for code that goes through [db()]: of [dbconns], only the
    calling thread's [databases] may change. *)
Record db_step (w w' : World) : Prop := {
  ds_ident : w_ident w' = w_ident w;
  ds_trace : exists l, w_trace w' = (l ++ w_trace w)%list;
  ds_len : (List.length (w_heap w) <= List.length (w_heap w'))%nat;
  ds_heap : forall a c,
      nth_error (w_heap w) a = Some c ->
      exists c', nth_error (w_heap w') a = Some c' /\ c_backend c' = c_backend c;
  ds_dbconns_others : forall i,
      i <> w_ident w -> tget (w_dbconns w') i = tget (w_dbconns w) i;
  ds_pg_others : forall i,
      i <> w_ident w -> tget (w_pg_threads w') i = tget (w_pg_threads w) i;
  ds_my_others : forall i,
      i <> w_ident w -> tget (w_my_threads w') i = tget (w_my_threads w) i
}.

(** A computation run by thread [i] only takes such steps. *)
Definition conn_level {A} (i : nat) (m : M A) : Prop :=
  forall w, w_ident w = i -> conn_step w (snd (m w)).

Definition db_level {A} (i : nat) (m : M A) : Prop :=
  forall w, w_ident w = i -> db_step w (snd (m w)).

(** One [column=fragment] item of a SET or WHERE clause. *)
Definition assignment_of (kv : string * value) : string :=
  fst kv ++ "=" ++ text (fragment_of (snd kv)).

(** The statement [update_columns] composes. *)
Definition update_statement (cls : RowClass) (columns where_ : sdict value) : string :=
  "UPDATE " ++ table_name cls
    ++ " SET " ++ String.concat ", " (map assignment_of columns)
    ++ " WHERE " ++ String.concat " AND " (map assignment_of where_).

(** The values a changeset binds, in order. *)
Definition bound_values (columns : sdict value) : list value :=
  filter is_bound (map snd columns).

(** Thread [j] finds the three registries as they were. *)
Definition same_for_thread (j : nat) (w w' : World) : Prop :=
  tget (w_dbconns w') j = tget (w_dbconns w) j /\
  tget (w_pg_threads w') j = tget (w_pg_threads w) j /\
  tget (w_my_threads w') j = tget (w_my_threads w) j.

(** The same store, seen from thread [i]. *)
Definition switch_to (i : nat) (w : World) : World :=
  {| w_trace := w_trace w; w_heap := w_heap w; w_ident := i;
     w_dbconns := w_dbconns w; w_pg_threads := w_pg_threads w;
     w_my_threads := w_my_threads w |}.

(** A computation leaves the component [f] of the store as it was. *)
Definition keeps {X A} (f : World -> X) (m : M A) : Prop :=
  forall w, f (snd (m w)) = f w.

(** A component that is neither the history nor the heap. *)
Definition registry_part {X} (f : World -> X) : Prop :=
  (forall w t, f (with_trace w t) = f w) /\ (forall w h, f (with_heap w h) = f w).

(** The key under which [PostgresConnection.connect] caches: the database
    name, from the keywords or from the options. *)
Definition pg_cache_key (env : Env)
    (kw : option (string * option string * option string * option string * option Z))
    : string :=
  match kw with
  | Some (d, _, _, _, _) => d
  | None => pg_database (options env)
  end.

(** The key under which [MysqlConnection.connect] caches: ['%s@%s' % (schema,
    host)]. *)
Definition my_cache_key (env : Env)
    (kw : option (string * string * option string * option string)) : string :=
  match kw with
  | Some (host, schema, _, _) => schema ++ "@" ++ host
  | None => mysql_schema (options env) ++ "@" ++ mysql_host (options env)
  end.
(* ===================================================================== *)
(** * Properties *)

(** ** Running the monad *)

Lemma bind_ok {A B} (m : M A) (k : A -> M B) w a w' :
  m w = (Ok a, w') -> bind m k w = k a w'.
Proof. intros H. unfold bind. now rewrite H. Qed.

(** Unfolds the monad and the store down to the oracle's answers. *)
Ltac mrun :=
  cbv beta iota zeta delta
    [bind ret raise stuck_with try_except try_finally get_world modify load
     store alloc logging lift time_time driver_connect handle_close
     handle_rollback handle_commit handle_cursor cursor_execute cursor_close
     emit with_trace with_heap with_dbconns with_pg_threads with_my_threads];
  cbn [w_trace w_heap w_ident w_dbconns w_pg_threads w_my_threads fst snd].

Lemma load_ok self w c :
  nth_error (w_heap w) self = Some c -> load self w = (Ok c, w).
Proof. intros H. unfold load. now rewrite H. Qed.

Lemma list_update_same {A} (l : list A) n x y :
  nth_error l n = Some y -> nth_error (list_update l n x) n = Some x.
Proof.
  revert n. induction l as [|a l IH]; intros [|n]; simpl; try discriminate; auto.
Qed.

Lemma sget_sset_same {V} (d : sdict V) k v : sget (sset d k v) k = Some v.
Proof.
  unfold sget, sset. induction d as [|[k' v'] d IH]; simpl.
  - now rewrite String.eqb_refl.
  - destruct (String.eqb k k') eqn:E; simpl; rewrite E; auto.
Qed.

(* ===================================================================== *)
(** ** Row: attribute access *)

Lemma getattr_hook_present self name v :
  sget (r_items self) name = Some v -> Row.__getattr__ self name = Ok v.
Proof. intros H. unfold Row.__getattr__, Row.getitem. now rewrite H. Qed.

Lemma getattr_hook_absent self name :
  sget (r_items self) name = None ->
  Row.__getattr__ self name = Raise (AttributeError name).
Proof. intros H. unfold Row.__getattr__, Row.getitem. now rewrite H. Qed.

(** C9, as stated, fails: a name that normal lookup finds on the class never
    reaches [__getattr__].  A row with a column [get_id] answers
    [row.get_id] with the classmethod, while [row["get_id"]] is the column;
    and on a row without that column [row.get_id] does not raise. *)
Lemma getattr_shadowed_by_class_attribute :
  let row := {| r_class := "Row"; r_items := [("get_id", VInt 7)] |} in
  let bare := {| r_class := "Row"; r_items := [] |} in
  Row.getitem row "get_id" = Ok (VInt 7) /\
  Row.getattr Row.attributes row "get_id" = Ok (ClassAttribute "get_id") /\
  Row.getattr Row.attributes row "get_id" <> Ok (Column (VInt 7)) /\
  Row.getitem bare "get_id" = Raise (KeyError (Some "get_id")) /\
  Row.getattr Row.attributes bare "get_id" <> Raise (AttributeError "get_id").
Proof. cbv. repeat split; discriminate. Qed.

(** C9 (amended): for every Row and every attribute name that normal lookup
    does not find on the class, attribute-style access returns the value that
    key-style access returns when the column is present, and raises
    AttributeError (not KeyError) when the column is absent. *)
Theorem getattr_column_or_AttributeError
    (class_attrs : list string) (self : Row) (name : string) :
  ~ In name class_attrs ->
  (forall v, Row.getitem self name = Ok v ->
             Row.getattr class_attrs self name = Ok (Column v)) /\
  (sget (r_items self) name = None ->
     Row.getitem self name = Raise (KeyError (Some name)) /\
     Row.getattr class_attrs self name = Raise (AttributeError name)).
Proof.
  intros Hout.
  assert (Hmiss : existsb (String.eqb name) class_attrs = false).
  { destruct (existsb (String.eqb name) class_attrs) eqn:E; auto.
    apply existsb_exists in E. destruct E as [x [Hin Heq]].
    apply String.eqb_eq in Heq. subst x. contradiction. }
  unfold Row.getattr. rewrite Hmiss. split.
  - intros v Hv. unfold Row.__getattr__. now rewrite Hv.
  - intros Habs. unfold Row.__getattr__, Row.getitem. now rewrite Habs.
Qed.

Lemma getattr_column_or_AttributeError_witness :
  Row.getattr Row.attributes
    {| r_class := "Row"; r_items := [("email", VStr (Str "a@b.c"))] |} "email"
  = Ok (Column (VStr (Str "a@b.c"))).
Proof.
  apply (getattr_column_or_AttributeError Row.attributes
           {| r_class := "Row"; r_items := [("email", VStr (Str "a@b.c"))] |} "email").
  - simpl. intros H. repeat (destruct H as [H|H]; [discriminate|]). exact H.
  - reflexivity.
Defined.

(* ===================================================================== *)
(** ** The mini-ORM: [kva_split] *)

Lemma kva_split_from acc (columns : sdict value) :
  fold_left Row.kva_step columns acc =
  (fst (fst acc) ++ map fst columns,
   snd (fst acc) ++ map (fun kv => fragment_of (snd kv)) columns,
   snd acc ++ filter is_bound (map snd columns))%list.
Proof.
  revert acc. induction columns as [|[key v] columns IH]; intros [[keys values] args].
  - simpl. now rewrite !app_nil_r.
  - simpl fold_left. rewrite IH. clear IH.
    destruct v as [| z | [s | l]]; simpl; rewrite <- ?app_assoc; reflexivity.
Qed.

Lemma kva_split_eq (columns : sdict value) :
  Row.kva_split columns =
  (map fst columns,
   map (fun kv => fragment_of (snd kv)) columns,
   filter is_bound (map snd columns)).
Proof. unfold Row.kva_split, Dict.items. now rewrite kva_split_from. Qed.

Lemma placeholders_count (vs : list value) :
  List.length (filter is_placeholder (map fragment_of vs)) =
  List.length (filter is_bound vs).
Proof.
  induction vs as [|v vs IH]; simpl; auto.
  destruct v as [| z | [s | l]]; simpl; auto.
Qed.

(** C6: [kva_split] walks the changeset in insertion order; keys and
    fragments are aligned with that order position by position; a
    Literal-tagged value goes verbatim into the fragment list and binds
    nothing, every other value gives a '%s' fragment and is appended to the
    bound values, so there are as many placeholder fragments as bound
    values. *)
Theorem kva_split_aligned (columns : sdict value) :
  let '(keys, values, args) := Row.kva_split columns in
  keys = map fst (Dict.items columns) /\
  values = map (fun kv => fragment_of (snd kv)) (Dict.items columns) /\
  args = filter (fun v => negb (isinstance_Literal v)) (map snd (Dict.items columns)) /\
  List.length keys = List.length (Dict.items columns) /\
  List.length values = List.length (Dict.items columns) /\
  List.length (filter is_placeholder values) = List.length args.
Proof.
  rewrite kva_split_eq. unfold Dict.items.
  repeat split; try reflexivity.
  - now rewrite length_map.
  - now rewrite length_map.
  - rewrite <- placeholders_count. now rewrite map_map.
Qed.

(* ===================================================================== *)
(** ** The mini-ORM: [update_columns] with nothing to update *)

(** C8: with an empty changeset, whatever the table and the where-mapping,
    [update_columns] returns None without raising; its only effect is the
    debug log line: no statement is executed, no connection looked up. *)
Theorem update_columns_empty_is_noop
    (env : Env) (fuel : nat) (cls : RowClass) (where_ : sdict value) (w : World) :
  Row.update_columns env fuel cls [] where_ w =
    (Ok VNone, emit (EvLog LDebug "Nothing to update. Skipping query") w) /\
  w_trace (snd (Row.update_columns env fuel cls [] where_ w)) =
    EvLog LDebug "Nothing to update. Skipping query" :: w_trace w /\
  w_heap (snd (Row.update_columns env fuel cls [] where_ w)) = w_heap w /\
  w_dbconns (snd (Row.update_columns env fuel cls [] where_ w)) = w_dbconns w.
Proof. repeat split. Qed.

(* ===================================================================== *)
(** ** Connections: statements that ran *)

Section Runs.
Variable env : Env.

(** The three Postgres entry points, once the cursor was acquired and
    [_execute] returned. *)
Lemma Pg_execute_lastrowid_run self q params w cursor w1 cur w2 :
  Pg._cursor env self w = (Ok cursor, w1) ->
  Pg._execute env self cursor q params w1 = (Ok cur, w2) ->
  Pg.execute_lastrowid env self q params w =
    (fst ((if rowcount (cur_state cur) >? 0 then fetchone_0 cur else ret VNone) w2),
     emit (EvCursorClose (cur_handle cursor)) w2).
Proof.
  intros Hc He. unfold Pg.execute_lastrowid.
  rewrite (bind_ok _ _ _ _ _ Hc). unfold try_finally.
  rewrite (bind_ok _ _ _ _ _ He).
  destruct (rowcount (cur_state cur) >? 0); [|reflexivity].
  unfold fetchone_0.
  destruct (result_rows (cur_state cur)) as [|[|v r] rest];
    [destruct (description (cur_state cur))| |]; reflexivity.
Qed.

Lemma Pg_execute_rowcount_run self q params w cursor w1 cur w2 :
  Pg._cursor env self w = (Ok cursor, w1) ->
  Pg._execute env self cursor q params w1 = (Ok cur, w2) ->
  Pg.execute_rowcount env self q params w =
    (Ok (VInt (rowcount (cur_state cur))), emit (EvCursorClose (cur_handle cursor)) w2).
Proof.
  intros Hc He. unfold Pg.execute_rowcount.
  rewrite (bind_ok _ _ _ _ _ Hc). unfold try_finally.
  now rewrite (bind_ok _ _ _ _ _ He).
Qed.

Lemma Pg_query_run self q params cls w cursor w1 cur w2 :
  Pg._cursor env self w = (Ok cursor, w1) ->
  Pg._execute env self cursor q params w1 = (Ok cur, w2) ->
  Pg.query env self q params cls w =
    (fst (rows_of_cursor cur cls w2), emit (EvCursorClose (cur_handle cursor)) w2).
Proof.
  intros Hc He. unfold Pg.query.
  rewrite (bind_ok _ _ _ _ _ Hc). unfold try_finally.
  rewrite (bind_ok _ _ _ _ _ He). unfold rows_of_cursor.
  destruct (description (cur_state cur)); reflexivity.
Qed.

(** The same for MySQL. *)
Lemma My_execute_lastrowid_run fuel self q params w cursor w1 cur w2 :
  My._cursor env fuel self w = (Ok cursor, w1) ->
  My._execute env self cursor q params w1 = (Ok cur, w2) ->
  My.execute_lastrowid env fuel self q params w =
    (Ok (lastrowid (cur_state cur)), emit (EvCursorClose (cur_handle cursor)) w2).
Proof.
  intros Hc He. unfold My.execute_lastrowid, My.execute_lastrowid_in.
  unfold My._cursor in Hc.
  rewrite (bind_ok _ _ _ _ _ Hc). unfold try_finally.
  now rewrite (bind_ok _ _ _ _ _ He).
Qed.

Lemma My_query_run fuel self q params cls w cursor w1 cur w2 :
  My._cursor env fuel self w = (Ok cursor, w1) ->
  My._execute env self cursor q params w1 = (Ok cur, w2) ->
  My.query env fuel self q params cls w =
    (fst (rows_of_cursor cur cls w2), emit (EvCursorClose (cur_handle cursor)) w2).
Proof.
  intros Hc He. unfold My.query.
  rewrite (bind_ok _ _ _ _ _ Hc). unfold try_finally.
  rewrite (bind_ok _ _ _ _ _ He). unfold rows_of_cursor.
  destruct (description (cur_state cur)); reflexivity.
Qed.

(** C10: on the Postgres connection, once the statement has run,
    [execute_lastrowid] returns the first column of the first fetched row
    when the affected-row count is positive, and None when it is zero. *)
Theorem Pg_execute_lastrowid_first_column_or_None
    self q params w cursor w1 cur w2 :
  Pg._cursor env self w = (Ok cursor, w1) ->
  Pg._execute env self cursor q params w1 = (Ok cur, w2) ->
  (forall v r rest,
     rowcount (cur_state cur) > 0 ->
     result_rows (cur_state cur) = (v :: r) :: rest ->
     fst (Pg.execute_lastrowid env self q params w) = Ok v) /\
  (rowcount (cur_state cur) = 0 ->
     fst (Pg.execute_lastrowid env self q params w) = Ok VNone).
Proof.
  intros Hc He. rewrite (Pg_execute_lastrowid_run _ _ _ _ _ _ _ _ Hc He).
  split.
  - intros v r rest Hpos Hrows.
    apply Z.gtb_gt in Hpos. rewrite Hpos. unfold fetchone_0. now rewrite Hrows.
  - intros Hz. now rewrite Hz.
Qed.

End Runs.

(** C10 at work: an INSERT ... RETURNING that produced 42, and a statement
    that affected nothing. *)
Lemma Pg_execute_lastrowid_first_column_or_None_witness :
  fst (Pg.execute_lastrowid (Scenario.steady 100 Scenario.inserted_42) 0
         Scenario.insert_sql Scenario.a_name (Scenario.connected Postgres 90))
    = Ok (VInt 42) /\
  fst (Pg.execute_lastrowid (Scenario.steady 100 Scenario.nothing_affected) 0
         Scenario.insert_sql Scenario.a_name (Scenario.connected Postgres 90))
    = Ok VNone.
Proof.
  split.
  - eapply (proj1 (Pg_execute_lastrowid_first_column_or_None
                     (Scenario.steady 100 Scenario.inserted_42) 0
                     Scenario.insert_sql Scenario.a_name
                     (Scenario.connected Postgres 90) _ _ _ _
                     eq_refl eq_refl)).
    + reflexivity.
    + reflexivity.
  - eapply (proj2 (Pg_execute_lastrowid_first_column_or_None
                     (Scenario.steady 100 Scenario.nothing_affected) 0
                     Scenario.insert_sql Scenario.a_name
                     (Scenario.connected Postgres 90) _ _ _ _
                     eq_refl eq_refl)).
    reflexivity.
Defined.

(* ===================================================================== *)
(** ** [execute]: what is returned *)

(** C1, as stated, fails on the MySQL connection: [execute] there returns the
    driver's lastrowid whatever the statement.  An UPDATE that changed three
    rows and generated no identifier returns 0, not 3. *)
Lemma My_execute_update_returns_lastrowid :
  let env := Scenario.steady 100 Scenario.updated_3 in
  let w := Scenario.connected Mysql 90 in
  String.prefix "INSERT" Scenario.update_sql = false /\
  (exists cursor w1 cur w2,
     My._cursor env 1 0 w = (Ok cursor, w1) /\
     My._execute env 0 cursor Scenario.update_sql Scenario.a_name w1 = (Ok cur, w2) /\
     rowcount (cur_state cur) = 3) /\
  fst (My.execute env 1 0 Scenario.update_sql Scenario.a_name w) = Ok (VInt 0) /\
  fst (My.execute env 1 0 Scenario.update_sql Scenario.a_name w) <> Ok (VInt 3).
Proof.
  cbv zeta. split; [reflexivity|]. split; [|split].
  - do 4 eexists. split; [reflexivity|]. split; reflexivity.
  - reflexivity.
  - vm_compute. discriminate.
Qed.

(** C1 (amended): once the statement has run, [execute] on the Postgres
    connection returns the generated identifier (the first column of the
    first returned row) when the text starts with INSERT and the
    affected-row count otherwise; [execute] on the MySQL connection returns
    the driver-reported last-inserted-id for every statement. *)
Theorem execute_return_convention (env : Env) :
  (forall self q params w cursor w1 cur w2,
     Pg._cursor env self w = (Ok cursor, w1) ->
     Pg._execute env self cursor q params w1 = (Ok cur, w2) ->
     (forall v r rest,
        String.prefix "INSERT" q = true ->
        rowcount (cur_state cur) > 0 ->
        result_rows (cur_state cur) = (v :: r) :: rest ->
        fst (Pg.execute env self q params w) = Ok v) /\
     (String.prefix "INSERT" q = false ->
        fst (Pg.execute env self q params w) = Ok (VInt (rowcount (cur_state cur))))) /\
  (forall fuel self q params w cursor w1 cur w2,
     My._cursor env fuel self w = (Ok cursor, w1) ->
     My._execute env self cursor q params w1 = (Ok cur, w2) ->
     fst (My.execute env fuel self q params w) = Ok (lastrowid (cur_state cur))).
Proof.
  split.
  - intros self q params w cursor w1 cur w2 Hc He. unfold Pg.execute. split.
    + intros v r rest Hins Hpos Hrows. rewrite Hins.
      rewrite (Pg_execute_lastrowid_run _ _ _ _ _ _ _ _ _ Hc He).
      apply Z.gtb_gt in Hpos. rewrite Hpos. unfold fetchone_0. now rewrite Hrows.
    + intros Hins. rewrite Hins.
      now rewrite (Pg_execute_rowcount_run _ _ _ _ _ _ _ _ _ Hc He).
  - intros fuel self q params w cursor w1 cur w2 Hc He.
    unfold My.execute, My.execute_in.
    fold (My.execute_lastrowid env fuel self q params).
    now rewrite (My_execute_lastrowid_run _ _ _ _ _ _ _ _ _ _ Hc He).
Qed.

Lemma execute_return_convention_witness :
  fst (Pg.execute (Scenario.steady 100 Scenario.inserted_42) 0
         Scenario.insert_sql Scenario.a_name (Scenario.connected Postgres 90))
    = Ok (VInt 42) /\
  fst (Pg.execute (Scenario.steady 100 Scenario.updated_3) 0
         Scenario.update_sql Scenario.a_name (Scenario.connected Postgres 90))
    = Ok (VInt 3) /\
  fst (My.execute (Scenario.steady 100 Scenario.my_inserted_17) 1 0
         Scenario.insert_sql Scenario.a_name (Scenario.connected Mysql 90))
    = Ok (VInt 17).
Proof.
  split; [|split].
  - eapply (proj1 (proj1 (execute_return_convention
                     (Scenario.steady 100 Scenario.inserted_42))
                     0%nat Scenario.insert_sql Scenario.a_name
                     (Scenario.connected Postgres 90) _ _ _ _ eq_refl eq_refl));
      reflexivity.
  - eapply (proj2 (proj1 (execute_return_convention
                     (Scenario.steady 100 Scenario.updated_3))
                     0%nat Scenario.update_sql Scenario.a_name
                     (Scenario.connected Postgres 90) _ _ _ _ eq_refl eq_refl)).
    reflexivity.
  - eapply (proj2 (execute_return_convention
                     (Scenario.steady 100 Scenario.my_inserted_17))
                  1%nat 0%nat Scenario.insert_sql Scenario.a_name
                  (Scenario.connected Mysql 90) _ _ _ _ eq_refl eq_refl).
Defined.

(* ===================================================================== *)
(** ** [get]: zero, one, or too many rows *)

(** C5: [get] returns None when the underlying [query] yields no row, that
    row when it yields exactly one, and raises the multiple-rows exception
    when it yields more; on both connections.  (The MySQL [get] runs [query]
    without the keywords and, given [cls], hands the single non-empty row
    back rebuilt in that class: same items.) *)
Theorem get_zero_one_many (env : Env) :
  (forall self q params cls w rows w',
     Pg.query env self q params cls w = (Ok rows, w') ->
     (rows = [] -> Pg.get env self q params cls w = (Ok None, w')) /\
     (forall r, rows = [r] -> Pg.get env self q params cls w = (Ok (Some r), w')) /\
     ((1 < List.length rows)%nat ->
        Pg.get env self q params cls w = (Raise multiple_rows, w'))) /\
  (forall fuel self q params cls w rows w',
     My.query env fuel self q params None w = (Ok rows, w') ->
     (rows = [] -> My.get env fuel self q params cls w = (Ok None, w')) /\
     (forall r, rows = [r] ->
        exists r', My.get env fuel self q params cls w = (Ok (Some r'), w') /\
                   r_items r' = r_items r /\
                   (cls = None -> r' = r)) /\
     ((1 < List.length rows)%nat ->
        My.get env fuel self q params cls w = (Raise multiple_rows, w'))).
Proof.
  split.
  - intros self q params cls w rows w' Hq. unfold Pg.get.
    rewrite (bind_ok _ _ _ _ _ Hq). repeat split.
    + intros ->. reflexivity.
    + intros r ->. reflexivity.
    + destruct rows as [|r1 [|r2 rows]]; simpl; intros H; try lia. reflexivity.
  - intros fuel self q params cls w rows w' Hq. unfold My.get.
    rewrite (bind_ok _ _ _ _ _ Hq). repeat split.
    + intros ->. reflexivity.
    + intros r ->. destruct (r_items r) as [|kv items] eqn:Hi; destruct cls as [c|].
      * exists r. repeat split; auto.
      * exists r. repeat split; auto.
      * exists {| r_class := c; r_items := r_items r |}. rewrite Hi.
        repeat split; auto. discriminate.
      * exists r. repeat split; auto.
    + destruct rows as [|r1 [|r2 rows]]; simpl; intros H; try lia. reflexivity.
Qed.

Lemma get_zero_one_many_witness :
  fst (Pg.get (Scenario.steady 100 (Scenario.selected 0)) 0
         Scenario.select_sql Scenario.a_name None (Scenario.connected Postgres 90))
    = Ok None /\
  fst (Pg.get (Scenario.steady 100 (Scenario.selected 2)) 0
         Scenario.select_sql Scenario.a_name None (Scenario.connected Postgres 90))
    = Raise multiple_rows /\
  fst (My.get (Scenario.steady 100 (Scenario.selected 2)) 1 0
         Scenario.select_sql Scenario.a_name None (Scenario.connected Mysql 90))
    = Raise multiple_rows.
Proof.
  split; [|split].
  - erewrite (proj1 (proj1 (get_zero_one_many (Scenario.steady 100 (Scenario.selected 0)))
                       0%nat Scenario.select_sql Scenario.a_name None
                       (Scenario.connected Postgres 90) _ _ eq_refl));
      reflexivity.
  - erewrite (proj2 (proj2 (proj1 (get_zero_one_many (Scenario.steady 100 (Scenario.selected 2)))
                       0%nat Scenario.select_sql Scenario.a_name None
                       (Scenario.connected Postgres 90) _ _ eq_refl)));
      [reflexivity | simpl; lia].
  - erewrite (proj2 (proj2 (proj2 (get_zero_one_many (Scenario.steady 100 (Scenario.selected 2)))
                       1%nat 0%nat Scenario.select_sql Scenario.a_name None
                       (Scenario.connected Mysql 90) _ _ eq_refl)));
      [reflexivity | simpl; lia].
Defined.

(* ===================================================================== *)
(** ** [_ensure_connected] *)

(** Postgres, live handle, idle time within the limit: no reconnection, the
    handle stays, and [_last_use_time] becomes the clock's next reading. *)
Lemma Pg_ensure_connected_reuses env self w c h :
  nth_error (w_heap w) self = Some c ->
  c_db c = Some h ->
  env_time env (w_trace w) - c_last_use_time c <= c_max_idle_time c ->
  Pg._ensure_connected env self w =
    (Ok tt,
     with_heap (emit EvTime (emit EvTime w))
       (list_update (w_heap w) self
          (with_last_use_time c (env_time env (EvTime :: w_trace w))))).
Proof.
  intros Hc Hh Hidle.
  assert (E : (env_time env (w_trace w) - c_last_use_time c >? c_max_idle_time c) = false).
  { rewrite Z.gtb_ltb. apply Z.ltb_ge. lia. }
  unfold Pg._ensure_connected. mrun. rewrite Hc, Hh. mrun. rewrite E. mrun.
  now rewrite Hc.
Qed.

(** Postgres, no handle or idle for too long: the driver is asked for a new
    connection. *)
Lemma Pg_ensure_connected_reconnects env self w c :
  nth_error (w_heap w) self = Some c ->
  c_db c = None \/
  env_time env (w_trace w) - c_last_use_time c > c_max_idle_time c ->
  In (EvConnect Postgres) (w_trace (snd (Pg._ensure_connected env self w))).
Proof.
  intros Hc Hcond. unfold Pg._ensure_connected, Pg.reconnect, Pg.close. mrun.
  rewrite Hc. destruct (c_db c) as [h|] eqn:Hh.
  - destruct Hcond as [Hn|Hidle]; [discriminate|].
    apply Z.gtb_gt in Hidle. mrun. rewrite Hidle. mrun. rewrite Hc, Hh. mrun.
    rewrite Hc. mrun.
    destruct (env_connect env (EvClose h :: EvTime :: w_trace w) Postgres); mrun.
    + simpl. auto.
    + rewrite (list_update_same _ _ _ _ Hc). mrun.
      rewrite (list_update_same _ _ _ _ (list_update_same _ _ _ _ Hc)). simpl. auto.
  - mrun. rewrite Hc, Hh. mrun.
    destruct (env_connect env (w_trace w) Postgres); mrun.
    + simpl. auto.
    + rewrite Hc. mrun. rewrite (list_update_same _ _ _ _ Hc). simpl. auto.
Qed.

(** MySQL, live handle, idle time within the limit: no reconnection, the
    handle stays, but nothing is written: the object is as before. *)
Lemma My_ensure_connected_reuses env fuel self w c h :
  nth_error (w_heap w) self = Some c ->
  c_db c = Some h ->
  env_time env (w_trace w) - c_last_use_time c <= c_max_idle_time c ->
  My._ensure_connected env (S fuel) self w = (Ok tt, emit EvTime w).
Proof.
  intros Hc Hh Hidle. simpl.
  rewrite (bind_ok _ _ _ _ _ (load_ok _ _ _ Hc)). rewrite Hh.
  unfold bind at 1. unfold bind at 1. unfold time_time at 1. unfold ret at 1.
  assert (E : (env_time env (w_trace w) - c_last_use_time c >? c_max_idle_time c) = false).
  { rewrite Z.gtb_ltb. apply Z.ltb_ge. lia. }
  now rewrite E.
Qed.

(** C3 (code defect on the MySQL path): [_ensure_connected] is to leave
    [_last_use_time] at the current time whenever it returns.  On a live
    connection within its idle limit the Postgres method does so; the MySQL
    method returns without writing it, so [_last_use_time] keeps its old
    value while the handle is reused. *)
Theorem ensure_connected_last_use_time_divergence env fuel self w c h :
  nth_error (w_heap w) self = Some c ->
  c_db c = Some h ->
  env_time env (w_trace w) - c_last_use_time c <= c_max_idle_time c ->
  nth_error (w_heap (snd (Pg._ensure_connected env self w))) self =
    Some (with_last_use_time c (env_time env (EvTime :: w_trace w))) /\
  My._ensure_connected env (S fuel) self w = (Ok tt, emit EvTime w) /\
  nth_error (w_heap (snd (My._ensure_connected env (S fuel) self w))) self = Some c.
Proof.
  intros Hc Hh Hidle.
  rewrite (Pg_ensure_connected_reuses _ _ _ _ _ Hc Hh Hidle).
  rewrite (My_ensure_connected_reuses _ fuel _ _ _ _ Hc Hh Hidle).
  mrun. rewrite (list_update_same _ _ _ _ Hc). auto.
Qed.

(** At time 100 a MySQL connection last used at 90 is checked: it still says
    90 afterwards. *)
Lemma ensure_connected_last_use_time_divergence_witness :
  option_map c_last_use_time
    (nth_error
       (w_heap (snd (My._ensure_connected (Scenario.steady 100 Scenario.updated_3) 1 0
                       (Scenario.connected Mysql 90)))) 0)
  = Some 90.
Proof.
  rewrite (proj2 (proj2 (ensure_connected_last_use_time_divergence
             (Scenario.steady 100 Scenario.updated_3) 0%nat 0%nat
             (Scenario.connected Mysql 90) _ 0%nat eq_refl eq_refl
             ltac:(vm_compute; discriminate)))).
  reflexivity.
Defined.

(* ===================================================================== *)
(** ** The registry: [db()] without a schema *)


Lemma tget_tset_same {V} (d : tdict V) k v : tget (tset d k v) k = Some v.
Proof.
  unfold tget, tset. induction d as [|[k' v'] d IH]; simpl.
  - now rewrite Nat.eqb_refl.
  - destruct (Nat.eqb k k') eqn:E; simpl; rewrite E; auto.
Qed.

Lemma databases_ok w d :
  tget (w_dbconns w) (w_ident w) = Some d -> databases w = (Ok d, w).
Proof. intros H. unfold databases. mrun. now rewrite H. Qed.

Lemma databases_set_ok w d k conn :
  tget (w_dbconns w) (w_ident w) = Some d ->
  databases_set k conn w =
    (Ok tt, with_dbconns w (tset (w_dbconns w) (w_ident w) (sset d k conn))).
Proof.
  intros H. unfold databases_set.
  rewrite (bind_ok _ _ _ _ _ (databases_ok _ _ H)). reflexivity.
Qed.

Lemma db_init_ok w d :
  tget (w_dbconns w) (w_ident w) = Some d -> db_init w = (Ok tt, w).
Proof. intros H. unfold db_init. mrun. now rewrite H. Qed.

(** A schema that is in the registry is what the lookup returns, also when
    the default rule fires: the single key is then that schema. *)
Lemma db_lookup_cached w d k conn :
  tget (w_dbconns w) (w_ident w) = Some d ->
  sget d k = Some conn ->
  db_lookup (Some k) w = (Ok conn, w).
Proof.
  intros Hd Hk. unfold db_lookup.
  rewrite (bind_ok _ _ _ _ _ (databases_ok _ _ Hd)).
  unfold default_schema.
  destruct (not_schema (Some k) && Nat.eqb (Dict.len d) 1) eqn:E.
  - destruct d as [|[k0 v0] [|kv d]]; simpl in E;
      try (rewrite andb_false_r in E; discriminate).
    simpl. unfold sget in *. simpl in *. rewrite String.eqb_refl.
    destruct (String.eqb k k0); [|discriminate]. now inversion Hk.
  - now rewrite Hk.
Qed.

Lemma db_postgres_skips env u w d :
  tget (w_dbconns w) (w_ident w) = Some d ->
  pgsql_available env && negb (smem d (pg_database (options env))) = false ->
  db_postgres env u w = (Ok u, w).
Proof.
  intros Hd Hpg. unfold db_postgres.
  rewrite (bind_ok _ _ _ _ _ (databases_ok _ _ Hd)). now rewrite Hpg.
Qed.

Lemma db_mysql_skips env fuel u w d :
  tget (w_dbconns w) (w_ident w) = Some d ->
  mysql_available env && negb (smem d (mysql_schema (options env))) = false ->
  db_mysql env fuel u w = (Ok u, w).
Proof.
  intros Hd Hmy. unfold db_mysql.
  rewrite (bind_ok _ _ _ _ _ (databases_ok _ _ Hd)). now rewrite Hmy.
Qed.

Lemma db_postgres_creates env u w d conn w1 d1 :
  tget (w_dbconns w) (w_ident w) = Some d ->
  pgsql_available env && negb (smem d (pg_database (options env))) = true ->
  Pg.connect env None false w = (Ok conn, w1) ->
  tget (w_dbconns w1) (w_ident w1) = Some d1 ->
  db_postgres env u w =
    (Ok (Some (pg_database (options env))),
     with_dbconns w1
       (tset (w_dbconns w1) (w_ident w1) (sset d1 (pg_database (options env)) conn))).
Proof.
  intros Hd Hpg Hconn Hd1. unfold db_postgres.
  rewrite (bind_ok _ _ _ _ _ (databases_ok _ _ Hd)). rewrite Hpg.
  rewrite (bind_ok _ _ _ _ _ Hconn).
  now rewrite (bind_ok _ _ _ _ _ (databases_set_ok _ _ _ _ Hd1)).
Qed.

Lemma db_mysql_creates env fuel u w d conn w1 d1 :
  tget (w_dbconns w) (w_ident w) = Some d ->
  mysql_available env && negb (smem d (mysql_schema (options env))) = true ->
  My.connect env fuel None false w = (Ok conn, w1) ->
  tget (w_dbconns w1) (w_ident w1) = Some d1 ->
  db_mysql env fuel u w =
    (Ok (Some (mysql_schema (options env))),
     with_dbconns w1
       (tset (w_dbconns w1) (w_ident w1) (sset d1 (mysql_schema (options env)) conn))).
Proof.
  intros Hd Hmy Hconn Hd1. unfold db_mysql.
  rewrite (bind_ok _ _ _ _ _ (databases_ok _ _ Hd)). rewrite Hmy.
  rewrite (bind_ok _ _ _ _ _ Hconn).
  now rewrite (bind_ok _ _ _ _ _ (databases_set_ok _ _ _ _ Hd1)).
Qed.




(* ===================================================================== *)
(** ** Whatever [db()] returned: dispatch on the class *)

Lemma conn_query_run env fuel conn q params cls w cursor cur w' :
  statement_ran env fuel conn q params w cursor cur w' ->
  conn_query env fuel conn q params cls w =
    (fst (rows_of_cursor cur cls w'), emit (EvCursorClose (cur_handle cursor)) w').
Proof.
  intros [c [w1 [Hc Hrun]]]. unfold conn_query.
  rewrite (bind_ok _ _ _ _ _ (load_ok _ _ _ Hc)).
  destruct (c_backend c); destruct Hrun as [H1 H2].
  - apply (Pg_query_run _ _ _ _ _ _ _ _ _ _ H1 H2).
  - apply (My_query_run _ _ _ _ _ _ _ _ _ _ _ H1 H2).
Qed.

(* ===================================================================== *)
(** ** The ledger: order of the unapplied entries *)









(** Insertion sort under a total, transitive order. *)
Section Sorting.
Context {A : Type} (le : A -> A -> bool).
Hypothesis le_total : forall a b, le a b = true \/ le b a = true.
Hypothesis le_trans : forall a b c, le a b = true -> le b c = true -> le a c = true.





End Sorting.








(** The same server asked by [scan], whose text has neither WHERE nor ORDER
    BY: every entry, the applied one too, in the order the table holds
    them. *)
Example scan_lists_the_table :
  match fst (SqlDiff.scan (Scenario.ledger_env Scenario.diff_ledger) 3 Scenario.blank) with
  | Ok rows => Some (map SqlDiff.name_of rows)
  | _ => None
  end
  = Some [Some "diff010_a"; Some "diff001_x"; Some "diff005_b"; Some "diff020_c"].
Proof. vm_compute. reflexivity. Qed.




(* ===================================================================== *)
(** ** The mini-ORM: [insert_columns] *)

Lemma string_app_nil_r (s : string) : s ++ EmptyString = s.
Proof. induction s as [|c s IH]; simpl; auto. now rewrite IH. Qed.

Lemma string_app_assoc (s t u : string) : (s ++ t) ++ u = s ++ (t ++ u).
Proof. induction s as [|c s IH]; simpl; auto. now rewrite IH. Qed.

Lemma res_app_app s t r : res_app s (res_app t r) = res_app (s ++ t) r.
Proof.
  destruct r as [x|e|x]; simpl; auto. now rewrite string_app_assoc.
Qed.

(** Text without [%] is copied through. *)
Lemma format_plain_prefix s t d :
  percent_free s = true ->
  format_from Plain (s ++ t) d = res_app s (format_from Plain t d).
Proof.
  induction s as [|c s IH]; simpl; intros H.
  - destruct (format_from Plain t d); reflexivity.
  - apply andb_true_iff in H. destruct H as [Hc Hs].
    apply negb_true_iff in Hc. rewrite Hc. rewrite (IH Hs).
    now rewrite res_app_app.
Qed.

Lemma format_plain s d :
  percent_free s = true -> format_from Plain s d = Ok s.
Proof.
  intros H. rewrite <- (string_app_nil_r s) at 1.
  rewrite (format_plain_prefix _ _ _ H). simpl. now rewrite string_app_nil_r.
Qed.

(** The default template followed by [suffix], applied to the three names. *)
Lemma format_default_sql_txt suffix tbl ks vs :
  format_named (Row.default_sql_txt ++ suffix)
    [("db_table", tbl); ("keys", ks); ("values", vs)] =
  res_app ("INSERT INTO " ++ tbl ++ " (" ++ ks ++ ") VALUES (" ++ vs ++ ")")
    (format_from Plain suffix [("db_table", tbl); ("keys", ks); ("values", vs)]).
Proof.
  unfold format_named, Row.default_sql_txt. cbn.
  destruct (format_from Plain suffix _) as [x|e|x]; cbn; auto.
  f_equal. repeat (rewrite string_app_assoc; cbn). reflexivity.
Qed.

Lemma conn_execute_mysql_run env fuel conn q params w c cursor w1 cur w2 :
  nth_error (w_heap w) conn = Some c ->
  c_backend c = Mysql ->
  My._cursor env fuel conn w = (Ok cursor, w1) ->
  My._execute env conn cursor q params w1 = (Ok cur, w2) ->
  fst (conn_execute env fuel conn q params w) = Ok (lastrowid (cur_state cur)).
Proof.
  intros Hc Hk H1 H2. unfold conn_execute.
  rewrite (bind_ok _ _ _ _ _ (load_ok _ _ _ Hc)). rewrite Hk.
  unfold My.execute, My.execute_in.
  fold (My.execute_lastrowid env fuel conn q params).
  now rewrite (My_execute_lastrowid_run _ _ _ _ _ _ _ _ _ _ H1 H2).
Qed.

(** C7: with the default template, the statement [insert_columns] hands to
    [execute] is the composed INSERT followed by ' RETURNING <id_column>'
    exactly when the connection [db()] returned is a PostgresConnection; on a
    MysqlConnection nothing is appended and the value returned is the
    driver's last-inserted-id. *)
Theorem insert_columns_returning_clause
    env fuel cls columns w use_db w1 c :
  percent_free (id_column cls) = true ->
  db env fuel None w = (Ok use_db, w1) ->
  nth_error (w_heap w1) use_db = Some c ->
  Row.insert_columns env fuel cls Row.default_sql_txt columns w =
    conn_execute env fuel use_db
      (insert_statement cls columns ++ returning_clause (c_backend c) cls)
      (insert_arguments columns)
      (emit (EvLog LWarning "USE DB") w1) /\
  returning_clause Postgres cls = " RETURNING " ++ id_column cls /\
  returning_clause Mysql cls = EmptyString /\
  (forall cursor w2 cur w3,
     c_backend c = Mysql ->
     My._cursor env fuel use_db (emit (EvLog LWarning "USE DB") w1) = (Ok cursor, w2) ->
     My._execute env use_db cursor (insert_statement cls columns)
       (insert_arguments columns) w2 = (Ok cur, w3) ->
     fst (Row.insert_columns env fuel cls Row.default_sql_txt columns w)
       = Ok (lastrowid (cur_state cur))).
Proof.
  intros Hid Hdb Hc.
  assert (Hrun :
    Row.insert_columns env fuel cls Row.default_sql_txt columns w =
    conn_execute env fuel use_db
      (insert_statement cls columns ++ returning_clause (c_backend c) cls)
      (insert_arguments columns)
      (emit (EvLog LWarning "USE DB") w1)).
  { unfold Row.insert_columns, insert_statement, insert_arguments.
    destruct (Row.kva_split columns) as [[keys values] args]. cbn [snd].
    rewrite (bind_ok _ _ _ _ _ Hdb).
    unfold Row.stdlib_logw, logging. unfold modify at 1. unfold bind at 1.
    assert (Hc' : nth_error (w_heap (emit (EvLog LWarning "USE DB") w1)) use_db = Some c)
      by exact Hc.
    rewrite (bind_ok _ _ _ _ _ (load_ok _ _ _ Hc')).
    unfold lift, returning_clause.
    destruct (c_backend c).
    - rewrite format_default_sql_txt.
      rewrite (format_plain_prefix " RETURNING " (id_column cls)) by reflexivity.
      rewrite format_plain by exact Hid.
      cbn [res_app]. unfold bind at 1. reflexivity.
    - rewrite <- (string_app_nil_r Row.default_sql_txt).
      rewrite format_default_sql_txt. cbn [format_from res_app].
      unfold bind at 1. reflexivity. }
  split; [exact Hrun|]. split; [reflexivity|]. split; [reflexivity|].
  intros cursor w2 cur w3 Hk H1 H2. rewrite Hrun, Hk.
  unfold returning_clause. rewrite string_app_nil_r.
  eapply conn_execute_mysql_run; eauto.
Qed.

(** With only psycopg2 imported the statement ends in RETURNING and the
    identifier is the returned row's; with only MySQLdb imported it does not
    and the identifier is the driver's lastrowid. *)
Lemma insert_columns_returning_clause_witness :
  (let env := Scenario.steady_with true false 100 Scenario.inserted_42 in
   let r := Row.insert_columns env 3 SqlDiff.cls Row.default_sql_txt
              Scenario.a_changeset Scenario.blank in
   fst r = Ok (VInt 42) /\
   In (EvExecute 1
         "INSERT INTO sql_diff (sql_diff_name, create_dttm) VALUES (%s, NOW()) RETURNING sql_diff_id"
         [VStr (Str "diff001_init")]) (w_trace (snd r))) /\
  (let env := Scenario.steady_with false true 100 Scenario.my_inserted_17 in
   let r := Row.insert_columns env 3 SqlDiff.cls Row.default_sql_txt
              Scenario.a_changeset Scenario.blank in
   fst r = Ok (VInt 17)).
Proof.
  split.
  - cbv zeta.
    assert (H : exists use_db w1 c,
              db (Scenario.steady_with true false 100 Scenario.inserted_42) 3 None
                Scenario.blank = (Ok use_db, w1) /\
              nth_error (w_heap w1) use_db = Some c).
    { do 3 eexists. split; vm_compute; reflexivity. }
    destruct H as [use_db [w1 [c [Hdb Hc]]]].
    rewrite (proj1 (insert_columns_returning_clause _ 3 SqlDiff.cls
                      Scenario.a_changeset _ _ _ _ eq_refl Hdb Hc)).
    vm_compute in Hdb. inversion Hdb; subst.
    vm_compute in Hc. inversion Hc; subst.
    split; vm_compute; auto.
  - cbv zeta.
    assert (H : exists use_db w1 c cursor w2 cur w3,
              db (Scenario.steady_with false true 100 Scenario.my_inserted_17) 3 None
                Scenario.blank = (Ok use_db, w1) /\
              nth_error (w_heap w1) use_db = Some c /\
              c_backend c = Mysql /\
              My._cursor (Scenario.steady_with false true 100 Scenario.my_inserted_17)
                3 use_db (emit (EvLog LWarning "USE DB") w1) = (Ok cursor, w2) /\
              My._execute (Scenario.steady_with false true 100 Scenario.my_inserted_17)
                use_db cursor (insert_statement SqlDiff.cls Scenario.a_changeset)
                (insert_arguments Scenario.a_changeset) w2 = (Ok cur, w3) /\
              lastrowid (cur_state cur) = VInt 17).
    { do 7 eexists. split; [vm_compute; reflexivity|].
      split; [vm_compute; reflexivity|]. split; [vm_compute; reflexivity|].
      split; [vm_compute; reflexivity|]. split; vm_compute; reflexivity. }
    destruct H as [use_db [w1 [c [cursor [w2 [cur [w3 [Hdb [Hc [Hk [H1 [H2 H3]]]]]]]]]]]].
    rewrite (proj2 (proj2 (proj2 (insert_columns_returning_clause _ 3 SqlDiff.cls
                      Scenario.a_changeset _ _ _ _ eq_refl Hdb Hc)))
               _ _ _ _ Hk H1 H2).
    now rewrite H3.
Defined.

(* ===================================================================== *)
(** * Further properties of the module *)

(** ** Steps *)

Lemma conn_step_refl w : conn_step w w.
Proof.
  constructor; auto.
  - now exists [].
  - intros a c H. now exists c.
Qed.

Lemma conn_step_trans w1 w2 w3 :
  conn_step w1 w2 -> conn_step w2 w3 -> conn_step w1 w3.
Proof.
  intros [I1 D1 [l1 T1] L1 H1 P1 M1] [I2 D2 [l2 T2] L2 H2 P2 M2].
  constructor.
  - congruence.
  - congruence.
  - exists (l2 ++ l1)%list. rewrite T2, T1. now rewrite app_assoc.
  - lia.
  - intros a c Ha. destruct (H1 a c Ha) as [c1 [Hc1 B1]].
    destruct (H2 a c1 Hc1) as [c2 [Hc2 B2]]. exists c2. split; congruence.
  - intros i Hi. rewrite P2 by congruence. now apply P1.
  - intros i Hi. rewrite M2 by congruence. now apply M1.
Qed.

Lemma conn_step_emit ev w : conn_step w (emit ev w).
Proof.
  constructor; auto.
  - now exists [ev].
  - intros a c H. now exists c.
Qed.

Lemma cl_ret {A} i (a : A) : conn_level i (ret a).
Proof. intros w _. apply conn_step_refl. Qed.

Lemma cl_raise {A} i e : conn_level i (@raise A e).
Proof. intros w _. apply conn_step_refl. Qed.

Lemma cl_stuck {A} i s : conn_level i (@stuck_with A s).
Proof. intros w _. apply conn_step_refl. Qed.

Lemma cl_lift {A} i (r : res A) : conn_level i (lift r).
Proof. intros w _. apply conn_step_refl. Qed.

Lemma cl_bind {A B} i (m : M A) (k : A -> M B) :
  conn_level i m -> (forall a, conn_level i (k a)) -> conn_level i (bind m k).
Proof.
  intros Hm Hk w Hi. unfold bind. specialize (Hm w Hi).
  destruct (m w) as [[a|e|s] w1]; simpl in Hm; auto.
  eapply conn_step_trans; [exact Hm|]. apply Hk.
  rewrite (cs_ident _ _ Hm). exact Hi.
Qed.

Lemma cl_get_world {B} i (k : World -> M B) :
  (forall w, w_ident w = i -> conn_level i (k w)) ->
  conn_level i (bind get_world k).
Proof. intros Hk w Hi. unfold bind, get_world. now apply Hk. Qed.

Lemma cl_try_except {A} i (body : M A) guard handler :
  conn_level i body -> (forall e, conn_level i (handler e)) ->
  conn_level i (try_except body guard handler).
Proof.
  intros Hb Hh w Hi. unfold try_except. specialize (Hb w Hi).
  destruct (body w) as [[a|e|s] w1]; simpl in Hb; auto.
  destruct (guard e); auto.
  eapply conn_step_trans; [exact Hb|]. apply Hh.
  rewrite (cs_ident _ _ Hb). exact Hi.
Qed.

Lemma cl_try_finally {A} i (body : M A) fin :
  conn_level i body -> conn_level i fin -> conn_level i (try_finally body fin).
Proof.
  intros Hb Hf w Hi. unfold try_finally. specialize (Hb w Hi).
  destruct (body w) as [r w1]; simpl in Hb.
  assert (Hi1 : w_ident w1 = i) by (rewrite (cs_ident _ _ Hb); exact Hi).
  specialize (Hf w1 Hi1).
  destruct r as [a|e|s]; simpl; auto;
    destruct (fin w1) as [[u|e'|s'] w2]; simpl in *;
    eapply conn_step_trans; eauto.
Qed.

Lemma cl_emit i ev : conn_level i (modify (emit ev)).
Proof. intros w _. apply conn_step_emit. Qed.

Lemma cl_load i self : conn_level i (load self).
Proof.
  intros w _. unfold load. destruct (nth_error (w_heap w) self); apply conn_step_refl.
Qed.

Lemma list_update_length {A} (l : list A) n x :
  List.length (list_update l n x) = List.length l.
Proof. revert n. induction l as [|a l IH]; intros [|n]; simpl; auto. Qed.

Lemma list_update_twice {A} (l : list A) n x y :
  list_update (list_update l n x) n y = list_update l n y.
Proof.
  revert n. induction l as [|a l IH]; intros [|n]; simpl; auto. now rewrite IH.
Qed.

Lemma list_update_other {A} (l : list A) n m x :
  n <> m -> nth_error (list_update l n x) m = nth_error l m.
Proof.
  revert n m. induction l as [|a l IH]; intros [|n] [|m] H; simpl; auto.
  contradiction.
Qed.

Lemma cl_store i self f :
  (forall c, c_backend (f c) = c_backend c) -> conn_level i (store self f).
Proof.
  intros Hf w _. unfold store. mrun.
  destruct (nth_error (w_heap w) self) as [c|] eqn:E; [|apply conn_step_refl].
  constructor; simpl; auto.
  - now exists [].
  - now rewrite list_update_length.
  - intros a c0 Ha. destruct (Nat.eq_dec self a) as [->|Hne].
    + rewrite (list_update_same _ _ _ _ Ha). exists (f c). split; auto.
      rewrite Hf. congruence.
    + rewrite (list_update_other _ _ _ _ Hne). now exists c0.
Qed.

Lemma cl_alloc i c : conn_level i (alloc c).
Proof.
  intros w _. unfold alloc. constructor; simpl; auto.
  - now exists [].
  - rewrite length_app. lia.
  - intros a c0 Ha. exists c0. split; auto.
    rewrite nth_error_app1; auto. apply nth_error_Some. congruence.
Qed.

Lemma cl_time env i : conn_level i (time_time env).
Proof. intros w _. apply conn_step_emit. Qed.

Lemma cl_driver_connect env i k : conn_level i (driver_connect env k).
Proof.
  intros w _. unfold driver_connect.
  destruct (env_connect env (w_trace w) k); apply conn_step_emit.
Qed.

Lemma cl_handle_commit env i h : conn_level i (handle_commit env h).
Proof.
  intros w _. unfold handle_commit.
  destruct (env_commit env (w_trace w) h); apply conn_step_emit.
Qed.

Lemma cl_handle_cursor i h : conn_level i (handle_cursor h).
Proof. intros w _. apply conn_step_emit. Qed.

Lemma cl_cursor_execute env i cur q params :
  conn_level i (cursor_execute env cur q params).
Proof.
  intros w _. unfold cursor_execute.
  destruct (env_execute env (w_trace w) (cur_handle cur) q params); apply conn_step_emit.
Qed.

Lemma cl_fetchone_0 i cur : conn_level i (fetchone_0 cur).
Proof.
  unfold fetchone_0.
  destruct (result_rows (cur_state cur)) as [|[|v r] rest];
    [destruct (description (cur_state cur))| |];
    first [apply cl_ret | apply cl_raise].
Qed.

Lemma cl_rows_of_cursor i cur cls : conn_level i (rows_of_cursor cur cls).
Proof.
  unfold rows_of_cursor.
  destruct (description (cur_state cur)); first [apply cl_ret | apply cl_raise].
Qed.

Create HintDb frame.
#[local] Hint Resolve cl_ret cl_raise cl_stuck cl_lift cl_emit cl_load cl_alloc
  cl_time cl_driver_connect cl_handle_commit cl_handle_cursor cl_cursor_execute
  cl_fetchone_0 cl_rows_of_cursor : frame.

(** Takes a composite computation apart. *)
Ltac frame_step :=
  match goal with
  | |- conn_level _ (bind get_world _) => apply cl_get_world; intros
  | |- conn_level _ (bind _ _) => apply cl_bind; [|intros]
  | |- conn_level _ (try_except _ _ _) => apply cl_try_except; [|intros]
  | |- conn_level _ (try_finally _ _) => apply cl_try_finally
  | |- conn_level _ (store _ _) => apply cl_store; intros []; reflexivity
  | |- conn_level _ (match ?x with _ => _ end) => destruct x
  | |- conn_level _ (logging _ _) => apply cl_emit
  | |- conn_level _ (handle_close _) => apply cl_emit
  | |- conn_level _ (handle_rollback _) => apply cl_emit
  | |- conn_level _ (cursor_close _) => apply cl_emit
  | |- _ => solve [auto with frame]
  end.
Ltac frame := repeat frame_step.

(** ** Connection code takes connection steps *)

Lemma tget_tset_other {V} (d : tdict V) k v i :
  i <> k -> tget (tset d k v) i = tget d i.
Proof.
  intros Hne. unfold tget, tset. induction d as [|[k' v'] d IH]; simpl.
  - destruct (Nat.eqb i k) eqn:E; auto. apply Nat.eqb_eq in E. contradiction.
  - destruct (Nat.eqb k k') eqn:E; simpl.
    + destruct (Nat.eqb i k') eqn:E'; auto.
      apply Nat.eqb_eq in E, E'. congruence.
    + destruct (Nat.eqb i k'); auto.
Qed.

Lemma cl_set_pg_threads i (X : World -> sdict nat) :
  conn_level i (modify (fun w => with_pg_threads w (tset (w_pg_threads w) i (X w)))).
Proof.
  intros w Hi. unfold modify. constructor; simpl; auto.
  - now exists [].
  - intros a c H. now exists c.
  - intros j Hj. apply tget_tset_other. congruence.
Qed.

Lemma cl_set_my_threads i (X : World -> sdict nat) :
  conn_level i (modify (fun w => with_my_threads w (tset (w_my_threads w) i (X w)))).
Proof.
  intros w Hi. unfold modify. constructor; simpl; auto.
  - now exists [].
  - intros a c H. now exists c.
  - intros j Hj. apply tget_tset_other. congruence.
Qed.

Section PgSteps.
Variable env : Env.
Variable i : nat.

Lemma cl_Pg_close self : conn_level i (Pg.close self).
Proof. unfold Pg.close. frame. Qed.

Lemma cl_Pg_reconnect self : conn_level i (Pg.reconnect env self).
Proof. unfold Pg.reconnect. pose proof cl_Pg_close. frame. Qed.

Lemma cl_Pg_init hostname port database username password max_idle :
  conn_level i (Pg.init env hostname port database username password max_idle).
Proof. unfold Pg.init. pose proof cl_Pg_reconnect. frame. Qed.

Lemma cl_Pg_ensure_connected self : conn_level i (Pg._ensure_connected env self).
Proof. unfold Pg._ensure_connected. pose proof cl_Pg_reconnect. frame. Qed.

Lemma cl_Pg_cursor self : conn_level i (Pg._cursor env self).
Proof. unfold Pg._cursor. pose proof cl_Pg_ensure_connected. frame. Qed.

Lemma cl_Pg_rollback self : conn_level i (Pg.rollback self).
Proof. unfold Pg.rollback. frame. Qed.

Lemma cl_Pg_execute_ self cursor q params :
  conn_level i (Pg._execute env self cursor q params).
Proof.
  unfold Pg._execute. pose proof cl_Pg_close. pose proof cl_Pg_rollback. frame.
Qed.

Lemma cl_Pg_query self q params cls : conn_level i (Pg.query env self q params cls).
Proof. unfold Pg.query. pose proof cl_Pg_cursor. pose proof cl_Pg_execute_. frame. Qed.

Lemma cl_Pg_get self q params cls : conn_level i (Pg.get env self q params cls).
Proof. unfold Pg.get. pose proof cl_Pg_query. frame. Qed.

Lemma cl_Pg_execute_lastrowid self q params :
  conn_level i (Pg.execute_lastrowid env self q params).
Proof.
  unfold Pg.execute_lastrowid. pose proof cl_Pg_cursor. pose proof cl_Pg_execute_.
  frame.
Qed.

Lemma cl_Pg_execute_rowcount self q params :
  conn_level i (Pg.execute_rowcount env self q params).
Proof.
  unfold Pg.execute_rowcount. pose proof cl_Pg_cursor. pose proof cl_Pg_execute_.
  frame.
Qed.

Lemma cl_Pg_execute self q params : conn_level i (Pg.execute env self q params).
Proof.
  unfold Pg.execute.
  pose proof cl_Pg_execute_lastrowid. pose proof cl_Pg_execute_rowcount. frame.
Qed.

End PgSteps.

Lemma cl_Pg_connect env i kw force : conn_level i (Pg.connect env kw force).
Proof.
  unfold Pg.connect.
  pose proof (cl_Pg_init env i).
  destruct kw as [[[[[d h] u] p] port]|]; cbv beta iota zeta;
    (destruct force; [auto|]);
    apply cl_get_world; intros w Hw; rewrite Hw; frame;
    first [ apply (cl_set_pg_threads i (fun _ => []))
          | apply (cl_set_pg_threads i
                     (fun w0 => sset match tget (w_pg_threads w0) i with
                                     | Some d0 => d0
                                     | None => []
                                     end _ _)) ].
Qed.

Section MySteps.
Variable env : Env.
Variable i : nat.

Lemma cl_My_close self : conn_level i (My.close self).
Proof. unfold My.close. frame. Qed.

Lemma cl_My_execute_ self cursor q params :
  conn_level i (My._execute env self cursor q params).
Proof. unfold My._execute. pose proof cl_My_close. frame. Qed.

Section Cycle.
Variable ensure_connected : nat -> M unit.
Hypothesis cl_ensure : forall self, conn_level i (ensure_connected self).

Lemma cl_My_cursor_in self : conn_level i (My._cursor_in ensure_connected self).
Proof. unfold My._cursor_in. frame. Qed.

Lemma cl_My_execute_lastrowid_in self q params :
  conn_level i (My.execute_lastrowid_in env ensure_connected self q params).
Proof.
  unfold My.execute_lastrowid_in.
  pose proof cl_My_cursor_in. pose proof cl_My_execute_. frame.
Qed.

Lemma cl_My_reconnect_in self :
  conn_level i (My.reconnect_in env ensure_connected self).
Proof.
  unfold My.reconnect_in, My.execute_in.
  pose proof cl_My_close. pose proof cl_My_execute_lastrowid_in. frame.
Qed.

End Cycle.

Lemma cl_My_ensure_connected fuel self :
  conn_level i (My._ensure_connected env fuel self).
Proof.
  revert self. induction fuel as [|fuel IH]; intros self; simpl.
  - apply cl_stuck.
  - pose proof (cl_My_reconnect_in _ IH). frame.
Qed.

Lemma cl_My_reconnect fuel self : conn_level i (My.reconnect env fuel self).
Proof. apply cl_My_reconnect_in, cl_My_ensure_connected. Qed.

Lemma cl_My_cursor fuel self : conn_level i (My._cursor env fuel self).
Proof. apply cl_My_cursor_in, cl_My_ensure_connected. Qed.

Lemma cl_My_execute_lastrowid fuel self q params :
  conn_level i (My.execute_lastrowid env fuel self q params).
Proof. apply cl_My_execute_lastrowid_in, cl_My_ensure_connected. Qed.

Lemma cl_My_execute fuel self q params :
  conn_level i (My.execute env fuel self q params).
Proof. apply cl_My_execute_lastrowid. Qed.

Lemma cl_My_execute_rowcount fuel self q params :
  conn_level i (My.execute_rowcount env fuel self q params).
Proof.
  unfold My.execute_rowcount.
  pose proof cl_My_cursor. pose proof cl_My_execute_. frame.
Qed.

Lemma cl_My_init fuel host database user password max_idle :
  conn_level i (My.init env fuel host database user password max_idle).
Proof. unfold My.init. pose proof cl_My_reconnect. frame. Qed.

Lemma cl_My_connect fuel kw force : conn_level i (My.connect env fuel kw force).
Proof.
  unfold My.connect.
  pose proof cl_My_init. pose proof cl_My_execute.
  destruct kw as [[[[h s] u] p]|]; cbv beta iota zeta;
    (destruct force; [auto|]);
    apply cl_get_world; intros w Hw; rewrite Hw; frame;
    first [ apply (cl_set_my_threads i (fun _ => []))
          | apply (cl_set_my_threads i
                     (fun w0 => sset match tget (w_my_threads w0) i with
                                     | Some d0 => d0
                                     | None => []
                                     end _ _)) ].
Qed.

Lemma cl_My_query fuel self q params cls :
  conn_level i (My.query env fuel self q params cls).
Proof. unfold My.query. pose proof cl_My_cursor. pose proof cl_My_execute_. frame. Qed.

Lemma cl_My_get fuel self q params cls :
  conn_level i (My.get env fuel self q params cls).
Proof. unfold My.get. pose proof cl_My_query. frame. Qed.

End MySteps.

Lemma cl_conn_execute env i fuel conn q params :
  conn_level i (conn_execute env fuel conn q params).
Proof.
  unfold conn_execute.
  pose proof (cl_Pg_execute env i). pose proof (cl_My_execute env i). frame.
Qed.

Lemma cl_conn_execute_rowcount env i fuel conn q params :
  conn_level i (conn_execute_rowcount env fuel conn q params).
Proof.
  unfold conn_execute_rowcount.
  pose proof (cl_Pg_execute_rowcount env i). pose proof (cl_My_execute_rowcount env i).
  frame.
Qed.

Lemma cl_conn_query env i fuel conn q params cls :
  conn_level i (conn_query env fuel conn q params cls).
Proof.
  unfold conn_query.
  pose proof (cl_Pg_query env i). pose proof (cl_My_query env i). frame.
Qed.

Lemma cl_conn_get env i fuel conn q params cls :
  conn_level i (conn_get env fuel conn q params cls).
Proof.
  unfold conn_get.
  pose proof (cl_Pg_get env i). pose proof (cl_My_get env i). frame.
Qed.

(** ** Code that goes through [db()] takes registry steps *)

Lemma db_step_of_conn w w' : conn_step w w' -> db_step w w'.
Proof.
  intros [I D T L H P M]. constructor; auto. intros i _. now rewrite D.
Qed.

Lemma db_step_refl w : db_step w w.
Proof. apply db_step_of_conn, conn_step_refl. Qed.

Lemma db_step_trans w1 w2 w3 : db_step w1 w2 -> db_step w2 w3 -> db_step w1 w3.
Proof.
  intros [I1 [l1 T1] L1 H1 D1 P1 M1] [I2 [l2 T2] L2 H2 D2 P2 M2].
  constructor.
  - congruence.
  - exists (l2 ++ l1)%list. rewrite T2, T1. now rewrite app_assoc.
  - lia.
  - intros a c Ha. destruct (H1 a c Ha) as [c1 [Hc1 B1]].
    destruct (H2 a c1 Hc1) as [c2 [Hc2 B2]]. exists c2. split; congruence.
  - intros i Hi. rewrite D2 by congruence. now apply D1.
  - intros i Hi. rewrite P2 by congruence. now apply P1.
  - intros i Hi. rewrite M2 by congruence. now apply M1.
Qed.

Lemma dl_of_cl {A} i (m : M A) : conn_level i m -> db_level i m.
Proof. intros H w Hi. apply db_step_of_conn. now apply H. Qed.

Lemma dl_bind {A B} i (m : M A) (k : A -> M B) :
  db_level i m -> (forall a, db_level i (k a)) -> db_level i (bind m k).
Proof.
  intros Hm Hk w Hi. unfold bind. specialize (Hm w Hi).
  destruct (m w) as [[a|e|s] w1]; simpl in Hm; auto.
  eapply db_step_trans; [exact Hm|]. apply Hk.
  rewrite (ds_ident _ _ Hm). exact Hi.
Qed.

Lemma dl_get_world {B} i (k : World -> M B) :
  (forall w, w_ident w = i -> db_level i (k w)) ->
  db_level i (bind get_world k).
Proof. intros Hk w Hi. unfold bind, get_world. now apply Hk. Qed.

Lemma dl_set_dbconns i (X : World -> sdict nat) :
  db_level i
    (modify (fun w => with_dbconns w (tset (w_dbconns w) (w_ident w) (X w)))).
Proof.
  intros w Hi. unfold modify. constructor; simpl; auto.
  - now exists [].
  - intros a c H. now exists c.
  - intros j Hj. apply tget_tset_other. exact Hj.
Qed.

Lemma dl_databases i : db_level i databases.
Proof.
  apply dl_of_cl. unfold databases. apply cl_get_world. intros w Hw. frame.
Qed.

Lemma dl_databases_set i k conn : db_level i (databases_set k conn).
Proof.
  unfold databases_set. apply dl_bind; [apply dl_databases|].
  intros d. apply (dl_set_dbconns i (fun _ => sset d k conn)).
Qed.

(** Takes a composite computation through [db()] apart. *)
Ltac dframe_step :=
  match goal with
  | |- db_level _ (bind get_world _) => apply dl_get_world; intros
  | |- db_level _ (bind _ _) => apply dl_bind; [|intros]
  | |- db_level _ (match ?x with _ => _ end) => destruct x
  | |- db_level _ _ => solve [auto | apply dl_of_cl; frame]
  end.
Ltac dframe := repeat dframe_step.

Lemma dl_db env i fuel use_schema : db_level i (db env fuel use_schema).
Proof.
  unfold db, db_init, db_postgres, db_mysql, db_lookup.
  pose proof (dl_databases i). pose proof (dl_databases_set i).
  pose proof (cl_Pg_connect env i). pose proof (cl_My_connect env i).
  pose proof (dl_set_dbconns i (fun _ => [])).
  dframe.
Qed.

Lemma dl_insert_columns env i fuel cls sql_txt columns :
  db_level i (Row.insert_columns env fuel cls sql_txt columns).
Proof.
  unfold Row.insert_columns, Row.stdlib_logw.
  pose proof (dl_db env i). pose proof (cl_conn_execute env i).
  destruct (Row.kva_split columns) as [[keys values] args].
  dframe.
Qed.

Lemma dl_update_columns env i fuel cls columns where_ :
  db_level i (Row.update_columns env fuel cls columns where_).
Proof.
  unfold Row.update_columns.
  pose proof (dl_db env i). pose proof (cl_conn_execute_rowcount env i).
  destruct columns as [|kv columns]; [dframe|].
  destruct (Row.kva_split (kv :: columns)) as [[keys values] args].
  destruct (Row.kva_split where_) as [[keys2 values2] args2].
  dframe.
Qed.

Lemma dl_scan_id env i fuel cls column row_id :
  db_level i (Row.scan_id env fuel cls column row_id).
Proof.
  unfold Row.scan_id. pose proof (dl_db env i). pose proof (cl_conn_query env i).
  dframe.
Qed.

Lemma dl_map_id env i fuel cls row_id where_col key_col debug :
  db_level i (Row.map_id env fuel cls row_id where_col key_col debug).
Proof.
  unfold Row.map_id, Row.logw. pose proof (dl_scan_id env i). dframe.
Qed.

Lemma dl_get_id env i fuel cls column_id_val member_id :
  db_level i (Row.get_id env fuel cls column_id_val member_id).
Proof.
  unfold Row.get_id. pose proof (dl_db env i). pose proof (cl_conn_get env i).
  dframe.
Qed.

Lemma dl_dbnow env i fuel use_schema : db_level i (dbnow env fuel use_schema).
Proof.
  unfold dbnow. pose proof (dl_db env i). pose proof (cl_conn_get env i). dframe.
Qed.

Lemma dl_SqlDiff env i fuel name :
  db_level i (SqlDiff.create_table env fuel) /\
  db_level i (SqlDiff.insert env fuel name) /\
  db_level i (SqlDiff.scan env fuel) /\
  db_level i (SqlDiff.mark_applied env fuel name) /\
  db_level i (SqlDiff.scan_unapplied env fuel).
Proof.
  unfold SqlDiff.create_table, SqlDiff.insert, SqlDiff.scan, SqlDiff.mark_applied,
    SqlDiff.scan_unapplied.
  pose proof (dl_db env i). pose proof (cl_conn_execute env i).
  pose proof (cl_conn_query env i).
  split; [|split; [|split; [|split]]]; dframe.
Qed.

(* ===================================================================== *)
(** ** PostgresConnection: close, reconnect, construction *)

Lemma nth_error_snoc {A} (l : list A) x :
  nth_error (l ++ [x]) (List.length l) = Some x.
Proof. rewrite nth_error_app2 by lia. now rewrite Nat.sub_diag. Qed.

(** X1: [close()] twice is [close()] once: the second call finds [_db] None and
    does nothing. *)
Theorem Pg_close_idempotent (self : nat) (w : World) :
  (Pg.close self ;; Pg.close self) w = Pg.close self w.
Proof.
  unfold Pg.close. mrun.
  destruct (nth_error (w_heap w) self) as [c|] eqn:Hc; [|reflexivity].
  destruct (c_db c) as [h|] eqn:Hh; mrun.
  - rewrite Hc. mrun. rewrite (list_update_same _ _ _ _ Hc). reflexivity.
  - rewrite Hc, Hh. reflexivity.
Qed.

(** X2: [reconnect()] closes the old handle first; then either the driver
    connects and [_db] is the new handle, or the driver's exception
    propagates and [_db] is None: a closed handle is never left in [_db]. *)
Theorem Pg_reconnect_outcome (env : Env) (self : nat) (w : World) (c : Connection) :
  nth_error (w_heap w) self = Some c ->
  let closed :=
    match c_db c with Some h => EvClose h :: w_trace w | None => w_trace w end in
  match env_connect env closed Postgres with
  | None =>
      fst (Pg.reconnect env self w) = Ok tt /\
      nth_error (w_heap (snd (Pg.reconnect env self w))) self
        = Some (with_db c (Some (List.length closed)))
  | Some e =>
      fst (Pg.reconnect env self w) = Raise e /\
      nth_error (w_heap (snd (Pg.reconnect env self w))) self
        = Some (with_db c None)
  end /\
  w_trace (snd (Pg.reconnect env self w)) = EvConnect Postgres :: closed.
Proof.
  intros Hc closed. unfold closed, Pg.reconnect, Pg.close. mrun. rewrite Hc.
  destruct (c_db c) as [h|] eqn:Hh; mrun.
  - rewrite Hc. mrun.
    destruct (env_connect env (EvClose h :: w_trace w) Postgres) as [e|]; mrun.
    + rewrite (list_update_same _ _ _ _ Hc). repeat split.
    + rewrite (list_update_same _ _ _ _ Hc). mrun.
      rewrite (list_update_same _ _ _ _ (list_update_same _ _ _ _ Hc)).
      repeat split.
  - destruct (env_connect env (w_trace w) Postgres) as [e|]; mrun.
    + rewrite Hc. repeat split. destruct c; simpl in Hh; subst; reflexivity.
    + rewrite Hc. mrun. rewrite (list_update_same _ _ _ _ Hc). repeat split.
Qed.

Lemma Pg_reconnect_outcome_witness :
  fst (Pg.reconnect (Scenario.steady 100 Scenario.nothing_affected) 0
         (Scenario.connected Postgres 90)) = Ok tt /\
  option_map c_db
    (nth_error (w_heap (snd (Pg.reconnect (Scenario.steady 100 Scenario.nothing_affected) 0
                               (Scenario.connected Postgres 90)))) 0)
    = Some (Some 1%nat).
Proof.
  destruct (Pg_reconnect_outcome (Scenario.steady 100 Scenario.nothing_affected) 0
              (Scenario.connected Postgres 90) _ eq_refl) as [[H1 H2] _].
  split; [exact H1|]. rewrite H2. reflexivity.
Defined.

(** X3: The constructor never raises: it returns the new object whether or not
    the driver connects; on failure the error is logged and the object is
    left unconnected ([_db] None), to be connected on first use. *)
Theorem Pg_init_never_raises (env : Env) hostname port database username password
    max_idle (w : World) :
  let self := List.length (w_heap w) in
  let r := Pg.init env hostname port database username password max_idle w in
  fst r = Ok self /\
  nth_error (w_heap w) self = None /\
  match env_connect env (EvTime :: w_trace w) Postgres with
  | None =>
      option_map c_db (nth_error (w_heap (snd r)) self)
        = Some (Some (S (List.length (w_trace w))))
  | Some _ =>
      option_map c_db (nth_error (w_heap (snd r)) self) = Some None /\
      w_trace (snd r) =
        EvLog LError "Cannot connect to PostgreSQL: %s"
          :: EvConnect Postgres :: EvTime :: w_trace w
  end.
Proof.
  cbv zeta. unfold Pg.init, Pg.reconnect, Pg.close. mrun.
  rewrite nth_error_snoc. cbn [c_db]. mrun.
  split; [|split].
  - destruct (env_connect env (EvTime :: w_trace w) Postgres); mrun;
      rewrite ?nth_error_snoc; reflexivity.
  - apply nth_error_None. lia.
  - destruct (env_connect env (EvTime :: w_trace w) Postgres); mrun.
    + split; [|reflexivity]. now rewrite nth_error_snoc.
    + rewrite nth_error_snoc. mrun.
      now rewrite (list_update_same _ _ _ _ (nth_error_snoc _ _)).
Qed.

(* ===================================================================== *)
(** ** PostgresConnection: connecting on use, errors, cursors *)

(** X4: An unconnected object connects on its next use without reading the clock
    first; if the driver fails, its exception propagates and the object stays
    unconnected, with [_last_use_time] untouched. *)
Theorem Pg_ensure_connected_unconnected (env : Env) (self : nat) (w : World)
    (c : Connection) :
  nth_error (w_heap w) self = Some c ->
  c_db c = None ->
  match env_connect env (w_trace w) Postgres with
  | None =>
      fst (Pg._ensure_connected env self w) = Ok tt /\
      w_trace (snd (Pg._ensure_connected env self w))
        = EvTime :: EvConnect Postgres :: w_trace w /\
      nth_error (w_heap (snd (Pg._ensure_connected env self w))) self
        = Some (with_last_use_time
                  (with_db c (Some (List.length (w_trace w))))
                  (env_time env (EvConnect Postgres :: w_trace w)))
  | Some e =>
      Pg._ensure_connected env self w = (Raise e, emit (EvConnect Postgres) w)
  end.
Proof.
  intros Hc Hh. unfold Pg._ensure_connected, Pg.reconnect, Pg.close. mrun.
  rewrite Hc, Hh. mrun. rewrite Hc, Hh. mrun.
  destruct (env_connect env (w_trace w) Postgres) as [e|]; mrun; [reflexivity|].
  rewrite Hc. mrun. rewrite (list_update_same _ _ _ _ Hc). mrun.
  rewrite (list_update_same _ _ _ _ (list_update_same _ _ _ _ Hc)).
  repeat split.
Qed.

Lemma Pg_ensure_connected_unconnected_witness :
  let w := snd (Pg.init Scenario.unreachable None 5432 "alpha" None None 25200
                  Scenario.blank) in
  Pg._ensure_connected Scenario.unreachable 0 w
    = (Raise OperationalError, emit (EvConnect Postgres) w).
Proof.
  cbv zeta.
  exact (Pg_ensure_connected_unconnected Scenario.unreachable 0
           (snd (Pg.init Scenario.unreachable None 5432 "alpha" None None 25200
                   Scenario.blank)) _ eq_refl eq_refl).
Defined.



(** X6: Every statement that the server accepts is committed at once, on the
    connection's handle, before [_execute] returns. *)
Theorem Pg_execute_commits (env : Env) (self : nat) (cursor : Cursor)
    (q : string) (params : list value) (w : World) (c : Connection) (h : nat)
    (st : cursor_state) :
  nth_error (w_heap w) self = Some c ->
  c_db c = Some h ->
  env_execute env (w_trace w) (cur_handle cursor) q params = ExecOk st ->
  env_commit env (EvExecute (cur_handle cursor) q params :: w_trace w) h = None ->
  Pg._execute env self cursor q params w =
    (Ok {| cur_handle := cur_handle cursor; cur_state := st |},
     emit (EvCommit h) (emit (EvExecute (cur_handle cursor) q params) w)).
Proof.
  intros Hc Hh He Hcommit. unfold Pg._execute. mrun.
  rewrite He. mrun. rewrite Hc, Hh. mrun. rewrite Hcommit. reflexivity.
Qed.

Lemma Pg_execute_commits_witness :
  w_trace (snd (Pg._execute (Scenario.steady 100 Scenario.updated_3) 0
                  {| cur_handle := 0; cur_state := fresh_cursor_state |}
                  Scenario.update_sql Scenario.a_name (Scenario.connected Postgres 90)))
  = [EvCommit 0; EvExecute 0 Scenario.update_sql Scenario.a_name].
Proof.
  rewrite (Pg_execute_commits (Scenario.steady 100 Scenario.updated_3) 0
             {| cur_handle := 0; cur_state := fresh_cursor_state |}
             Scenario.update_sql Scenario.a_name (Scenario.connected Postgres 90)
             _ 0%nat Scenario.updated_3 eq_refl eq_refl eq_refl eq_refl).
  reflexivity.
Defined.

(** Once [_cursor] has returned, the object exists and the cursor is on its
    current handle. *)
Lemma Pg_cursor_inv env self w cursor w1 :
  Pg._cursor env self w = (Ok cursor, w1) ->
  exists c, nth_error (w_heap w1) self = Some c /\ c_db c = Some (cur_handle cursor).
Proof.
  unfold Pg._cursor. unfold bind at 1.
  destruct (Pg._ensure_connected env self w) as [[u|e|s] w0]; try discriminate.
  mrun. destruct (nth_error (w_heap w0) self) as [c|] eqn:Hc; try discriminate.
  destruct (c_db c) as [h|] eqn:Hh; mrun; intros H; inversion H; subst.
  exists c. simpl. auto.
Qed.

Lemma Pg_execute_not_stuck env self cursor q params w c :
  nth_error (w_heap w) self = Some c ->
  forall s, fst (Pg._execute env self cursor q params w) <> Stuck s.
Proof.
  intros Hc s. unfold Pg._execute, Pg.close, Pg.rollback. mrun.
  destruct (env_execute env (w_trace w) (cur_handle cursor) q params) as [st|e]; mrun.
  - rewrite Hc. destruct (c_db c) as [h|] eqn:Hh; mrun.
    + destruct (env_commit env _ h) as [e|]; mrun; [|discriminate].
      destruct (is_psycopg2_Error e); mrun; [|discriminate].
      destruct (is_OperationalError e); mrun; rewrite Hc, Hh; mrun;
        rewrite ?Hc; discriminate.
    + discriminate.
  - destruct (is_psycopg2_Error e); mrun; [|discriminate].
    destruct (is_OperationalError e); mrun; rewrite Hc;
      destruct (c_db c); mrun; rewrite ?Hc; discriminate.
Qed.

(** [try: ... finally: cursor.close()] around a body that does not get
    stuck. *)
Lemma finally_cursor_close {A} (body : M A) cursor w :
  (forall s, fst (body w) <> Stuck s) ->
  try_finally body (cursor_close cursor) w =
    (fst (body w), emit (EvCursorClose (cur_handle cursor)) (snd (body w))).
Proof.
  intros H. unfold try_finally, cursor_close. mrun.
  destruct (body w) as [[a|e|s] w2]; simpl in *; auto.
  exfalso. eapply H. reflexivity.
Qed.

Lemma bind_pure_not_stuck {A B} (m : M A) (k : A -> M B) w :
  (forall s, fst (m w) <> Stuck s) ->
  (forall a w' s, fst (k a w') <> Stuck s) ->
  forall s, fst (bind m k w) <> Stuck s.
Proof.
  intros Hm Hk s. unfold bind. destruct (m w) as [[a|e|s'] w2]; simpl in *.
  - apply Hk.
  - discriminate.
  - exfalso. eapply Hm. reflexivity.
Qed.

(** X7: The cursor is released on every exit path: whether the statement runs,
    the driver raises, or the result cannot be read, the last thing [query],
    [execute_lastrowid] and [execute_rowcount] do is close the cursor they
    acquired. *)
Theorem Pg_cursor_always_closed (env : Env) (self : nat) (q : string)
    (params : list value) (cls : option string) (w : World) (cursor : Cursor)
    (w1 : World) :
  Pg._cursor env self w = (Ok cursor, w1) ->
  (exists w2, snd (Pg.query env self q params cls w)
              = emit (EvCursorClose (cur_handle cursor)) w2) /\
  (exists w2, snd (Pg.execute_lastrowid env self q params w)
              = emit (EvCursorClose (cur_handle cursor)) w2) /\
  (exists w2, snd (Pg.execute_rowcount env self q params w)
              = emit (EvCursorClose (cur_handle cursor)) w2).
Proof.
  intros Hcur. destruct (Pg_cursor_inv _ _ _ _ _ Hcur) as [c [Hc _]].
  pose proof (Pg_execute_not_stuck env self cursor q params w1 c Hc) as Hns.
  split; [|split].
  - unfold Pg.query. rewrite (bind_ok _ _ _ _ _ Hcur).
    rewrite finally_cursor_close; [eexists; reflexivity|].
    apply bind_pure_not_stuck; auto.
    intros a w' s. unfold rows_of_cursor.
    destruct (description (cur_state a)); discriminate.
  - unfold Pg.execute_lastrowid. rewrite (bind_ok _ _ _ _ _ Hcur).
    rewrite finally_cursor_close; [eexists; reflexivity|].
    apply bind_pure_not_stuck; auto.
    intros a w' s. destruct (rowcount (cur_state a) >? 0); [|discriminate].
    unfold fetchone_0.
    destruct (result_rows (cur_state a)) as [|[|v r] rest];
      [destruct (description (cur_state a))| |]; discriminate.
  - unfold Pg.execute_rowcount. rewrite (bind_ok _ _ _ _ _ Hcur).
    rewrite finally_cursor_close; [eexists; reflexivity|].
    apply bind_pure_not_stuck; auto. intros a w' s. discriminate.
Qed.

(** A refused statement: the error comes out of [query], the cursor is
    closed all the same. *)
Lemma Pg_cursor_always_closed_witness :
  exists w2,
    snd (Pg.query (Scenario.refusing DatabaseError) 0 Scenario.select_sql
           Scenario.a_name None (Scenario.connected Postgres 90))
    = emit (EvCursorClose 0) w2.
Proof.
  exact (proj1 (Pg_cursor_always_closed (Scenario.refusing DatabaseError) 0
                  Scenario.select_sql Scenario.a_name None
                  (Scenario.connected Postgres 90) _ _ eq_refl)).
Defined.

(** X8: [query] on a statement that yields no result set (an UPDATE, say) raises
    TypeError, but only after the statement was executed and committed. *)
Theorem Pg_query_without_result_set (env : Env) (self : nat) (q : string)
    (params : list value) (cls : option string) (w : World) (cursor : Cursor)
    (w1 : World) (cur : Cursor) (w2 : World) :
  Pg._cursor env self w = (Ok cursor, w1) ->
  Pg._execute env self cursor q params w1 = (Ok cur, w2) ->
  description (cur_state cur) = None ->
  Pg.query env self q params cls w =
    (Raise TypeError, emit (EvCursorClose (cur_handle cursor)) w2).
Proof.
  intros Hc He Hd. rewrite (Pg_query_run _ _ _ _ _ _ _ _ _ _ Hc He).
  unfold rows_of_cursor. now rewrite Hd.
Qed.

Lemma Pg_query_without_result_set_witness :
  fst (Pg.query (Scenario.steady 100 Scenario.updated_3) 0 Scenario.update_sql
         Scenario.a_name None (Scenario.connected Postgres 90)) = Raise TypeError /\
  In (EvCommit 0)
     (w_trace (snd (Pg.query (Scenario.steady 100 Scenario.updated_3) 0
                      Scenario.update_sql Scenario.a_name None
                      (Scenario.connected Postgres 90)))).
Proof.
  rewrite (Pg_query_without_result_set (Scenario.steady 100 Scenario.updated_3) 0
             Scenario.update_sql Scenario.a_name None
             (Scenario.connected Postgres 90) _ _ _ _ eq_refl eq_refl eq_refl).
  split; [reflexivity|]. simpl. auto.
Defined.

(* ===================================================================== *)
(** ** MysqlConnection: errors, reconnection *)

(** X9: [_execute] on a connected MySQL object: a statement the server accepts
    is not followed by a commit (the handle is opened with autocommit); an
    OperationalError closes the handle and clears [_db]; any other exception
    passes through with the connection as it was, without rollback. *)
Theorem My_execute_outcomes (env : Env) (self : nat) (cursor : Cursor)
    (q : string) (params : list value) (w : World) (c : Connection) (h : nat) :
  nth_error (w_heap w) self = Some c ->
  c_db c = Some h ->
  let r := My._execute env self cursor q params w in
  let ran := emit (EvExecute (cur_handle cursor) q params) w in
  match env_execute env (w_trace w) (cur_handle cursor) q params with
  | ExecOk st =>
      r = (Ok {| cur_handle := cur_handle cursor; cur_state := st |}, ran)
  | ExecRaise e =>
      fst r = Raise e /\
      if is_OperationalError e then
        w_trace (snd r)
          = EvClose h :: EvLog LError "Error connecting to MySQL on %s" :: w_trace ran /\
        nth_error (w_heap (snd r)) self = Some (with_db c None)
      else snd r = ran
  end.
Proof.
  intros Hc Hh. cbv zeta. unfold My._execute, My.close. mrun.
  destruct (env_execute env (w_trace w) (cur_handle cursor) q params) as [st|e];
    mrun; [reflexivity|].
  destruct (is_OperationalError e); mrun; [|split; reflexivity].
  rewrite Hc, Hh. mrun. rewrite Hc. mrun.
  rewrite (list_update_same _ _ _ _ Hc). repeat split.
Qed.

Lemma My_execute_outcomes_witness :
  let r := My._execute (Scenario.refusing OperationalError) 0
             {| cur_handle := 0; cur_state := fresh_cursor_state |}
             Scenario.update_sql Scenario.a_name (Scenario.connected Mysql 90) in
  fst r = Raise OperationalError /\
  option_map c_db (nth_error (w_heap (snd r)) 0) = Some None.
Proof.
  cbv zeta.
  pose proof (My_execute_outcomes (Scenario.refusing OperationalError) 0
                {| cur_handle := 0; cur_state := fresh_cursor_state |}
                Scenario.update_sql Scenario.a_name (Scenario.connected Mysql 90)
                _ 0%nat eq_refl eq_refl) as H.
  cbv zeta in H. simpl env_execute in H. simpl is_OperationalError in H.
  destruct H as [H1 [_ H2]]. split; [exact H1|]. rewrite H2. reflexivity.
Defined.

(** X10: An unconnected MySQL object, on its next use: the time is stamped, the
    driver connects, and the first statement on the new handle is the
    time-zone command, run through [execute] itself; the check nested in
    that call finds the fresh stamp and does not reconnect again. *)
Theorem My_ensure_connected_unconnected (env : Env) (fuel : nat) (self : nat)
    (w : World) (c : Connection) (st : cursor_state) :
  nth_error (w_heap w) self = Some c ->
  c_db c = None ->
  let stamp := env_time env (w_trace w) in
  let h := S (List.length (w_trace w)) in
  let connected := EvConnect Mysql :: EvTime :: w_trace w in
  env_connect env (EvTime :: w_trace w) Mysql = None ->
  env_time env connected - stamp <= c_max_idle_time c ->
  env_execute env (EvCursor h :: EvTime :: connected) h My._db_init_command []
    = ExecOk st ->
  My._ensure_connected env (S (S fuel)) self w =
    (Ok tt,
     with_heap
       (with_trace w
          (EvCursorClose h :: EvExecute h My._db_init_command []
             :: EvCursor h :: EvTime :: connected))
       (list_update (w_heap w) self
          (with_db (with_last_use_time c stamp) (Some h)))).
Proof.
  intros Hc Hh stamp h connected Hconn Hidle Hexec.
  assert (E : (env_time env connected - stamp >? c_max_idle_time c) = false).
  { rewrite Z.gtb_ltb. apply Z.ltb_ge. lia. }
  unfold stamp, h, connected in *.
  cbn [My._ensure_connected].
  unfold My.reconnect_in, My.execute_in, My.execute_lastrowid_in, My._cursor_in,
    My._execute, My.close.
  repeat (progress
    (mrun;
     cbn [c_db c_last_use_time c_max_idle_time with_db with_last_use_time
          List.length cur_handle cur_state];
     rewrite ?Hc, ?Hh, ?Hconn, ?E, ?Hexec,
       ?(list_update_same _ _ _ _ Hc),
       ?(list_update_same _ _ _ _ (list_update_same _ _ _ _ Hc)))).
  rewrite ?list_update_twice. reflexivity.
Qed.

Lemma My_ensure_connected_unconnected_witness :
  let w := snd (My.close 0 (Scenario.connected Mysql 90)) in
  w_trace (snd (My._ensure_connected (Scenario.steady 100 Scenario.nothing_affected)
                  2 0 w))
  = [EvCursorClose 2; EvExecute 2 My._db_init_command []; EvCursor 2; EvTime;
     EvConnect Mysql; EvTime; EvClose 0].
Proof.
  cbv zeta.
  rewrite (My_ensure_connected_unconnected
             (Scenario.steady 100 Scenario.nothing_affected) 0 0
             (snd (My.close 0 (Scenario.connected Mysql 90))) _
             Scenario.nothing_affected eq_refl eq_refl eq_refl
             ltac:(vm_compute; discriminate) eq_refl).
  reflexivity.
Defined.

(* ===================================================================== *)
(** ** Dicts built from pairs: the last pair of a key wins *)

Section DictFacts.
Context {K V : Type} (eqb : K -> K -> bool).
Hypothesis eqb_refl : forall k, eqb k k = true.
Hypothesis eqb_sym : forall a b, eqb a b = eqb b a.
Hypothesis eqb_trans : forall a b c, eqb a b = true -> eqb b c = true -> eqb a c = true.

Lemma dict_get_set (d : list (K * V)) k k' v :
  Dict.get eqb (Dict.set eqb d k' v) k =
  if eqb k k' then Some v else Dict.get eqb d k.
Proof.
  induction d as [|[k0 v0] d IH]; simpl; [reflexivity|].
  destruct (eqb k' k0) eqn:E0; simpl.
  - destruct (eqb k k0) eqn:E1.
    + assert (E2 : eqb k k' = true).
      { apply (eqb_trans k k0 k'); auto. now rewrite eqb_sym. }
      now rewrite E2.
    + destruct (eqb k k') eqn:E2; auto.
      rewrite (eqb_trans k k' k0 E2 E0) in E1. discriminate.
  - rewrite IH. destruct (eqb k k0) eqn:E1; auto.
    destruct (eqb k k') eqn:E2; auto.
    assert (E3 : eqb k' k0 = true).
    { apply (eqb_trans k' k k0); auto. now rewrite eqb_sym. }
    congruence.
Qed.

Lemma find_snoc {A} (f : A -> bool) l x :
  find f (l ++ [x]) =
  match find f l with Some y => Some y | None => if f x then Some x else None end.
Proof.
  induction l as [|a l IH]; simpl; auto. destruct (f a); auto.
Qed.

Lemma dict_get_fold (l : list (K * V)) acc k :
  Dict.get eqb (fold_left (fun d kv => Dict.set eqb d (fst kv) (snd kv)) l acc) k =
  match find (fun kv => eqb k (fst kv)) (rev l) with
  | Some kv => Some (snd kv)
  | None => Dict.get eqb acc k
  end.
Proof.
  revert acc. induction l as [|[k0 v0] l IH]; intros acc; simpl; auto.
  rewrite IH, find_snoc. simpl.
  destruct (find (fun kv => eqb k (fst kv)) (rev l)); auto.
  rewrite dict_get_set. destruct (eqb k k0); auto.
Qed.

Lemma dict_get_of_pairs (l : list (K * V)) k :
  Dict.get eqb (Dict.of_pairs eqb l) k =
  option_map snd (find (fun kv => eqb k (fst kv)) (rev l)).
Proof.
  unfold Dict.of_pairs. rewrite dict_get_fold.
  destruct (find _ (rev l)); reflexivity.
Qed.

End DictFacts.

Lemma string_eqb_trans a b c :
  String.eqb a b = true -> String.eqb b c = true -> String.eqb a c = true.
Proof. intros H1 H2. apply String.eqb_eq in H1, H2. subst. apply String.eqb_refl. Qed.

Lemma value_eqb_refl k : value_eqb k k = true.
Proof. destruct k; simpl; auto using Z.eqb_refl, String.eqb_refl. Qed.

Lemma value_eqb_sym a b : value_eqb a b = value_eqb b a.
Proof. destruct a, b; simpl; auto using Z.eqb_sym, String.eqb_sym. Qed.

Lemma value_eqb_trans a b c :
  value_eqb a b = true -> value_eqb b c = true -> value_eqb a c = true.
Proof.
  destruct a, b, c; simpl; try discriminate; auto.
  - intros H1 H2. apply Z.eqb_eq in H1, H2. subst. apply Z.eqb_refl.
  - apply string_eqb_trans.
Qed.

(** X11: A fetched row is read by column name; of two result columns with the
    same name the later one is the one found, a name the result does not
    have is a KeyError, and values beyond the named columns are dropped. *)
Theorem make_row_getitem (cls : string) (column_names : list string)
    (row : list value) (name : string) :
  Row.getitem (make_row cls column_names row) name =
  match find (fun kv => String.eqb name (fst kv)) (rev (combine column_names row)) with
  | Some kv => Ok (snd kv)
  | None => Raise (KeyError (Some name))
  end.
Proof.
  unfold Row.getitem, make_row, sget. cbn [r_items].
  rewrite (dict_get_of_pairs String.eqb String.eqb_sym string_eqb_trans).
  destruct (find _ (rev (combine column_names row))); reflexivity.
Qed.

Lemma keyed_ok items key pairs :
  Row.keyed items key = Ok pairs ->
  map snd pairs = items /\
  Forall (fun p => Row.getitem (snd p) key = Ok (fst p)) pairs.
Proof.
  revert pairs. induction items as [|item items IH]; simpl; intros pairs H.
  - inversion H. auto.
  - destruct (Row.getitem item key) as [k|e|s] eqn:Hk; try discriminate.
    destruct (Row.keyed items key) as [l|e|s]; try discriminate.
    inversion H; subst. destruct (IH l eq_refl) as [H1 H2]. simpl.
    split; [now rewrite H1 | now constructor].
Qed.

Lemma find_keyed key k (pairs : list (value * Row)) :
  Forall (fun p => Row.getitem (snd p) key = Ok (fst p)) pairs ->
  option_map snd (find (fun kv => value_eqb k (fst kv)) pairs) =
  find (fun item => match Row.getitem item key with
                    | Ok k' => value_eqb k k'
                    | _ => false
                    end) (map snd pairs).
Proof.
  induction 1 as [|[k0 item] pairs Hp _ IH]; simpl; auto.
  simpl in Hp. rewrite Hp. destruct (value_eqb k k0); auto.
Qed.

(** X12: [map_items] indexes rows by a column: looking a value up gives the last
    row of the input that carries it (earlier ones are overwritten
    silently), and nothing when no row does. *)
Theorem map_items_last_wins (items : list Row) (key : string)
    (d : list (value * Row)) (k : value) :
  Row.map_items items key = Ok d ->
  Dict.get value_eqb d k =
  find (fun item => match Row.getitem item key with
                    | Ok k' => value_eqb k k'
                    | _ => false
                    end) (rev items).
Proof.
  unfold Row.map_items. destruct (Row.keyed items key) as [pairs|e|s] eqn:Hk;
    try discriminate.
  intros H. inversion H; subst. clear H.
  destruct (keyed_ok _ _ _ Hk) as [Hitems Hall].
  rewrite (dict_get_of_pairs value_eqb value_eqb_sym value_eqb_trans).
  rewrite <- Hitems, <- map_rev. apply find_keyed. now apply Forall_rev.
Qed.

Lemma map_items_last_wins_witness :
  let r1 := {| r_class := "Row"; r_items := [("k", VInt 1); ("v", VStr (Str "old"))] |} in
  let r2 := {| r_class := "Row"; r_items := [("k", VInt 1); ("v", VStr (Str "new"))] |} in
  Dict.get value_eqb (Dict.of_pairs value_eqb [(VInt 1, r1); (VInt 1, r2)]) (VInt 1)
    = Some r2.
Proof.
  cbv zeta.
  rewrite (map_items_last_wins
             [{| r_class := "Row"; r_items := [("k", VInt 1); ("v", VStr (Str "old"))] |};
              {| r_class := "Row"; r_items := [("k", VInt 1); ("v", VStr (Str "new"))] |}]
             "k" _ (VInt 1) eq_refl).
  reflexivity.
Defined.

(** X13: [map_items] raises KeyError as soon as one row lacks the key column, and
    only then. *)
Theorem map_items_missing_key (items : list Row) (key : string) :
  (exists item, In item items /\ sget (r_items item) key = None) <->
  Row.map_items items key = Raise (KeyError (Some key)).
Proof.
  unfold Row.map_items. induction items as [|item items IH]; simpl.
  - split; [intros [x [[] _]] | discriminate].
  - unfold Row.getitem at 1.
    destruct (sget (r_items item) key) as [v|] eqn:Hv.
    + destruct (Row.keyed items key) as [l|e|s] eqn:Hk.
      * split; [|discriminate]. intros [x [[->|Hin] Hx]]; [congruence|].
        destruct IH as [IH _]. specialize (IH (ex_intro _ x (conj Hin Hx))).
        discriminate.
      * split.
        -- intros [x [[->|Hin] Hx]]; [congruence|].
           apply IH. now exists x.
        -- intros H. destruct IH as [_ IH]. destruct (IH H) as [x [Hin Hx]].
           exists x. auto.
      * split; [|discriminate]. intros [x [[->|Hin] Hx]]; [congruence|].
        destruct IH as [IH _]. specialize (IH (ex_intro _ x (conj Hin Hx))).
        discriminate.
    + split; auto. intros _. exists item. auto.
Qed.

(* ===================================================================== *)
(** ** The mini-ORM: [update_columns] with something to update *)

Lemma My_execute_rowcount_run env fuel self q params w cursor w1 cur w2 :
  My._cursor env fuel self w = (Ok cursor, w1) ->
  My._execute env self cursor q params w1 = (Ok cur, w2) ->
  My.execute_rowcount env fuel self q params w =
    (Ok (VInt (rowcount (cur_state cur))), emit (EvCursorClose (cur_handle cursor)) w2).
Proof.
  intros Hc He. unfold My.execute_rowcount.
  rewrite (bind_ok _ _ _ _ _ Hc). unfold try_finally.
  now rewrite (bind_ok _ _ _ _ _ He).
Qed.

Lemma conn_execute_rowcount_run env fuel conn q params w cursor cur w' :
  statement_ran env fuel conn q params w cursor cur w' ->
  conn_execute_rowcount env fuel conn q params w =
    (Ok (VInt (rowcount (cur_state cur))), emit (EvCursorClose (cur_handle cursor)) w').
Proof.
  intros [c [w1 [Hc Hrun]]]. unfold conn_execute_rowcount.
  rewrite (bind_ok _ _ _ _ _ (load_ok _ _ _ Hc)).
  destruct (c_backend c); destruct Hrun as [H1 H2].
  - apply (Pg_execute_rowcount_run _ _ _ _ _ _ _ _ _ H1 H2).
  - apply (My_execute_rowcount_run _ _ _ _ _ _ _ _ _ _ H1 H2).
Qed.

Lemma assignments_of_split (columns : sdict value) :
  Row.assignments (map fst columns) (map (fun kv => fragment_of (snd kv)) columns)
  = map assignment_of columns.
Proof.
  unfold Row.assignments. induction columns as [|[k v] columns IH]; auto.
  cbn [map combine]. now f_equal.
Qed.

Lemma update_columns_unfold env fuel cls kv columns where_ :
  Row.update_columns env fuel cls (kv :: columns) where_ =
  (use_db <- db env fuel None ;;
   conn_execute_rowcount env fuel use_db
     (update_statement cls (kv :: columns) where_)
     (bound_values (kv :: columns) ++ bound_values where_)).
Proof.
  unfold Row.update_columns, update_statement, bound_values.
  rewrite !kva_split_eq, !assignments_of_split. reflexivity.
Qed.

(** X14: With a non-empty changeset [update_columns] runs one statement,
    [UPDATE t SET c=.., .. WHERE w=.. AND ..], binding the SET values and then
    the WHERE values in order, as many as the two clauses have placeholders,
    and returns the affected-row count on either backend. *)
Theorem update_columns_returns_rowcount (env : Env) (fuel : nat) (cls : RowClass)
    (columns where_ : sdict value) (w : World) (use_db : nat) (w1 : World)
    (cursor cur : Cursor) (w2 : World) :
  columns <> [] ->
  db env fuel None w = (Ok use_db, w1) ->
  statement_ran env fuel use_db (update_statement cls columns where_)
    (bound_values columns ++ bound_values where_) w1 cursor cur w2 ->
  Row.update_columns env fuel cls columns where_ w =
    (Ok (VInt (rowcount (cur_state cur))), emit (EvCursorClose (cur_handle cursor)) w2) /\
  List.length (filter is_placeholder (map fragment_of (map snd (columns ++ where_))))
    = List.length (bound_values columns ++ bound_values where_).
Proof.
  intros Hne Hdb Hrun. split.
  - destruct columns as [|kv columns]; [contradiction|].
    rewrite update_columns_unfold. rewrite (bind_ok _ _ _ _ _ Hdb).
    now apply conn_execute_rowcount_run.
  - unfold bound_values. rewrite placeholders_count, map_app, filter_app. reflexivity.
Qed.

Lemma update_columns_returns_rowcount_witness :
  let env := Scenario.steady_with false true 100 Scenario.updated_3 in
  let r := Row.update_columns env 3 SqlDiff.cls
             [("applied_dttm", VStr (Literal "NOW()"))]
             [("sql_diff_name", VStr (Str "diff001_init"))] Scenario.blank in
  fst r = Ok (VInt 3) /\
  In (EvExecute 1 "UPDATE sql_diff SET applied_dttm=NOW() WHERE sql_diff_name=%s"
        [VStr (Str "diff001_init")]) (w_trace (snd r)).
Proof.
  cbv zeta.
  assert (H : exists use_db w1 cursor cur w2,
            db (Scenario.steady_with false true 100 Scenario.updated_3) 3 None
              Scenario.blank = (Ok use_db, w1) /\
            statement_ran (Scenario.steady_with false true 100 Scenario.updated_3)
              3 use_db
              (update_statement SqlDiff.cls [("applied_dttm", VStr (Literal "NOW()"))]
                 [("sql_diff_name", VStr (Str "diff001_init"))])
              (bound_values [("applied_dttm", VStr (Literal "NOW()"))]
                 ++ bound_values [("sql_diff_name", VStr (Str "diff001_init"))])
              w1 cursor cur w2 /\
            rowcount (cur_state cur) = 3 /\
            In (EvExecute 1 "UPDATE sql_diff SET applied_dttm=NOW() WHERE sql_diff_name=%s"
                  [VStr (Str "diff001_init")]) (w_trace w2)).
  { do 5 eexists. split; [vm_compute; reflexivity|]. split.
    - do 2 eexists. split; [vm_compute; reflexivity|].
      split; vm_compute; reflexivity.
    - split; [vm_compute; reflexivity|]. vm_compute. auto. }
  destruct H as [use_db [w1 [cursor [cur [w2 [Hdb [Hrun [Hrc Hin]]]]]]]].
  rewrite (proj1 (update_columns_returns_rowcount _ 3 SqlDiff.cls
                    [("applied_dttm", VStr (Literal "NOW()"))]
                    [("sql_diff_name", VStr (Str "diff001_init"))] _ _ _ _ _ _
                    ltac:(intro; discriminate) Hdb Hrun)).
  split; [simpl; now rewrite Hrc | simpl; auto].
Defined.

(** X15: With nothing in the where-mapping the statement still ends in WHERE,
    with no condition after it, and only the SET values are bound: the
    update is not turned into an unconditional one. *)
Theorem update_columns_empty_where (env : Env) (fuel : nat) (cls : RowClass)
    (kv : string * value) (columns : sdict value) (w : World) :
  Row.update_columns env fuel cls (kv :: columns) [] w =
  (use_db <- db env fuel None ;;
   conn_execute_rowcount env fuel use_db
     ("UPDATE " ++ table_name cls ++ " SET "
        ++ String.concat ", " (map assignment_of (kv :: columns)) ++ " WHERE ")
     (bound_values (kv :: columns))) w.
Proof.
  rewrite update_columns_unfold. unfold update_statement, bound_values at 2.
  cbn [map filter String.concat]. now rewrite app_nil_r.
Qed.

(* ===================================================================== *)
(** ** Row: fetching by identifier *)

(** X16: [get_id] treats a falsy identifier (None, 0, the empty string) as no
    identifier: it returns None without touching the registry or the
    database.  A falsy [member_id] (0 included) is no member filter: the
    statement is the one without the [member_id] condition. *)
Theorem get_id_falsy_arguments (env : Env) (fuel : nat) (cls : RowClass)
    (column_id_val member_id : value) (w : World) :
  (falsy column_id_val = true ->
     Row.get_id env fuel cls column_id_val member_id w = (Ok None, w)) /\
  (falsy member_id = true ->
     Row.get_id env fuel cls column_id_val member_id w
       = Row.get_id env fuel cls column_id_val VNone w).
Proof.
  unfold Row.get_id. split; intros H.
  - now rewrite H.
  - rewrite H. reflexivity.
Qed.

Lemma get_id_falsy_arguments_witness :
  Row.get_id (Scenario.steady 100 (Scenario.selected 1)) 3 SqlDiff.cls (VInt 0)
    (VInt 5) Scenario.blank = (Ok None, Scenario.blank) /\
  Row.get_id (Scenario.steady 100 (Scenario.selected 1)) 3 SqlDiff.cls (VInt 7)
    (VInt 0) Scenario.blank
  = Row.get_id (Scenario.steady 100 (Scenario.selected 1)) 3 SqlDiff.cls (VInt 7)
      VNone Scenario.blank.
Proof.
  split.
  - exact (proj1 (get_id_falsy_arguments (Scenario.steady 100 (Scenario.selected 1))
                    3 SqlDiff.cls (VInt 0) (VInt 5) Scenario.blank) eq_refl).
  - exact (proj2 (get_id_falsy_arguments (Scenario.steady 100 (Scenario.selected 1))
                    3 SqlDiff.cls (VInt 7) (VInt 0) Scenario.blank) eq_refl).
Defined.

Lemma conn_get_run env fuel conn q params cls w cursor cur w' :
  statement_ran env fuel conn q params w cursor cur w' ->
  forall cols row,
    description (cur_state cur) = Some cols ->
    result_rows (cur_state cur) = [row] ->
    exists r,
      conn_get env fuel conn q params cls w
        = (Ok (Some r), emit (EvCursorClose (cur_handle cursor)) w') /\
      r_items r = r_items (make_row "Row" cols row).
Proof.
  intros [c [w1 [Hc Hrun]]] cols row Hd Hr. unfold conn_get.
  rewrite (bind_ok _ _ _ _ _ (load_ok _ _ _ Hc)).
  destruct (c_backend c); destruct Hrun as [H1 H2].
  - unfold Pg.get. unfold bind at 1.
    rewrite (Pg_query_run _ _ _ _ _ _ _ _ _ _ H1 H2).
    unfold rows_of_cursor. rewrite Hd, Hr. cbn.
    eexists. split; reflexivity.
  - unfold My.get. unfold bind at 1.
    rewrite (My_query_run _ _ _ _ _ _ _ _ _ _ _ H1 H2).
    unfold rows_of_cursor. rewrite Hd, Hr. unfold make_row. cbn.
    destruct (Dict.of_pairs String.eqb (combine cols row)) eqn:E;
      destruct cls; cbn; rewrite ?E; eexists; split; reflexivity.
Qed.

(** X17: [get_id] with an integer identifier and no member runs
    [SELECT * FROM <table> WHERE <id_column>=%s] with the identifier bound,
    and when exactly one row comes back returns it, its columns keyed by
    name. *)
Theorem get_id_fetches_the_row (env : Env) (fuel : nat) (cls : RowClass) (id : Z)
    (w : World) (use_db : nat) (w1 : World) (cursor cur : Cursor) (w2 : World)
    (cols : list string) (row : list value) :
  id <> 0 ->
  db env fuel None w = (Ok use_db, w1) ->
  statement_ran env fuel use_db
    ("SELECT * FROM " ++ table_name cls ++ " WHERE " ++ id_column cls ++ "=%s")
    [VInt id] w1 cursor cur w2 ->
  description (cur_state cur) = Some cols ->
  result_rows (cur_state cur) = [row] ->
  exists r,
    fst (Row.get_id env fuel cls (VInt id) VNone w) = Ok (Some r) /\
    forall name, Row.getitem r name = Row.getitem (make_row "Row" cols row) name.
Proof.
  intros Hid Hdb Hrun Hd Hr. unfold Row.get_id.
  assert (E : falsy (VInt id) = false) by (simpl; now apply Z.eqb_neq).
  rewrite E. cbn [falsy py_int].
  rewrite (bind_ok _ _ w id w eq_refl). cbv beta.
  rewrite (bind_ok (ret None) _ w None w eq_refl). cbv beta.
  rewrite (bind_ok _ _ _ _ _ Hdb).
  destruct (conn_get_run _ _ _ _ _ (Some (class_name cls)) _ _ _ _ Hrun cols row Hd Hr)
    as [r [Hget Hitems]].
  exists r. unfold Row.select_where. rewrite Hget. split; [reflexivity|].
  intros name. unfold Row.getitem. now rewrite Hitems.
Qed.

Lemma get_id_fetches_the_row_witness :
  exists r,
    fst (Row.get_id (Scenario.steady_with true false 100 (Scenario.selected 1)) 3
           SqlDiff.cls (VInt 7) VNone Scenario.blank) = Ok (Some r) /\
    Row.getitem r "sql_diff_name" = Ok (VStr (Str "diff001_init")).
Proof.
  assert (H : exists use_db w1 cursor cur w2,
            db (Scenario.steady_with true false 100 (Scenario.selected 1)) 3 None
              Scenario.blank = (Ok use_db, w1) /\
            statement_ran (Scenario.steady_with true false 100 (Scenario.selected 1))
              3 use_db
              ("SELECT * FROM " ++ table_name SqlDiff.cls ++ " WHERE "
                 ++ id_column SqlDiff.cls ++ "=%s")
              [VInt 7] w1 cursor cur w2 /\
            description (cur_state cur) = Some ["sql_diff_name"] /\
            result_rows (cur_state cur) = [[VStr (Str "diff001_init")]]).
  { do 5 eexists. split; [vm_compute; reflexivity|]. split.
    - do 2 eexists. split; [vm_compute; reflexivity|].
      split; vm_compute; reflexivity.
    - split; vm_compute; reflexivity. }
  destruct H as [use_db [w1 [cursor [cur [w2 [Hdb [Hrun [Hd Hr]]]]]]]].
  destruct (get_id_fetches_the_row _ 3 SqlDiff.cls 7 _ _ _ _ _ _ _ _
              ltac:(discriminate) Hdb Hrun Hd Hr) as [r [H1 H2]].
  exists r. split; [exact H1|]. rewrite H2. reflexivity.
Defined.

(* ===================================================================== *)
(** ** The ledger on a Postgres connection *)

Lemma conn_execute_postgres env fuel conn q params w c :
  nth_error (w_heap w) conn = Some c ->
  c_backend c = Postgres ->
  conn_execute env fuel conn q params w = Pg.execute env conn q params w.
Proof.
  intros Hc Hk. unfold conn_execute.
  rewrite (bind_ok _ _ _ _ _ (load_ok _ _ _ Hc)). now rewrite Hk.
Qed.

(** X18: When [db()] gives a PostgresConnection: [insert] returns the identifier
    of the new entry (the RETURNING column), [mark_applied] returns how many
    entries it marked, and [create_table], whose text begins with a line
    break and not with INSERT, returns the statement's row count. *)
Theorem SqlDiff_on_postgres (env : Env) (fuel : nat) (name : string) (w : World)
    (use_db : nat) (w1 : World) (c : Connection) :
  db env fuel None w = (Ok use_db, w1) ->
  nth_error (w_heap w1) use_db = Some c ->
  c_backend c = Postgres ->
  (forall cursor w2 cur w3 v r rest,
     Pg._cursor env use_db w1 = (Ok cursor, w2) ->
     Pg._execute env use_db cursor SqlDiff.insert_sql [VStr (Str name)] w2 = (Ok cur, w3) ->
     rowcount (cur_state cur) > 0 ->
     result_rows (cur_state cur) = (v :: r) :: rest ->
     fst (SqlDiff.insert env fuel name w) = Ok v) /\
  (forall cursor w2 cur w3,
     Pg._cursor env use_db w1 = (Ok cursor, w2) ->
     Pg._execute env use_db cursor SqlDiff.mark_applied_sql [VStr (Str name)] w2
       = (Ok cur, w3) ->
     fst (SqlDiff.mark_applied env fuel name w) = Ok (VInt (rowcount (cur_state cur)))) /\
  (forall cursor w2 cur w3,
     Pg._cursor env use_db w1 = (Ok cursor, w2) ->
     Pg._execute env use_db cursor SqlDiff.sql_diff_table [] w2 = (Ok cur, w3) ->
     fst (SqlDiff.create_table env fuel w) = Ok (VInt (rowcount (cur_state cur)))).
Proof.
  intros Hdb Hc Hk. split; [|split].
  - intros cursor w2 cur w3 v r rest H1 H2 Hpos Hrows.
    unfold SqlDiff.insert. rewrite (bind_ok _ _ _ _ _ Hdb).
    rewrite (conn_execute_postgres _ _ _ _ _ _ _ Hc Hk).
    unfold Pg.execute.
    replace (String.prefix "INSERT" SqlDiff.insert_sql) with true by reflexivity.
    rewrite (Pg_execute_lastrowid_run _ _ _ _ _ _ _ _ _ H1 H2).
    apply Z.gtb_gt in Hpos. rewrite Hpos. unfold fetchone_0. now rewrite Hrows.
  - intros cursor w2 cur w3 H1 H2.
    unfold SqlDiff.mark_applied. rewrite (bind_ok _ _ _ _ _ Hdb).
    rewrite (conn_execute_postgres _ _ _ _ _ _ _ Hc Hk).
    unfold Pg.execute.
    replace (String.prefix "INSERT" SqlDiff.mark_applied_sql) with false by reflexivity.
    now rewrite (Pg_execute_rowcount_run _ _ _ _ _ _ _ _ _ H1 H2).
  - intros cursor w2 cur w3 H1 H2.
    unfold SqlDiff.create_table. rewrite (bind_ok _ _ _ _ _ Hdb).
    rewrite (conn_execute_postgres _ _ _ _ _ _ _ Hc Hk).
    unfold Pg.execute.
    replace (String.prefix "INSERT" SqlDiff.sql_diff_table) with false by reflexivity.
    now rewrite (Pg_execute_rowcount_run _ _ _ _ _ _ _ _ _ H1 H2).
Qed.

Lemma SqlDiff_on_postgres_witness :
  fst (SqlDiff.insert (Scenario.steady_with true false 100 Scenario.inserted_42) 3
         "diff001_init" Scenario.blank) = Ok (VInt 42) /\
  fst (SqlDiff.mark_applied (Scenario.steady_with true false 100 Scenario.nothing_affected)
         3 "diff001_init" Scenario.blank) = Ok (VInt 0).
Proof.
  split.
  - assert (H : exists use_db w1 c cursor w2 cur w3,
              db (Scenario.steady_with true false 100 Scenario.inserted_42) 3 None
                Scenario.blank = (Ok use_db, w1) /\
              nth_error (w_heap w1) use_db = Some c /\ c_backend c = Postgres /\
              Pg._cursor (Scenario.steady_with true false 100 Scenario.inserted_42)
                use_db w1 = (Ok cursor, w2) /\
              Pg._execute (Scenario.steady_with true false 100 Scenario.inserted_42)
                use_db cursor SqlDiff.insert_sql [VStr (Str "diff001_init")] w2
                = (Ok cur, w3) /\
              rowcount (cur_state cur) > 0 /\
              result_rows (cur_state cur) = [VInt 42] :: []).
    { do 7 eexists. repeat (split; [vm_compute; reflexivity|]). vm_compute. reflexivity. }
    destruct H as [use_db [w1 [c [cursor [w2 [cur [w3 [Hdb [Hc [Hk [H1 [H2 [H3 H4]]]]]]]]]]]]].
    exact (proj1 (SqlDiff_on_postgres _ 3 "diff001_init" _ _ _ _ Hdb Hc Hk)
             _ _ _ _ _ _ _ H1 H2 H3 H4).
  - assert (H : exists use_db w1 c cursor w2 cur w3,
              db (Scenario.steady_with true false 100 Scenario.nothing_affected) 3 None
                Scenario.blank = (Ok use_db, w1) /\
              nth_error (w_heap w1) use_db = Some c /\ c_backend c = Postgres /\
              Pg._cursor (Scenario.steady_with true false 100 Scenario.nothing_affected)
                use_db w1 = (Ok cursor, w2) /\
              Pg._execute (Scenario.steady_with true false 100 Scenario.nothing_affected)
                use_db cursor SqlDiff.mark_applied_sql [VStr (Str "diff001_init")] w2
                = (Ok cur, w3) /\
              rowcount (cur_state cur) = 0).
    { do 7 eexists. repeat (split; [vm_compute; reflexivity|]). vm_compute. reflexivity. }
    destruct H as [use_db [w1 [c [cursor [w2 [cur [w3 [Hdb [Hc [Hk [H1 [H2 H3]]]]]]]]]]]].
    rewrite (proj1 (proj2 (SqlDiff_on_postgres _ 3 "diff001_init" _ _ _ _ Hdb Hc Hk))
               _ _ _ _ H1 H2).
    now rewrite H3.
Defined.

(* ===================================================================== *)
(** ** The registry: explicit schema, other threads, later calls *)

(** X19: With every configured schema already cached, [db(schema)] is a plain
    lookup: the cached connection for a schema that is there, KeyError for
    one that is not; the world is left as it is. *)
Theorem db_explicit_schema (env : Env) (fuel : nat) (w : World) (d : sdict nat)
    (k : string) :
  tget (w_dbconns w) (w_ident w) = Some d ->
  pgsql_available env && negb (smem d (pg_database (options env))) = false ->
  mysql_available env && negb (smem d (mysql_schema (options env))) = false ->
  (forall conn, sget d k = Some conn -> db env fuel (Some k) w = (Ok conn, w)) /\
  (sget d k = None -> k <> EmptyString ->
     db env fuel (Some k) w = (Raise (KeyError (Some k)), w)).
Proof.
  intros Hd Hpg Hmy.
  assert (Hrun : db env fuel (Some k) w = db_lookup (Some k) w).
  { unfold db. rewrite (bind_ok _ _ _ _ _ (db_init_ok _ _ Hd)).
    rewrite (bind_ok _ _ _ _ _ (db_postgres_skips _ _ _ _ Hd Hpg)).
    now rewrite (bind_ok _ _ _ _ _ (db_mysql_skips _ _ _ _ _ Hd Hmy)). }
  rewrite Hrun. split.
  - intros conn Hk. now apply (db_lookup_cached w d k conn).
  - intros Hk Hne. unfold db_lookup.
    rewrite (bind_ok _ _ _ _ _ (databases_ok _ _ Hd)).
    unfold default_schema, not_schema.
    destruct (String.eqb k EmptyString) eqn:E.
    + apply String.eqb_eq in E. contradiction.
    + cbn [andb]. now rewrite Hk.
Qed.

Lemma db_explicit_schema_witness :
  let env := Scenario.steady 100 Scenario.nothing_affected in
  fst (db env 3 (Some "alpha") (Scenario.after_first_db env)) = Ok 0%nat /\
  fst (db env 3 (Some "beta") (Scenario.after_first_db env)) = Ok 1%nat /\
  fst (db env 3 (Some "gamma") (Scenario.after_first_db env))
    = Raise (KeyError (Some "gamma")).
Proof.
  cbv zeta.
  pose proof (db_explicit_schema (Scenario.steady 100 Scenario.nothing_affected) 3
                (Scenario.after_first_db (Scenario.steady 100 Scenario.nothing_affected))
                [("alpha", 0%nat); ("beta", 1%nat)]) as H.
  split; [|split].
  - rewrite (proj1 (H "alpha" ltac:(vm_compute; reflexivity)
                      ltac:(vm_compute; reflexivity) ltac:(vm_compute; reflexivity))
               0%nat eq_refl).
    reflexivity.
  - rewrite (proj1 (H "beta" ltac:(vm_compute; reflexivity)
                      ltac:(vm_compute; reflexivity) ltac:(vm_compute; reflexivity))
               1%nat eq_refl).
    reflexivity.
  - rewrite (proj2 (H "gamma" ltac:(vm_compute; reflexivity)
                      ltac:(vm_compute; reflexivity) ltac:(vm_compute; reflexivity))
               eq_refl ltac:(discriminate)).
    reflexivity.
Defined.

Lemma db_step_same_for_thread j w w' :
  db_step w w' -> j <> w_ident w -> same_for_thread j w w'.
Proof.
  intros H Hj. unfold same_for_thread.
  rewrite (ds_dbconns_others _ _ H j Hj), (ds_pg_others _ _ H j Hj),
    (ds_my_others _ _ H j Hj). auto.
Qed.

(** X20: Nothing a thread does through [db()], the mini-ORM or the ledger touches
    what another thread has cached: its [dbconns.databases] and its entries in
    the two class-level [threads] dicts stay as they were; and connection
    objects that exist stay allocated, with their class. *)
Theorem other_threads_untouched (env : Env) (fuel : nat) (w : World) (j : nat)
    (use_schema : option string) (cls : RowClass) (sql_txt : string)
    (columns where_ : sdict value) (id member : value) (name : string) :
  j <> w_ident w ->
  same_for_thread j w (snd (db env fuel use_schema w)) /\
  same_for_thread j w (snd (Row.insert_columns env fuel cls sql_txt columns w)) /\
  same_for_thread j w (snd (Row.update_columns env fuel cls columns where_ w)) /\
  same_for_thread j w (snd (Row.get_id env fuel cls id member w)) /\
  same_for_thread j w (snd (Row.scan_id env fuel cls name id w)) /\
  same_for_thread j w (snd (SqlDiff.insert env fuel name w)) /\
  same_for_thread j w (snd (SqlDiff.mark_applied env fuel name w)) /\
  same_for_thread j w (snd (SqlDiff.scan_unapplied env fuel w)) /\
  (forall a c, nth_error (w_heap w) a = Some c ->
     exists c', nth_error (w_heap (snd (db env fuel use_schema w))) a = Some c' /\
                c_backend c' = c_backend c).
Proof.
  intros Hj.
  destruct (dl_SqlDiff env (w_ident w) fuel name) as [_ [Hi [_ [Hm Hu]]]].
  assert (S : forall A (m : M A), db_level (w_ident w) m ->
              same_for_thread j w (snd (m w))).
  { intros A m Hm'. apply db_step_same_for_thread; [|exact Hj]. now apply Hm'. }
  split; [apply S, dl_db|].
  split; [apply S, dl_insert_columns|].
  split; [apply S, dl_update_columns|].
  split; [apply S, dl_get_id|].
  split; [apply S, dl_scan_id|].
  split; [apply S, Hi|].
  split; [apply S, Hm|].
  split; [apply S, Hu|].
  apply (ds_heap _ _ (dl_db env (w_ident w) fuel use_schema w eq_refl)).
Qed.

(** Thread 2 makes its first [db()] while thread 1 holds two connections:
    thread 1 finds its registries unchanged. *)
Lemma other_threads_untouched_witness :
  let env := Scenario.steady 100 Scenario.nothing_affected in
  let w := switch_to 2 (Scenario.after_first_db env) in
  same_for_thread 1 w (snd (db env 3 None w)).
Proof.
  cbv zeta.
  exact (proj1 (other_threads_untouched (Scenario.steady 100 Scenario.nothing_affected)
                  3 (switch_to 2 (Scenario.after_first_db
                                    (Scenario.steady 100 Scenario.nothing_affected)))
                  1 None SqlDiff.cls EmptyString [] [] VNone VNone EmptyString
                  ltac:(vm_compute; discriminate))).
Defined.

Lemma sget_sset (d : sdict nat) k k' v :
  sget (sset d k' v) k = if String.eqb k k' then Some v else sget d k.
Proof.
  unfold sget, sset.
  apply (dict_get_set String.eqb String.eqb_sym string_eqb_trans).
Qed.

Lemma smem_sset (d : sdict nat) k k' v :
  smem (sset d k' v) k = String.eqb k k' || smem d k.
Proof.
  pose proof (sget_sset d k k' v) as H. unfold sget in H.
  unfold smem, Dict.mem. rewrite H. destruct (String.eqb k k'); reflexivity.
Qed.

Lemma db_lookup_world use_schema w : snd (db_lookup use_schema w) = w.
Proof.
  unfold db_lookup, databases. mrun.
  destruct (tget (w_dbconns w) (w_ident w)) as [d|]; [|reflexivity].
  destruct (default_schema use_schema d) as [k|]; [|reflexivity].
  destruct (sget d k); reflexivity.
Qed.

Lemma db_postgres_post env u w d u' w' :
  tget (w_dbconns w) (w_ident w) = Some d ->
  db_postgres env u w = (Ok u', w') ->
  exists d',
    tget (w_dbconns w') (w_ident w') = Some d' /\
    (pgsql_available env = true -> smem d' (pg_database (options env)) = true) /\
    (forall k, smem d k = true -> smem d' k = true).
Proof.
  intros Hd. unfold db_postgres.
  rewrite (bind_ok _ _ _ _ _ (databases_ok _ _ Hd)).
  destruct (pgsql_available env && negb (smem d (pg_database (options env)))) eqn:E.
  - unfold bind at 1.
    pose proof (cl_Pg_connect env (w_ident w) None false w eq_refl) as Hstep.
    destruct (Pg.connect env None false w) as [[conn|e|s] w1]; try discriminate.
    simpl in Hstep.
    assert (Hd1 : tget (w_dbconns w1) (w_ident w1) = Some d).
    { rewrite (cs_dbconns _ _ Hstep), (cs_ident _ _ Hstep). exact Hd. }
    rewrite (bind_ok _ _ _ _ _ (databases_set_ok _ _ _ _ Hd1)).
    intros H. inversion H; subst. clear H.
    exists (sset d (pg_database (options env)) conn).
    cbn [w_dbconns w_ident with_dbconns]. split; [apply tget_tset_same|].
    split; intros; rewrite smem_sset.
    + now rewrite String.eqb_refl.
    + rewrite H. apply orb_true_r.
  - intros H. inversion H; subst. exists d. split; [exact Hd|]. split; auto.
    intros Ha. rewrite Ha in E. simpl in E. now apply negb_false_iff in E.
Qed.

Lemma db_mysql_post env fuel u w d u' w' :
  tget (w_dbconns w) (w_ident w) = Some d ->
  db_mysql env fuel u w = (Ok u', w') ->
  exists d',
    tget (w_dbconns w') (w_ident w') = Some d' /\
    (mysql_available env = true -> smem d' (mysql_schema (options env)) = true) /\
    (forall k, smem d k = true -> smem d' k = true).
Proof.
  intros Hd. unfold db_mysql.
  rewrite (bind_ok _ _ _ _ _ (databases_ok _ _ Hd)).
  destruct (mysql_available env && negb (smem d (mysql_schema (options env)))) eqn:E.
  - unfold bind at 1.
    pose proof (cl_My_connect env (w_ident w) fuel None false w eq_refl) as Hstep.
    destruct (My.connect env fuel None false w) as [[conn|e|s] w1]; try discriminate.
    simpl in Hstep.
    assert (Hd1 : tget (w_dbconns w1) (w_ident w1) = Some d).
    { rewrite (cs_dbconns _ _ Hstep), (cs_ident _ _ Hstep). exact Hd. }
    rewrite (bind_ok _ _ _ _ _ (databases_set_ok _ _ _ _ Hd1)).
    intros H. inversion H; subst. clear H.
    exists (sset d (mysql_schema (options env)) conn).
    cbn [w_dbconns w_ident with_dbconns]. split; [apply tget_tset_same|].
    split; intros; rewrite smem_sset.
    + now rewrite String.eqb_refl.
    + rewrite H. apply orb_true_r.
  - intros H. inversion H; subst. exists d. split; [exact Hd|]. split; auto.
    intros Ha. rewrite Ha in E. simpl in E. now apply negb_false_iff in E.
Qed.

Lemma db_init_post w :
  exists w0 d, db_init w = (Ok tt, w0) /\ tget (w_dbconns w0) (w_ident w0) = Some d /\
               w_heap w0 = w_heap w /\ w_ident w0 = w_ident w /\
               w_pg_threads w0 = w_pg_threads w /\ w_my_threads w0 = w_my_threads w /\
               (tget (w_dbconns w) (w_ident w) = None -> d = []).
Proof.
  unfold db_init. mrun.
  destruct (tget (w_dbconns w) (w_ident w)) as [d|] eqn:E.
  - exists w, d. repeat split; auto. discriminate.
  - eexists. exists []. split; [reflexivity|]. cbn.
    split; [apply tget_tset_same|]. repeat split; auto.
Qed.

(** X21: After a [db()] that returned a connection, every configured schema of an
    imported backend is cached, so no later [db()] in that thread connects,
    allocates or registers anything: it is a lookup that leaves the world as
    it is.  One connection per thread and schema. *)
Theorem db_later_calls_change_nothing (env : Env) (fuel : nat)
    (use_schema : option string) (w : World) (conn : nat) (w1 : World) :
  db env fuel use_schema w = (Ok conn, w1) ->
  forall later,
    db env fuel later w1 = db_lookup later w1 /\
    snd (db env fuel later w1) = w1.
Proof.
  intros Hdb later.
  assert (Hreg : exists d,
            tget (w_dbconns w1) (w_ident w1) = Some d /\
            pgsql_available env && negb (smem d (pg_database (options env))) = false /\
            mysql_available env && negb (smem d (mysql_schema (options env))) = false).
  { unfold db in Hdb.
    destruct (db_init_post w) as [w0 [d0 [H0 [Hd0 _]]]].
    rewrite (bind_ok _ _ _ _ _ H0) in Hdb. unfold bind at 1 in Hdb.
    destruct (db_postgres env use_schema w0) as [[u1|e|s] wa] eqn:Hp; try discriminate.
    destruct (db_postgres_post _ _ _ _ _ _ Hd0 Hp) as [d1 [Hd1 [Hpg _]]].
    unfold bind at 1 in Hdb.
    destruct (db_mysql env fuel u1 wa) as [[u2|e|s] wb] eqn:Hm; try discriminate.
    destruct (db_mysql_post _ _ _ _ _ _ _ Hd1 Hm) as [d2 [Hd2 [Hmy Hkeep]]].
    assert (wb = w1).
    { rewrite <- (db_lookup_world u2 wb). now rewrite Hdb. }
    subst wb. exists d2. split; [exact Hd2|]. split.
    - destruct (pgsql_available env); auto. simpl.
      rewrite (Hkeep _ (Hpg eq_refl)). reflexivity.
    - destruct (mysql_available env); auto. simpl.
      rewrite (Hmy eq_refl). reflexivity. }
  destruct Hreg as [d [Hd [Hpg Hmy]]].
  assert (Hrun : db env fuel later w1 = db_lookup later w1).
  { unfold db. rewrite (bind_ok _ _ _ _ _ (db_init_ok _ _ Hd)).
    rewrite (bind_ok _ _ _ _ _ (db_postgres_skips _ _ _ _ Hd Hpg)).
    now rewrite (bind_ok _ _ _ _ _ (db_mysql_skips _ _ _ _ _ Hd Hmy)). }
  split; [exact Hrun|]. rewrite Hrun. apply db_lookup_world.
Qed.

Lemma db_later_calls_change_nothing_witness :
  let env := Scenario.steady 100 Scenario.nothing_affected in
  snd (db env 3 (Some "alpha") (Scenario.after_first_db env))
    = Scenario.after_first_db env.
Proof.
  cbv zeta.
  assert (H : exists conn,
            db (Scenario.steady 100 Scenario.nothing_affected) 3 None Scenario.blank
            = (Ok conn, Scenario.after_first_db
                          (Scenario.steady 100 Scenario.nothing_affected))).
  { eexists. vm_compute. reflexivity. }
  destruct H as [conn H].
  exact (proj2 (db_later_calls_change_nothing _ 3 None _ _ _ H (Some "alpha"))).
Defined.

(* ===================================================================== *)
(** ** What instance methods leave alone *)

Section Keeps.
Context {X : Type} (f : World -> X).
Hypothesis Hf : registry_part f.

Lemma keeps_ret {A} (a : A) : keeps f (ret a).
Proof. intros w. reflexivity. Qed.

Lemma keeps_raise {A} e : keeps f (@raise A e).
Proof. intros w. reflexivity. Qed.

Lemma keeps_stuck {A} s : keeps f (@stuck_with A s).
Proof. intros w. reflexivity. Qed.

Lemma keeps_lift {A} (r : res A) : keeps f (lift r).
Proof. intros w. reflexivity. Qed.

Lemma keeps_bind {A B} (m : M A) (k : A -> M B) :
  keeps f m -> (forall a, keeps f (k a)) -> keeps f (bind m k).
Proof.
  intros Hm Hk w. unfold bind. specialize (Hm w).
  destruct (m w) as [[a|e|s] w1]; simpl in Hm; auto.
  rewrite (Hk a w1). exact Hm.
Qed.

Lemma keeps_try_except {A} (body : M A) guard handler :
  keeps f body -> (forall e, keeps f (handler e)) ->
  keeps f (try_except body guard handler).
Proof.
  intros Hb Hh w. unfold try_except. specialize (Hb w).
  destruct (body w) as [[a|e|s] w1]; simpl in Hb; auto.
  destruct (guard e); auto. rewrite (Hh e w1). exact Hb.
Qed.

Lemma keeps_try_finally {A} (body : M A) fin :
  keeps f body -> keeps f fin -> keeps f (try_finally body fin).
Proof.
  intros Hb Hfin w. unfold try_finally. specialize (Hb w).
  destruct (body w) as [r w1]; simpl in Hb. specialize (Hfin w1).
  destruct r as [a|e|s]; simpl; auto;
    destruct (fin w1) as [[u|e'|s'] w2]; simpl in *; congruence.
Qed.

Lemma keeps_emit ev : keeps f (modify (emit ev)).
Proof. intros w. apply Hf. Qed.

Lemma keeps_load self : keeps f (load self).
Proof. intros w. unfold load. destruct (nth_error (w_heap w) self); reflexivity. Qed.

Lemma keeps_store self g : keeps f (store self g).
Proof.
  intros w. unfold store. mrun.
  destruct (nth_error (w_heap w) self); [apply Hf | reflexivity].
Qed.

Lemma keeps_alloc c : keeps f (alloc c).
Proof. intros w. apply Hf. Qed.

Lemma keeps_time env : keeps f (time_time env).
Proof. intros w. apply Hf. Qed.

Lemma keeps_driver_connect env k : keeps f (driver_connect env k).
Proof.
  intros w. unfold driver_connect.
  destruct (env_connect env (w_trace w) k); apply Hf.
Qed.

Lemma keeps_handle_commit env h : keeps f (handle_commit env h).
Proof.
  intros w. unfold handle_commit.
  destruct (env_commit env (w_trace w) h); apply Hf.
Qed.

Lemma keeps_handle_cursor h : keeps f (handle_cursor h).
Proof. intros w. apply Hf. Qed.

Lemma keeps_cursor_execute env cur q params :
  keeps f (cursor_execute env cur q params).
Proof.
  intros w. unfold cursor_execute.
  destruct (env_execute env (w_trace w) (cur_handle cur) q params); apply Hf.
Qed.

End Keeps.

(** Takes an instance method apart. *)
Ltac keeps_step Hf :=
  match goal with
  | |- keeps _ (bind _ _) => apply keeps_bind; [|intros]
  | |- keeps _ (try_except _ _ _) => apply keeps_try_except; [|intros]
  | |- keeps _ (try_finally _ _) => apply keeps_try_finally
  | |- keeps _ (match ?x with _ => _ end) => destruct x
  | |- keeps _ (ret _) => apply keeps_ret
  | |- keeps _ (raise _) => apply keeps_raise
  | |- keeps _ (stuck_with _) => apply keeps_stuck
  | |- keeps _ (lift _) => apply keeps_lift
  | |- keeps _ (load _) => apply keeps_load
  | |- keeps _ (store _ _) => apply (keeps_store _ Hf)
  | |- keeps _ (alloc _) => apply (keeps_alloc _ Hf)
  | |- keeps _ (time_time _) => apply (keeps_time _ Hf)
  | |- keeps _ (driver_connect _ _) => apply (keeps_driver_connect _ Hf)
  | |- keeps _ (handle_commit _ _) => apply (keeps_handle_commit _ Hf)
  | |- keeps _ (handle_cursor _) => apply (keeps_handle_cursor _ Hf)
  | |- keeps _ (cursor_execute _ _ _ _) => apply (keeps_cursor_execute _ Hf)
  | |- keeps _ (logging _ _) => apply (keeps_emit _ Hf)
  | |- keeps _ (handle_close _) => apply (keeps_emit _ Hf)
  | |- keeps _ (handle_rollback _) => apply (keeps_emit _ Hf)
  | |- keeps _ (cursor_close _) => apply (keeps_emit _ Hf)
  | |- keeps _ _ => solve [auto]
  end.
Ltac keeps_all Hf := repeat keeps_step Hf.

Section InstanceMethods.
Context {X : Type} (f : World -> X).
Hypothesis Hf : registry_part f.
Variable env : Env.

Lemma keeps_Pg_close self : keeps f (Pg.close self).
Proof. unfold Pg.close. keeps_all Hf. Qed.

Lemma keeps_Pg_reconnect self : keeps f (Pg.reconnect env self).
Proof. unfold Pg.reconnect. pose proof keeps_Pg_close. keeps_all Hf. Qed.

Lemma keeps_Pg_init hostname port database username password max_idle :
  keeps f (Pg.init env hostname port database username password max_idle).
Proof. unfold Pg.init. pose proof keeps_Pg_reconnect. keeps_all Hf. Qed.

Lemma keeps_My_close self : keeps f (My.close self).
Proof. unfold My.close. keeps_all Hf. Qed.

Lemma keeps_My_execute_ self cursor q params :
  keeps f (My._execute env self cursor q params).
Proof. unfold My._execute. pose proof keeps_My_close. keeps_all Hf. Qed.

Lemma keeps_My_reconnect_in ens self :
  (forall s, keeps f (ens s)) -> keeps f (My.reconnect_in env ens self).
Proof.
  intros Hens.
  unfold My.reconnect_in, My.execute_in, My.execute_lastrowid_in, My._cursor_in.
  pose proof keeps_My_close. pose proof keeps_My_execute_. keeps_all Hf.
Qed.

Lemma keeps_My_ensure_connected fuel self :
  keeps f (My._ensure_connected env fuel self).
Proof.
  revert self. induction fuel as [|fuel IH]; intros self; simpl.
  - apply keeps_stuck.
  - pose proof (fun s => keeps_My_reconnect_in _ s IH). keeps_all Hf.
Qed.

Lemma keeps_My_init fuel host database user password max_idle :
  keeps f (My.init env fuel host database user password max_idle).
Proof.
  unfold My.init, My.reconnect.
  pose proof (fun s => keeps_My_reconnect_in _ s (keeps_My_ensure_connected fuel)).
  keeps_all Hf.
Qed.

Lemma keeps_My_execute fuel self q params :
  keeps f (My.execute env fuel self q params).
Proof.
  unfold My.execute, My.execute_in, My.execute_lastrowid_in, My._cursor_in.
  pose proof (keeps_My_ensure_connected fuel). pose proof keeps_My_execute_.
  keeps_all Hf.
Qed.

End InstanceMethods.

Lemma registry_part_ident : registry_part w_ident.
Proof. split; reflexivity. Qed.
Lemma registry_part_pg_threads : registry_part w_pg_threads.
Proof. split; reflexivity. Qed.
Lemma registry_part_my_threads : registry_part w_my_threads.
Proof. split; reflexivity. Qed.

Lemma keeps_modify {X} (f : World -> X) g :
  (forall w, f (g w) = f w) -> keeps f (modify g).
Proof. intros H w. apply H. Qed.

Lemma keeps_get_world {X} (f : World -> X) : keeps f get_world.
Proof. intros w. reflexivity. Qed.

(** The Postgres constructor returns the address it allocated. *)
Lemma Pg_init_result env hostname port database username password max_idle w :
  exists w',
    Pg.init env hostname port database username password max_idle w
      = (Ok (List.length (w_heap w)), w') /\
    (exists c, nth_error (w_heap w') (List.length (w_heap w)) = Some c).
Proof.
  unfold Pg.init, Pg.reconnect, Pg.close. mrun.
  rewrite nth_error_snoc. cbn [c_db]. mrun.
  destruct (env_connect env (EvTime :: w_trace w) Postgres); mrun.
  - eexists. split; [reflexivity|]. cbn. rewrite nth_error_snoc. eauto.
  - rewrite nth_error_snoc. mrun. eexists. split; [reflexivity|]. cbn.
    rewrite (list_update_same _ _ _ _ (nth_error_snoc _ _)). eauto.
Qed.

Lemma store_ok self g w c :
  nth_error (w_heap w) self = Some c ->
  store self g w = (Ok tt, with_heap w (list_update (w_heap w) self (g c))).
Proof. intros H. unfold store. mrun. now rewrite H. Qed.

Lemma nth_error_lt {A} (l : list A) n x : nth_error l n = Some x -> (n < List.length l)%nat.
Proof. intros H. apply nth_error_Some. congruence. Qed.

(** [connect()] for a database this thread has not connected yet: the object
    is new, and is cached under the database name. *)
Lemma Pg_connect_uncached env kw w d :
  tget (w_pg_threads w) (w_ident w) = Some d \/
  (tget (w_pg_threads w) (w_ident w) = None /\ d = []) ->
  smem d (pg_cache_key env kw) = false ->
  exists w1,
    Pg.connect env kw false w = (Ok (List.length (w_heap w)), w1) /\
    (List.length (w_heap w) < List.length (w_heap w1))%nat /\
    w_ident w1 = w_ident w /\
    w_dbconns w1 = w_dbconns w /\
    w_my_threads w1 = w_my_threads w /\
    tget (w_pg_threads w1) (w_ident w1)
      = Some (sset d (pg_cache_key env kw) (List.length (w_heap w))).
Proof.
  intros Hd Hmiss. unfold Pg.connect.
  set (args := match kw with
               | Some (d0, h, u, p, port) =>
                   (d0, h, u, p, match port with Some n => n | None => 5432 end)
               | None => _
               end).
  assert (Hkey : fst (fst (fst (fst args))) = pg_cache_key env kw).
  { unfold args, pg_cache_key. now destruct kw as [[[[[d0 h] u] p] port]|]. }
  destruct args as [[[[database hostname] username] password] port].
  cbn [fst] in Hkey. subst database. cbv beta iota.
  unfold bind at 1. unfold get_world at 1.
  (* connections = cls.threads.setdefault(ident, {}) *)
  set (w0 := match tget (w_pg_threads w) (w_ident w) with
             | Some _ => w
             | None => with_pg_threads w (tset (w_pg_threads w) (w_ident w) [])
             end).
  assert (H0 : (match tget (w_pg_threads w) (w_ident w) with
                | Some d0 => ret d0
                | None =>
                    modify (fun w2 => with_pg_threads w2
                                        (tset (w_pg_threads w2) (w_ident w) [])) ;;
                    ret []
                end) w = (Ok d, w0)).
  { unfold w0. destruct Hd as [Hd|[Hd ->]]; rewrite Hd; reflexivity. }
  assert (Hd0 : tget (w_pg_threads w0) (w_ident w) = Some d).
  { unfold w0. destruct Hd as [Hd|[Hd ->]]; rewrite Hd; auto.
    cbn. apply tget_tset_same. }
  assert (Hsame : w_heap w0 = w_heap w /\ w_ident w0 = w_ident w /\
                  w_dbconns w0 = w_dbconns w /\ w_my_threads w0 = w_my_threads w).
  { unfold w0. destruct (tget (w_pg_threads w) (w_ident w)); auto. }
  destruct Hsame as [Hheap [Hident [Hdb Hmy]]].
  rewrite (bind_ok _ _ _ _ _ H0). rewrite Hmiss. cbn [negb].
  destruct (Pg_init_result env hostname port (pg_cache_key env kw) username password
              Pg.default_max_idle_time w0) as [w' [Hinit [c Hc]]].
  rewrite (bind_ok _ _ _ _ _ Hinit).
  rewrite (bind_ok _ _ _ _ _ (store_ok _ _ _ _ Hc)).
  unfold bind at 1, modify at 1, ret.
  pose proof (keeps_Pg_init w_pg_threads registry_part_pg_threads env hostname port
                (pg_cache_key env kw) username password Pg.default_max_idle_time w0) as Kpg.
  pose proof (keeps_Pg_init w_my_threads registry_part_my_threads env hostname port
                (pg_cache_key env kw) username password Pg.default_max_idle_time w0) as Kmy.
  pose proof (keeps_Pg_init w_ident registry_part_ident env hostname port
                (pg_cache_key env kw) username password Pg.default_max_idle_time w0) as Kid.
  pose proof (cl_Pg_init env (w_ident w0) hostname port (pg_cache_key env kw) username
                password Pg.default_max_idle_time w0 eq_refl) as Kstep.
  rewrite Hinit in Kpg, Kmy, Kid, Kstep. cbn [snd] in *.
  rewrite Hheap in *.
  eexists. split; [reflexivity|].
  cbn [w_trace w_heap w_ident w_dbconns w_pg_threads w_my_threads with_heap
       with_pg_threads].
  rewrite list_update_length, Kpg, Hd0.
  split; [exact (nth_error_lt _ _ _ Hc)|].
  split; [congruence|]. split; [rewrite (cs_dbconns _ _ Kstep); congruence|].
  split; [congruence|].
  replace (w_ident w') with (w_ident w) by congruence. apply tget_tset_same.
Qed.

Lemma Pg_connect_hit env kw w d conn :
  tget (w_pg_threads w) (w_ident w) = Some d ->
  sget d (pg_cache_key env kw) = Some conn ->
  Pg.connect env kw false w = (Ok conn, w).
Proof.
  intros Hd Hk. unfold Pg.connect.
  set (args := match kw with
               | Some (d0, h, u, p, port) =>
                   (d0, h, u, p, match port with Some n => n | None => 5432 end)
               | None => _
               end).
  assert (Hkey : fst (fst (fst (fst args))) = pg_cache_key env kw).
  { unfold args, pg_cache_key. now destruct kw as [[[[[d0 h] u] p] port]|]. }
  destruct args as [[[[database hostname] username] password] port].
  cbn [fst] in Hkey. subst database. cbv beta iota.
  unfold bind at 1. unfold get_world at 1. rewrite Hd.
  unfold ret at 1. unfold bind at 1.
  unfold smem, Dict.mem. fold (sget d (pg_cache_key env kw)). rewrite Hk.
  reflexivity.
Qed.

Lemma smem_sget {V} (d : sdict V) k :
  smem d k = true -> exists v, sget d k = Some v.
Proof.
  unfold smem, Dict.mem. fold (sget d k). destruct (sget d k); eauto. discriminate.
Qed.

Lemma smem_false_or {V} (d : sdict V) k :
  smem d k = false \/ exists v, sget d k = Some v.
Proof.
  destruct (smem d k) eqn:E; [right; now apply smem_sget | now left].
Qed.

(** X22: [PostgresConnection.connect()] caches per thread and database: once it
    has returned a connection, the same call returns that same object again
    and does nothing else (no new object, no driver connection). *)
Theorem Pg_connect_cached (env : Env)
    (kw : option (string * option string * option string * option string * option Z))
    (w : World) (conn : nat) (w1 : World) :
  Pg.connect env kw false w = (Ok conn, w1) ->
  Pg.connect env kw false w1 = (Ok conn, w1).
Proof.
  intros H.
  destruct (tget (w_pg_threads w) (w_ident w)) as [d|] eqn:Hd.
  - destruct (smem_false_or d (pg_cache_key env kw)) as [Hmiss|[c Hc]].
    + destruct (Pg_connect_uncached env kw w d (or_introl Hd) Hmiss)
        as [w1' [Hrun [_ [_ [_ [_ Hreg]]]]]].
      rewrite Hrun in H. inversion H; subst.
      apply (Pg_connect_hit env kw w1 _ _ Hreg). apply sget_sset_same.
    + rewrite (Pg_connect_hit env kw w d c Hd Hc) in H. inversion H; subst.
      apply (Pg_connect_hit env kw w1 d conn Hd Hc).
  - destruct (Pg_connect_uncached env kw w [] (or_intror (conj Hd eq_refl)) eq_refl)
      as [w1' [Hrun [_ [_ [_ [_ Hreg]]]]]].
    rewrite Hrun in H. inversion H; subst.
    apply (Pg_connect_hit env kw w1 _ _ Hreg). apply sget_sset_same.
Qed.

Lemma Pg_connect_cached_witness :
  let env := Scenario.steady 100 Scenario.nothing_affected in
  let w1 := snd (Pg.connect env None false Scenario.blank) in
  Pg.connect env None false w1 = (Ok 0%nat, w1).
Proof.
  cbv zeta.
  apply (Pg_connect_cached (Scenario.steady 100 Scenario.nothing_affected) None
           Scenario.blank).
  vm_compute. reflexivity.
Defined.

Lemma list_update_snoc {A} (l : list A) x y :
  list_update (l ++ [x]) (List.length l) y = (l ++ [y])%list.
Proof. induction l as [|a l IH]; simpl; auto. now rewrite IH. Qed.

(** The constructor appends one object to the heap: of class
    [PostgresConnection], for the database and host it was given, holding
    the new handle when the driver connected and None when it did not. *)
Lemma Pg_init_object env hostname port database username password max_idle w :
  exists c,
    Pg.init env hostname port database username password max_idle w
      = (Ok (List.length (w_heap w)),
         snd (Pg.init env hostname port database username password max_idle w)) /\
    w_heap (snd (Pg.init env hostname port database username password max_idle w))
      = (w_heap w ++ [c])%list /\
    c_backend c = Postgres /\ c_database c = database /\ c_host c = hostname /\
    c_db c = match env_connect env (EvTime :: w_trace w) Postgres with
             | None => Some (S (List.length (w_trace w)))
             | Some _ => None
             end.
Proof.
  unfold Pg.init, Pg.reconnect, Pg.close. mrun.
  rewrite nth_error_snoc. cbn [c_db]. mrun.
  destruct (env_connect env (EvTime :: w_trace w) Postgres); mrun.
  - eexists. cbn [fst snd w_heap emit with_trace with_heap].
    split; [reflexivity|]. split; [reflexivity|]. cbn. auto.
  - rewrite nth_error_snoc. mrun. eexists.
    cbn [fst snd w_heap emit with_trace with_heap].
    split; [reflexivity|]. split; [apply list_update_snoc|]. cbn. auto.
Qed.

(** X23: [connect(force=True)] bypasses the cache both ways.  It returns the
    address of an object that the call itself put on the heap, after the
    objects that were there, which it leaves as they were: a
    [PostgresConnection] for the database asked for, connected when the
    driver connected.  And the object is recorded neither in
    [PostgresConnection.threads] nor in [dbconns]. *)
Theorem Pg_connect_force_is_fresh (env : Env)
    (kw : option (string * option string * option string * option string * option Z))
    (w : World) :
  exists c,
    fst (Pg.connect env kw true w) = Ok (List.length (w_heap w)) /\
    w_heap (snd (Pg.connect env kw true w)) = (w_heap w ++ [c])%list /\
    c_backend c = Postgres /\
    c_database c = pg_cache_key env kw /\
    (c_db c = None <-> env_connect env (EvTime :: w_trace w) Postgres <> None) /\
    w_pg_threads (snd (Pg.connect env kw true w)) = w_pg_threads w /\
    w_dbconns (snd (Pg.connect env kw true w)) = w_dbconns w.
Proof.
  unfold Pg.connect, pg_cache_key.
  set (args := match kw with
               | Some (d0, h, u, p, port) =>
                   (d0, h, u, p, match port with Some n => n | None => 5432 end)
               | None => _
               end).
  assert (Hdb : fst (fst (fst (fst args)))
                = match kw with
                  | Some (d, _, _, _, _) => d
                  | None => pg_database (options env)
                  end).
  { subst args. destruct kw as [[[[[d h] u] p] port]|]; reflexivity. }
  destruct args as [[[[database hostname] username] password] port].
  cbv beta iota. cbn [fst] in Hdb.
  destruct (Pg_init_object env hostname port database username password
              Pg.default_max_idle_time w) as [c [Hinit [Hheap [Hk [Hd [_ Hh]]]]]].
  pose proof (keeps_Pg_init w_pg_threads registry_part_pg_threads env hostname port
                database username password Pg.default_max_idle_time w) as Kpg.
  pose proof (cl_Pg_init env (w_ident w) hostname port database username
                password Pg.default_max_idle_time w eq_refl) as Kstep.
  exists c. rewrite Hinit at 1. cbn [fst].
  split; [reflexivity|]. split; [exact Hheap|]. split; [exact Hk|].
  split; [congruence|]. split.
  - rewrite Hh. destruct (env_connect env (EvTime :: w_trace w) Postgres);
      split; intros H; try discriminate; try congruence; try (now elim H).
  - split; [exact Kpg | exact (cs_dbconns _ _ Kstep)].
Qed.

(** The MySQL constructor, when it returns, returns the address it
    allocated. *)
Lemma My_init_result env fuel host database user password max_idle w conn w' :
  My.init env fuel host database user password max_idle w = (Ok conn, w') ->
  conn = List.length (w_heap w) /\
  exists c, nth_error (w_heap w') conn = Some c.
Proof.
  unfold My.init. unfold bind at 1. unfold lift at 1.
  destruct (My.address_of host) as [a|e|x]; try discriminate.
  unfold bind at 1. unfold time_time at 1.
  unfold bind at 1. unfold alloc at 1. cbn [w_heap emit with_trace].
  set (c0 := {| c_backend := Mysql; c_host := Some host; c_database := database;
                c_max_idle_time := max_idle; c_db := None;
                c_last_use_time := env_time env (w_trace w) |}).
  set (wa := with_heap (emit EvTime w) (w_heap w ++ [c0])).
  intros H.
  assert (Hstep : conn_step wa
            (snd (try_except (My.reconnect env fuel (List.length (w_heap w)))
                    (fun _ => true)
                    (fun _ => logging LError "Cannot connect to MySQL on %s") wa))).
  { apply (cl_try_except (w_ident wa)); [apply cl_My_reconnect| |reflexivity].
    intros e. apply cl_emit. }
  unfold bind at 1 in H. fold wa in H.
  destruct (try_except (My.reconnect env fuel (List.length (w_heap w)))
              (fun _ => true) _ wa) as [[u|e|s] wb]; try discriminate.
  unfold ret in H. inversion H; subst. split; [reflexivity|].
  cbn [snd] in Hstep.
  destruct (cs_heap _ _ Hstep (List.length (w_heap w)) c0) as [c' [Hc' _]].
  - unfold wa. cbn. apply nth_error_snoc.
  - eauto.
Qed.

Lemma My_connect_hit env fuel kw w d conn :
  tget (w_my_threads w) (w_ident w) = Some d ->
  sget d (my_cache_key env kw) = Some conn ->
  My.connect env fuel kw false w = (Ok conn, w).
Proof.
  intros Hd Hk. unfold My.connect.
  set (args := match kw with Some a => a | None => _ end).
  assert (Hkey : snd (fst (fst args)) ++ "@" ++ fst (fst (fst args))
                 = my_cache_key env kw).
  { unfold args, my_cache_key. now destruct kw as [[[[h s] u] p]|]. }
  destruct args as [[[host schema] user] passwd].
  cbn [fst snd] in Hkey. cbv beta iota zeta. rewrite Hkey.
  unfold bind at 1. unfold get_world at 1. rewrite Hd.
  unfold ret at 1. unfold bind at 1.
  unfold smem, Dict.mem. fold (sget d (my_cache_key env kw)). rewrite Hk.
  reflexivity.
Qed.

Lemma My_connect_uncached env fuel kw w d conn w1 :
  tget (w_my_threads w) (w_ident w) = Some d \/
  (tget (w_my_threads w) (w_ident w) = None /\ d = []) ->
  smem d (my_cache_key env kw) = false ->
  My.connect env fuel kw false w = (Ok conn, w1) ->
  conn = List.length (w_heap w) /\
  (conn < List.length (w_heap w1))%nat /\
  w_ident w1 = w_ident w /\
  w_dbconns w1 = w_dbconns w /\
  w_pg_threads w1 = w_pg_threads w /\
  tget (w_my_threads w1) (w_ident w1) = Some (sset d (my_cache_key env kw) conn).
Proof.
  intros Hd Hmiss. unfold My.connect.
  set (args := match kw with Some a => a | None => _ end).
  assert (Hkey : snd (fst (fst args)) ++ "@" ++ fst (fst (fst args))
                 = my_cache_key env kw).
  { unfold args, my_cache_key. now destruct kw as [[[[h s] u] p]|]. }
  destruct args as [[[host schema] user] passwd].
  cbn [fst snd] in Hkey. cbv beta iota zeta. rewrite Hkey.
  unfold bind at 1. unfold get_world at 1.
  set (w0 := match tget (w_my_threads w) (w_ident w) with
             | Some _ => w
             | None => with_my_threads w (tset (w_my_threads w) (w_ident w) [])
             end).
  assert (H0 : (match tget (w_my_threads w) (w_ident w) with
                | Some d0 => ret d0
                | None =>
                    modify (fun w2 => with_my_threads w2
                                        (tset (w_my_threads w2) (w_ident w) [])) ;;
                    ret []
                end) w = (Ok d, w0)).
  { unfold w0. destruct Hd as [Hd|[Hd ->]]; rewrite Hd; reflexivity. }
  assert (Hd0 : tget (w_my_threads w0) (w_ident w) = Some d).
  { unfold w0. destruct Hd as [Hd|[Hd ->]]; rewrite Hd; auto.
    cbn. apply tget_tset_same. }
  assert (Hsame : w_heap w0 = w_heap w /\ w_ident w0 = w_ident w /\
                  w_dbconns w0 = w_dbconns w /\ w_pg_threads w0 = w_pg_threads w).
  { unfold w0. destruct (tget (w_my_threads w) (w_ident w)); auto. }
  destruct Hsame as [Hheap [Hident [Hdb Hpg]]].
  rewrite (bind_ok _ _ _ _ _ H0). rewrite Hmiss. cbn [negb].
  unfold bind at 1.
  pose proof (keeps_My_init w_my_threads registry_part_my_threads env fuel host schema
                user passwd My.default_max_idle_time w0) as Kmy.
  pose proof (keeps_My_init w_pg_threads registry_part_pg_threads env fuel host schema
                user passwd My.default_max_idle_time w0) as Kpg.
  pose proof (cl_My_init env (w_ident w0) fuel host schema user passwd
                My.default_max_idle_time w0 eq_refl) as Kstep.
  destruct (My.init env fuel host schema user passwd My.default_max_idle_time w0)
    as [[self|e|s] wa] eqn:Hinit; try discriminate.
  destruct (My_init_result _ _ _ _ _ _ _ _ _ _ Hinit) as [Hself [c Hc]].
  cbn [snd] in *.
  unfold bind at 1.
  pose proof (keeps_My_execute w_my_threads registry_part_my_threads env fuel self
                "SET NAMES utf8mb4 COLLATE utf8mb4_unicode_ci" [] wa) as Emy.
  pose proof (keeps_My_execute w_pg_threads registry_part_pg_threads env fuel self
                "SET NAMES utf8mb4 COLLATE utf8mb4_unicode_ci" [] wa) as Epg.
  pose proof (cl_My_execute env (w_ident wa) fuel self
                "SET NAMES utf8mb4 COLLATE utf8mb4_unicode_ci" [] wa eq_refl) as Estep.
  destruct (My.execute env fuel self "SET NAMES utf8mb4 COLLATE utf8mb4_unicode_ci" [] wa)
    as [[v|e|s] wb]; try discriminate.
  cbn [snd] in *.
  unfold bind at 1, modify at 1, ret.
  intros H. inversion H; subst conn w1. clear H.
  cbn [w_trace w_heap w_ident w_dbconns w_pg_threads w_my_threads with_my_threads].
  assert (Hid : w_ident wb = w_ident w).
  { rewrite (cs_ident _ _ Estep), (cs_ident _ _ Kstep). exact Hident. }
  split; [congruence|].
  split.
  { pose proof (cs_len _ _ Estep). pose proof (nth_error_lt _ _ _ Hc). lia. }
  split; [exact Hid|].
  split; [rewrite (cs_dbconns _ _ Estep), (cs_dbconns _ _ Kstep); exact Hdb|].
  split; [congruence|].
  rewrite Emy, Kmy, Hd0, Hid. apply tget_tset_same.
Qed.

(** X24: [MysqlConnection.connect()] caches per thread under [schema@host]: once
    it has returned a connection, the same call returns that same object and
    does nothing else. *)
Theorem My_connect_cached (env : Env) (fuel : nat)
    (kw : option (string * string * option string * option string))
    (w : World) (conn : nat) (w1 : World) :
  My.connect env fuel kw false w = (Ok conn, w1) ->
  My.connect env fuel kw false w1 = (Ok conn, w1).
Proof.
  intros H.
  destruct (tget (w_my_threads w) (w_ident w)) as [d|] eqn:Hd.
  - destruct (smem_false_or d (my_cache_key env kw)) as [Hmiss|[c Hc]].
    + destruct (My_connect_uncached env fuel kw w d conn w1 (or_introl Hd) Hmiss H)
        as [_ [_ [_ [_ [_ Hreg]]]]].
      apply (My_connect_hit env fuel kw w1 _ _ Hreg). apply sget_sset_same.
    + rewrite (My_connect_hit env fuel kw w d c Hd Hc) in H. inversion H; subst.
      apply (My_connect_hit env fuel kw w1 d conn Hd Hc).
  - destruct (My_connect_uncached env fuel kw w [] conn w1
                (or_intror (conj Hd eq_refl)) eq_refl H)
      as [_ [_ [_ [_ [_ Hreg]]]]].
    apply (My_connect_hit env fuel kw w1 _ _ Hreg). apply sget_sset_same.
Qed.

Lemma My_connect_cached_witness :
  let env := Scenario.steady 100 Scenario.nothing_affected in
  let w1 := snd (My.connect env 3 None false Scenario.blank) in
  My.connect env 3 None false w1 = (Ok 0%nat, w1).
Proof.
  cbv zeta.
  apply (My_connect_cached (Scenario.steady 100 Scenario.nothing_affected) 3 None
           Scenario.blank).
  vm_compute. reflexivity.
Defined.

Lemma db_lookup_empty use_schema w :
  tget (w_dbconns w) (w_ident w) = Some [] ->
  forall conn w', db_lookup use_schema w <> (Ok conn, w').
Proof.
  intros Hd conn w'. unfold db_lookup.
  rewrite (bind_ok _ _ _ _ _ (databases_ok _ _ Hd)).
  unfold default_schema. cbn [Dict.len List.length Nat.eqb].
  rewrite andb_false_r. destruct use_schema; discriminate.
Qed.

(** X25: The first [db()] of a thread (nothing cached for it anywhere) returns a
    connection object that this very call allocated: it is none of the
    objects that existed before, so it is shared with no other thread. *)
Theorem db_first_call_in_thread_is_fresh (env : Env) (fuel : nat)
    (use_schema : option string) (w : World) (conn : nat) (w1 : World) :
  tget (w_dbconns w) (w_ident w) = None ->
  tget (w_pg_threads w) (w_ident w) = None ->
  tget (w_my_threads w) (w_ident w) = None ->
  db env fuel use_schema w = (Ok conn, w1) ->
  (List.length (w_heap w) <= conn < List.length (w_heap w1))%nat /\
  (forall a c, nth_error (w_heap w) a = Some c -> conn <> a).
Proof.
  intros Hdb0 Hpg0 Hmy0 Hrun.
  assert (Hmain : (List.length (w_heap w) <= conn < List.length (w_heap w1))%nat).
  { unfold db in Hrun.
    destruct (db_init_post w) as [w0 [d0 [H0 [Hd0 [Hheap0 [Hid0 [Hpgt0 [Hmyt0 Hnil]]]]]]]].
    specialize (Hnil Hdb0). subst d0.
    rewrite (bind_ok _ _ _ _ _ H0) in Hrun.
    assert (Hpgn : tget (w_pg_threads w0) (w_ident w0) = None) by congruence.
    assert (Hmyn : tget (w_my_threads w0) (w_ident w0) = None) by congruence.
    (* the Postgres step *)
    assert (Hpg : exists u1 wb d1,
              db_postgres env use_schema w0 = (Ok u1, wb) /\
              tget (w_dbconns wb) (w_ident wb) = Some d1 /\
              tget (w_my_threads wb) (w_ident wb) = None /\
              (List.length (w_heap w) <= List.length (w_heap wb))%nat /\
              ((d1 = [] /\ u1 = use_schema) \/
               (exists k c, d1 = [(k, c)] /\ u1 = Some k /\
                            (List.length (w_heap w) <= c < List.length (w_heap wb))%nat))).
    { destruct (pgsql_available env) eqn:Ea.
      - destruct (Pg_connect_uncached env None w0 []
                    (or_intror (conj Hpgn eq_refl)) eq_refl)
          as [wa [Hc [Hlt [Hia [Hda [Hma Hreg]]]]]].
        assert (Hd1 : tget (w_dbconns wa) (w_ident wa) = Some []).
        { rewrite Hda, Hia. exact Hd0. }
        assert (Hlt' : (List.length (w_heap w) < List.length (w_heap wa))%nat)
          by (rewrite <- Hheap0; exact Hlt).
        assert (Hcond : pgsql_available env
                          && negb (smem (@nil (string * nat)) (pg_database (options env)))
                        = true) by (rewrite Ea; reflexivity).
        eexists. eexists. eexists. split.
        + apply (db_postgres_creates env use_schema w0 [] _ wa [] Hd0 Hcond Hc Hd1).
        + cbn [w_dbconns w_ident w_my_threads w_heap with_dbconns].
          split; [apply tget_tset_same|]. split; [congruence|].
          split; [lia|]. right. eexists. eexists.
          split; [reflexivity|]. split; [reflexivity|]. rewrite Hheap0. lia.
      - exists use_schema, w0, []. split.
        + apply (db_postgres_skips env use_schema w0 [] Hd0). now rewrite Ea.
        + split; [exact Hd0|]. split; [exact Hmyn|].
          split; [rewrite Hheap0; lia|]. now left. }
    destruct Hpg as [u1 [wb [d1 [Hp [Hd1 [Hmy1 [Hlen1 Hcase]]]]]]].
    rewrite (bind_ok _ _ _ _ _ Hp) in Hrun.
    (* the MySQL step *)
    destruct (mysql_available env && negb (smem d1 (mysql_schema (options env)))) eqn:Em.
    - cbv beta in Hrun.
      destruct (My.connect env fuel None false wb) as [[cm|e|s] wc] eqn:Hc.
      + destruct (My_connect_uncached env fuel None wb [] cm wc
                    (or_intror (conj Hmy1 eq_refl)) eq_refl Hc)
          as [Hcm [Hlt [Hic [Hdc _]]]].
        assert (Hdc' : tget (w_dbconns wc) (w_ident wc) = Some d1).
        { rewrite Hdc, Hic. exact Hd1. }
        rewrite (bind_ok _ _ _ _ _
                   (db_mysql_creates env fuel u1 wb d1 cm wc d1 Hd1 Em Hc Hdc')) in Hrun.
        erewrite db_lookup_cached in Hrun;
          [ | cbn [w_dbconns w_ident with_dbconns]; apply tget_tset_same
            | apply sget_sset_same ].
        inversion Hrun; subst. cbn [w_heap with_dbconns]. lia.
      + exfalso. unfold bind at 1, db_mysql in Hrun.
        rewrite (bind_ok _ _ _ _ _ (databases_ok _ _ Hd1)) in Hrun.
        rewrite Em in Hrun. unfold bind at 1 in Hrun. rewrite Hc in Hrun.
        discriminate.
      + exfalso. unfold bind at 1, db_mysql in Hrun.
        rewrite (bind_ok _ _ _ _ _ (databases_ok _ _ Hd1)) in Hrun.
        rewrite Em in Hrun. unfold bind at 1 in Hrun. rewrite Hc in Hrun.
        discriminate.
    - cbv beta in Hrun.
      rewrite (bind_ok _ _ _ _ _ (db_mysql_skips _ _ _ _ _ Hd1 Em)) in Hrun.
      destruct Hcase as [[-> ->]|[k [c [-> [-> Hc]]]]].
      + exfalso. exact (db_lookup_empty use_schema wb Hd1 _ _ Hrun).
      + erewrite db_lookup_cached in Hrun; [ | exact Hd1 | ].
        * inversion Hrun; subst. exact Hc.
        * unfold sget. simpl. now rewrite String.eqb_refl. }
  split; [exact Hmain|].
  intros a c Ha. pose proof (nth_error_lt _ _ _ Ha). lia.
Qed.

(** Thread 1 holds both connections; thread 2 asks for the same schemas and
    gets an object of its own. *)
Lemma db_first_call_in_thread_is_fresh_witness :
  let env := Scenario.steady 100 Scenario.nothing_affected in
  let w := switch_to 2 (Scenario.after_first_db env) in
  fst (db env 3 None Scenario.blank) = Ok 1%nat /\
  fst (db env 3 None w) = Ok 3%nat /\ 3%nat <> 1%nat.
Proof.
  cbv zeta. split; [reflexivity|].
  assert (H : exists conn w1,
            db (Scenario.steady 100 Scenario.nothing_affected) 3 None
              (switch_to 2 (Scenario.after_first_db
                              (Scenario.steady 100 Scenario.nothing_affected)))
            = (Ok conn, w1) /\ conn = 3%nat).
  { do 2 eexists. split; vm_compute; reflexivity. }
  destruct H as [conn [w1 [H Hc]]].
  pose proof (db_first_call_in_thread_is_fresh
                (Scenario.steady 100 Scenario.nothing_affected) 3 None
                (switch_to 2 (Scenario.after_first_db
                                (Scenario.steady 100 Scenario.nothing_affected)))
                conn w1
                ltac:(vm_compute; reflexivity) ltac:(vm_compute; reflexivity)
                ltac:(vm_compute; reflexivity) H) as [_ Hfresh].
  rewrite H. cbn [fst]. subst conn. split; [reflexivity|].
  apply (Hfresh 1%nat
           {| c_backend := Mysql; c_host := Some "localhost"; c_database := "beta";
              c_max_idle_time := 25200; c_db := Some 3%nat; c_last_use_time := 100 |}).
  vm_compute. reflexivity.
Defined.

(* ===================================================================== *)
(** ** Idle reconnection, result rows, MySQL cursors *)

(** X26: A Postgres connection that sat idle longer than [max_idle_time] is
    replaced on its next use: the old handle is closed, then the driver
    connects, and [_db] is the new handle with a fresh [_last_use_time]. *)
Theorem Pg_ensure_connected_idle (env : Env) (self : nat) (w : World)
    (c : Connection) (h : nat) :
  nth_error (w_heap w) self = Some c ->
  c_db c = Some h ->
  env_time env (w_trace w) - c_last_use_time c > c_max_idle_time c ->
  env_connect env (EvClose h :: EvTime :: w_trace w) Postgres = None ->
  let closed := EvClose h :: EvTime :: w_trace w in
  fst (Pg._ensure_connected env self w) = Ok tt /\
  w_trace (snd (Pg._ensure_connected env self w))
    = EvTime :: EvConnect Postgres :: closed /\
  nth_error (w_heap (snd (Pg._ensure_connected env self w))) self
    = Some (with_last_use_time (with_db c (Some (List.length closed)))
              (env_time env (EvConnect Postgres :: closed))).
Proof.
  intros Hc Hh Hidle Hconn closed. unfold closed.
  apply Z.gtb_gt in Hidle.
  unfold Pg._ensure_connected, Pg.reconnect, Pg.close.
  repeat (progress
    (mrun;
     cbn [c_db c_last_use_time c_max_idle_time with_db with_last_use_time];
     rewrite ?Hc, ?Hh, ?Hidle, ?Hconn,
       ?(list_update_same _ _ _ _ Hc),
       ?(list_update_same _ _ _ _ (list_update_same _ _ _ _ Hc)),
       ?(list_update_same _ _ _ _
           (list_update_same _ _ _ _ (list_update_same _ _ _ _ Hc))))).
  repeat split.
Qed.

Lemma Pg_ensure_connected_idle_witness :
  let r := Pg._ensure_connected (Scenario.steady 100000 Scenario.nothing_affected) 0
             (Scenario.connected Postgres 90) in
  fst r = Ok tt /\
  w_trace (snd r) = [EvTime; EvConnect Postgres; EvClose 0; EvTime] /\
  option_map c_db (nth_error (w_heap (snd r)) 0) = Some (Some 2%nat).
Proof.
  cbv zeta.
  destruct (Pg_ensure_connected_idle (Scenario.steady 100000 Scenario.nothing_affected)
              0 (Scenario.connected Postgres 90) _ 0%nat eq_refl eq_refl
              ltac:(vm_compute; reflexivity) eq_refl) as [H1 [H2 H3]].
  split; [exact H1|]. split; [exact H2|]. rewrite H3. reflexivity.
Defined.

(** X27: [query], on either backend, once the statement has run and produced a
    result set: one row object per result row, in the server's order, each of
    the class asked for ([Row] when none is) and built from the column names
    zipped with the row. *)
Theorem conn_query_rows (env : Env) (fuel : nat) (conn : nat) (q : string)
    (params : list value) (cls : option string) (w : World) (cursor cur : Cursor)
    (w' : World) (cols : list string) :
  statement_ran env fuel conn q params w cursor cur w' ->
  description (cur_state cur) = Some cols ->
  conn_query env fuel conn q params cls w =
    (Ok (map (make_row (match cls with Some c => c | None => "Row" end) cols)
           (result_rows (cur_state cur))),
     emit (EvCursorClose (cur_handle cursor)) w').
Proof.
  intros Hrun Hd. rewrite (conn_query_run _ _ _ _ _ _ _ _ _ _ Hrun).
  unfold rows_of_cursor. now rewrite Hd.
Qed.

Lemma conn_query_rows_witness :
  fst (conn_query (Scenario.steady 100 (Scenario.selected 2)) 1 0 Scenario.select_sql
         Scenario.a_name None (Scenario.connected Mysql 90))
  = Ok [make_row "Row" ["sql_diff_name"] [VStr (Str "diff001_init")];
        make_row "Row" ["sql_diff_name"] [VStr (Str "diff001_init")]].
Proof.
  assert (H : exists cursor cur w',
            statement_ran (Scenario.steady 100 (Scenario.selected 2)) 1 0
              Scenario.select_sql Scenario.a_name (Scenario.connected Mysql 90)
              cursor cur w' /\
            description (cur_state cur) = Some ["sql_diff_name"] /\
            result_rows (cur_state cur)
              = [[VStr (Str "diff001_init")]; [VStr (Str "diff001_init")]]).
  { do 3 eexists. split.
    - do 2 eexists. split; [vm_compute; reflexivity|].
      split; vm_compute; reflexivity.
    - split; vm_compute; reflexivity. }
  destruct H as [cursor [cur [w' [Hrun [Hd Hr]]]]].
  rewrite (conn_query_rows _ _ _ _ _ None _ _ _ _ _ Hrun Hd). cbn [fst].
  now rewrite Hr.
Defined.

Lemma My_cursor_inv env fuel self w cursor w1 :
  My._cursor env fuel self w = (Ok cursor, w1) ->
  exists c, nth_error (w_heap w1) self = Some c /\ c_db c = Some (cur_handle cursor).
Proof.
  unfold My._cursor, My._cursor_in. unfold bind at 1.
  destruct (My._ensure_connected env fuel self w) as [[u|e|s] w0]; try discriminate.
  mrun. destruct (nth_error (w_heap w0) self) as [c|] eqn:Hc; try discriminate.
  destruct (c_db c) as [h|] eqn:Hh; mrun; intros H; inversion H; subst.
  exists c. simpl. auto.
Qed.

Lemma My_execute_not_stuck env self cursor q params w c :
  nth_error (w_heap w) self = Some c ->
  forall s, fst (My._execute env self cursor q params w) <> Stuck s.
Proof.
  intros Hc s. unfold My._execute, My.close. mrun.
  destruct (env_execute env (w_trace w) (cur_handle cursor) q params) as [st|e]; mrun.
  - discriminate.
  - destruct (is_OperationalError e); mrun; [|discriminate].
    rewrite Hc. destruct (c_db c); mrun; rewrite ?Hc; discriminate.
Qed.

(** X28: The MySQL methods release their cursor on every exit path too. *)
Theorem My_cursor_always_closed (env : Env) (fuel : nat) (self : nat) (q : string)
    (params : list value) (cls : option string) (w : World) (cursor : Cursor)
    (w1 : World) :
  My._cursor env fuel self w = (Ok cursor, w1) ->
  (exists w2, snd (My.query env fuel self q params cls w)
              = emit (EvCursorClose (cur_handle cursor)) w2) /\
  (exists w2, snd (My.execute_lastrowid env fuel self q params w)
              = emit (EvCursorClose (cur_handle cursor)) w2) /\
  (exists w2, snd (My.execute_rowcount env fuel self q params w)
              = emit (EvCursorClose (cur_handle cursor)) w2).
Proof.
  intros Hcur. destruct (My_cursor_inv _ _ _ _ _ _ Hcur) as [c [Hc _]].
  pose proof (My_execute_not_stuck env self cursor q params w1 c Hc) as Hns.
  split; [|split].
  - unfold My.query. rewrite (bind_ok _ _ _ _ _ Hcur).
    rewrite finally_cursor_close; [eexists; reflexivity|].
    apply bind_pure_not_stuck; auto.
    intros a w' s. unfold rows_of_cursor.
    destruct (description (cur_state a)); discriminate.
  - unfold My.execute_lastrowid, My.execute_lastrowid_in.
    unfold My._cursor in Hcur. rewrite (bind_ok _ _ _ _ _ Hcur).
    rewrite finally_cursor_close; [eexists; reflexivity|].
    apply bind_pure_not_stuck; auto. intros a w' s. discriminate.
  - unfold My.execute_rowcount. rewrite (bind_ok _ _ _ _ _ Hcur).
    rewrite finally_cursor_close; [eexists; reflexivity|].
    apply bind_pure_not_stuck; auto. intros a w' s. discriminate.
Qed.

Lemma My_cursor_always_closed_witness :
  exists w2,
    snd (My.execute_lastrowid (Scenario.refusing OperationalError) 1 0
           Scenario.insert_sql Scenario.a_name (Scenario.connected Mysql 90))
    = emit (EvCursorClose 0) w2.
Proof.
  exact (proj1 (proj2 (My_cursor_always_closed (Scenario.refusing OperationalError)
                         1 0 Scenario.insert_sql Scenario.a_name None
                         (Scenario.connected Mysql 90) _ _ eq_refl))).
Defined.
